(** * Coinstore connector: market-data normalisation, registry and signer

    A shallow embedding of the Coinstore exchange connector
    (hummingbot/connector/exchange/coinstore) and the properties of its
    order-book data source, its symbol registry and its request signer.

    Conventions of the embedding.
    - A Python [str] is a Rocq [string] holding its UTF-8 bytes, so
      [s.encode("utf8")] is the identity on the bytes.
    - A Python [float] is a binary64 [PrimFloat.float]; [int] is [Z].
    - A value decoded from JSON ([Dict[str, Any]], [Any]) is a [json]; a
      [dict] is the list of its items in insertion order, read by the first
      item of a key.
    - A raised exception is the [Raise] case of [result]; code that writes to
      a queue or a socket is a function from the state before to the outcome
      and the state after.
    - Text is read by characters where Python does: [Decimal] takes the
      decimal digits and the white space of every script. The case mapping
      of [str.upper] is not modelled; it is a parameter [upper] of the
      definitions that call it, and the theorems hold for every [upper].
    - An object of the core (the REST assistant, its factory) is the record
      of what its methods give. *)

Set Warnings "-register-all,-inexact-float".
From Stdlib Require Import ZArith NArith QArith Qpower Qfield Floats Lia.
From Stdlib Require Import Strings.String Strings.Ascii Lists.List.
From stdpp Require Import gmap strings pretty.
Import ListNotations.

#[local] Open Scope string_scope.
#[local] Open Scope list_scope.
#[local] Open Scope Z_scope.

(** ** Python values *)

Inductive json : Type :=
  | JNull
  | JBool (b : bool)
  | JInt (n : Z)
  | JFloat (f : float)
  | JStr (s : string)
  | JList (l : list json)
  | JObj (items : list (string * json)).

Definition dict : Type := list (string * json).

Inductive exn : Type :=
  | KeyError
  | TypeError
  | ValueError
  | AttributeError
  | OverflowError
  | InvalidOperation
  | ValueDuplicationError.

Inductive result (A : Type) : Type :=
  | Ok (a : A)
  | Raise (e : exn).

Arguments Ok {A} a.
Arguments Raise {A} e.

Definition rbind {A B : Type} (r : result A) (k : A -> result B) : result B :=
  match r with
  | Ok a => k a
  | Raise e => Raise e
  end.

Declare Scope py_scope.
Delimit Scope py_scope with py.
Notation "'let*' x ':=' c 'in' k" := (rbind c (fun x => k))
  (at level 10, x name, c at level 100, k at level 200) : py_scope.
Notation "'let*' ' p ':=' c 'in' k" := (rbind c (fun p => k))
  (at level 10, p pattern, c at level 100, k at level 200) : py_scope.
#[local] Open Scope py_scope.

(** [d.get(key)]: the value of the first item of [key], [None] otherwise. *)
Fixpoint dict_get (key : string) (d : dict) : json :=
  match d with
  | [] => JNull
  | (k, v) :: rest => if String.eqb k key then v else dict_get key rest
  end.

(** [d[key]] on a dict: [KeyError] when [key] is absent. *)
Fixpoint dict_item (key : string) (d : dict) : result json :=
  match d with
  | [] => Raise KeyError
  | (k, v) :: rest => if String.eqb k key then Ok v else dict_item key rest
  end.

(** [v[key]] for a string [key] on any decoded value: only a dict can be
    subscripted by a string. *)
Definition subscript (v : json) (key : string) : result json :=
  match v with
  | JObj items => dict_item key items
  | _ => Raise TypeError
  end.

(** [d[key] = v] on an insertion-ordered dict: a present key keeps its place,
    a new key goes last. *)
Fixpoint dict_set (key : string) (v : json) (d : dict) : dict :=
  match d with
  | [] => [(key, v)]
  | (k, w) :: rest =>
      if String.eqb k key then (k, v) :: rest else (k, w) :: dict_set key v rest
  end.

Definition dict_has (key : string) (d : dict) : bool :=
  existsb (fun kv => String.eqb (fst kv) key) d.

(** [v == s] for a string literal [s]. *)
Definition py_eq_str (v : json) (s : string) : bool :=
  match v with
  | JStr t => String.eqb t s
  | _ => false
  end.

(** [v is not None]. *)
Definition is_not_None (v : json) : bool :=
  match v with
  | JNull => false
  | _ => true
  end.

(** [v == 0]: Python compares numbers by value, and [bool] is an [int]. *)
Definition py_eq_zero (v : json) : bool :=
  match v with
  | JInt n => Z.eqb n 0
  | JBool b => negb b
  | JFloat f => PrimFloat.eqb f 0%float
  | _ => false
  end.

(** ** coinstore_constants *)

Module CONSTANTS.
Definition WSS_URL : string := "wss://ws.coinstore.com/s/ws".
Definition REST_URL : string := "https://api.coinstore.com/api".
Definition DIFF_EVENT_TYPE : string := "depth".
Definition TRADE_EVENT_TYPE : string := "trade".
Definition ORDERBOOK_DEPTH_PATH : string := "/v1/market/depth/{symbol}".
Definition SIDE_BUY : string := "BUY".
Definition SIDE_SELL : string := "SELL".
End CONSTANTS.

(** ** CoinstoreAPIOrderBookDataSource: the message router *)

Definition _trade_messages_queue_key : string := CONSTANTS.TRADE_EVENT_TYPE.
Definition _diff_messages_queue_key : string := CONSTANTS.DIFF_EVENT_TYPE.

(** The two [if] statements run one after the other; the second is not an
    [elif], so its assignment replaces the first one's. *)
Definition _channel_originating_message (event_message : dict) : string :=
  let channel := "" in
  let channel :=
    if py_eq_str (dict_get "T" event_message) CONSTANTS.TRADE_EVENT_TYPE
       || is_not_None (dict_get "tradeId" event_message)
    then _trade_messages_queue_key else channel in
  let channel :=
    if py_eq_str (dict_get "T" event_message) CONSTANTS.DIFF_EVENT_TYPE
    then _diff_messages_queue_key else channel in
  channel.

(** The three outcomes of the router, as the specification names them. *)
Inductive frame_class : Type := Trade | Diff | Unknown.

Definition class_of_channel (channel : string) : frame_class :=
  if String.eqb channel _trade_messages_queue_key then Trade
  else if String.eqb channel _diff_messages_queue_key then Diff
  else Unknown.

Definition carries_trade_tag (frame : dict) : bool :=
  py_eq_str (dict_get "T" frame) CONSTANTS.TRADE_EVENT_TYPE.
Definition carries_diff_tag (frame : dict) : bool :=
  py_eq_str (dict_get "T" frame) CONSTANTS.DIFF_EVENT_TYPE.
Definition carries_trade_id (frame : dict) : bool :=
  is_not_None (dict_get "tradeId" frame).

(** The classification rule in the priority order of the specification's
    words: trade first, diff second, unknown last. *)
Definition classify_by_priority (frame : dict) : frame_class :=
  if carries_trade_tag frame || carries_trade_id frame then Trade
  else if carries_diff_tag frame then Diff
  else Unknown.

(** ** The websocket: the frames sent so far, oldest first *)

(** Modelled from the spec: the stream of the transport, with
    [Stream.send(JSON)]. Sending appends one frame; a failure of the
    transport is not part of the model. *)
Definition WSAssistant : Type := list json.

Definition ws_send (payload : json) (ws : WSAssistant) : result unit * WSAssistant :=
  (Ok tt, ws ++ [payload]).

(** [_process_message_for_unknown_channel]; [now] is what [self._time()]
    returns at the call. *)
Definition _process_message_for_unknown_channel
    (now : float) (event_message : dict) (websocket_assistant : WSAssistant)
    : result unit * WSAssistant :=
  let pong_payloads :=
    JObj [("op", JStr "pong"); ("epochMillis", JFloat (now * 1e3)%float)] in
  ws_send pong_payloads websocket_assistant.

(** ** Python strings *)

Definition endswith (s suffix : string) : bool :=
  let n := String.length s in
  let k := String.length suffix in
  (k <=? n)%nat && String.eqb (substring (n - k) k s) suffix.

(** [s.split(sep)] for a separator that is not empty: the scan runs from the
    left, and a match consumes the whole separator. [skip] counts the bytes
    of a matched separator still to pass over, [cur] is the piece being
    read. *)
Fixpoint split_go (sep s : string) (skip : nat) (cur : string) : list string :=
  match s with
  | EmptyString => [cur]
  | String c s' =>
      match skip with
      | S n => split_go sep s' n cur
      | O =>
          if String.prefix sep s
          then cur :: split_go sep s' (String.length sep - 1) ""
          else split_go sep s' 0 (cur +:+ String c "")
      end
  end.

Definition split (s sep : string) : list string := split_go sep s 0 "".

(** [s.upper()] on ASCII text, where it changes the letters [a] to [z] and
    nothing else. The case mapping of the Unicode tables is not modelled:
    the definitions below take [s.upper()] as a parameter [upper], and this
    function stands for it on the ASCII symbols of the concrete inputs. *)
Definition upper_ascii (c : ascii) : ascii :=
  let n := nat_of_ascii c in
  if ((97 <=? n) && (n <=? 122))%nat then ascii_of_nat (n - 32) else c.

Fixpoint ascii_upper (s : string) : string :=
  match s with
  | EmptyString => EmptyString
  | String c s' => String (upper_ascii c) (ascii_upper s')
  end.

(** [for x in v]: the items a loop over a decoded value visits. A list gives
    its elements, a dict its keys, a string its characters (one per byte
    here; the loops below reject a string element at once, so only whether
    there is one matters); nothing else is iterable. *)
Definition py_iter (v : json) : result (list json) :=
  match v with
  | JList l => Ok l
  | JObj items => Ok (map (fun kv => JStr (fst kv)) items)
  | JStr s => Ok (map (fun c => JStr (String c "")) (list_ascii_of_string s))
  | _ => Raise TypeError
  end.

(** ** Python floats and integers *)

(** [int(x)]: truncation toward zero. *)
Definition py_int_of_float (x : float) : result Z :=
  match Prim2SF x with
  | S754_zero _ => Ok 0
  | S754_infinity _ => Raise OverflowError
  | S754_nan => Raise ValueError
  | S754_finite s m e =>
      let a := match e with
               | Zneg p => Z.shiftr (Z.pos m) (Z.pos p)
               | _ => Z.shiftl (Z.pos m) e
               end in
      Ok (if s then - a else a)
  end.

Definition SF_of_int (n : Z) : spec_float :=
  match n with
  | Z0 => S754_zero false
  | Zpos p => S754_finite false p 0
  | Zneg p => S754_finite true p 0
  end.

(** [float(n)] for an [int]: the nearest binary64, ties to even. Used below
    on the values of an enumeration only. *)
Definition py_float_of_int (n : Z) : float :=
  SF2Prim (binary_normalize prec emax n 0 false).

(** [a / b] on two [int]s with [b] not zero: the quotient rounded once to
    the nearest binary64; [OverflowError] when it is out of range. *)
Definition int_truediv (a b : Z) : result float :=
  match SFdiv prec emax (SF_of_int a) (SF_of_int b) with
  | S754_infinity _ => Raise OverflowError
  | q => Ok (SF2Prim q)
  end.

(** [v / 1000] for a decoded value [v]. *)
Definition truediv_1000 (v : json) : result float :=
  match v with
  | JInt n => int_truediv n 1000
  | JBool b => int_truediv (if b then 1 else 0) 1000
  | JFloat f => Ok (f / 1000)%float
  | _ => Raise TypeError
  end.

(** The rational a finite binary64 stands for. *)
Definition SF_value (x : spec_float) : option Q :=
  match x with
  | S754_zero _ => Some 0%Q
  | S754_finite s m e =>
      Some ((if s then -1 else 1) * inject_Z (Z.pos m) * Qpower 2 e)%Q
  | _ => None
  end.

Definition float_value (f : float) : option Q := SF_value (Prim2SF f).

(** ** decimal.Decimal *)

(** A [Decimal] is a sign, a coefficient and a power of ten, or a special
    value. Python keeps the coefficient as its digits without leading
    zeros, which is the number [coefficient]. *)
Inductive Decimal : Type :=
  | DecFinite (sign : bool) (coefficient : N) (exponent : Z)
  | DecInfinity (sign : bool)
  | DecNaN (sign signaling : bool) (payload : N).

(** The rational a finite [Decimal] stands for. *)
Definition dec_value (d : Decimal) : option Q :=
  match d with
  | DecFinite s c x =>
      Some ((if s then -1 else 1) * inject_Z (Z.of_N c) * Qpower 10 x)%Q
  | _ => None
  end.

Definition is_digit (c : ascii) : bool :=
  let n := nat_of_ascii c in ((48 <=? n) && (n <=? 57))%nat.

Definition digit_value (c : ascii) : N := (N_of_ascii c - 48)%N.

Definition lower_ascii (c : ascii) : ascii :=
  let n := nat_of_ascii c in
  if ((65 <=? n) && (n <=? 90))%nat then ascii_of_nat (n + 32) else c.

Fixpoint span_digits (s : list ascii) : list ascii * list ascii :=
  match s with
  | c :: r =>
      if is_digit c
      then let (ds, rest) := span_digits r in (c :: ds, rest)
      else ([], s)
  | [] => ([], [])
  end.

Definition N_of_digits (ds : list ascii) : N :=
  fold_left (fun acc c => (10 * acc + digit_value c)%N) ds 0%N.

Definition take_sign (s : list ascii) : bool * list ascii :=
  match s with
  | "+"%char :: r => (false, r)
  | "-"%char :: r => (true, r)
  | _ => (false, s)
  end.

Definition all_digits (s : list ascii) : bool := forallb is_digit s.

(** The number of decimal digits of a coefficient; zero has one. *)
Definition digits_of (c : N) : Z :=
  match c with
  | N0 => 1
  | _ => Z.of_nat (String.length (pretty c))
  end.

Definition MAX_EMAX : Z := 999999999999999999.
Definition MIN_ETINY : Z := -1999999999999999997.

(** The exact constructor refuses a value the widest context cannot hold
    without rounding or clamping. *)
Definition finite_within_limits (sign : bool) (c : N) (x : Z) : result Decimal :=
  if (MIN_ETINY <=? x)%Z && (x + digits_of c - 1 <=? MAX_EMAX)%Z
  then Ok (DecFinite sign c x)
  else Raise InvalidOperation.

(** The exponent part of a numeral: empty, or [E], an optional sign and at
    least one digit. *)
Definition parse_exponent (s : list ascii) : option Z :=
  match s with
  | [] => Some 0
  | c :: r =>
      if Ascii.eqb (lower_ascii c) "e" then
        let (neg, ds) := take_sign r in
        match ds with
        | [] => None
        | _ :: _ =>
            if all_digits ds
            then Some (if neg then - Z.of_N (N_of_digits ds)
                       else Z.of_N (N_of_digits ds))
            else None
        end
      else None
  end.

(** A numeral: digits with an optional point and at least one digit, then an
    optional exponent. *)
Definition parse_number (s : list ascii) : option (N * Z) :=
  let (intpart, r1) := span_digits s in
  let (fracpart, r2) :=
    match r1 with
    | "."%char :: r => span_digits r
    | _ => ([], r1)
    end in
  match intpart ++ fracpart with
  | [] => None
  | _ :: _ =>
      match parse_exponent r2 with
      | Some e =>
          Some (N_of_digits (intpart ++ fracpart), e - Z.of_nat (length fracpart))
      | None => None
      end
  end.

(** [Inf], [Infinity], [NaN] and [sNaN] with diagnostic digits, in any case. *)
Definition parse_special (sign : bool) (s : list ascii) : option Decimal :=
  let t := string_of_list_ascii (map lower_ascii s) in
  if String.eqb t "inf" || String.eqb t "infinity" then Some (DecInfinity sign)
  else if String.prefix "nan" t then
    let diag := skipn 3 s in
    if all_digits diag then Some (DecNaN sign false (N_of_digits diag)) else None
  else if String.prefix "snan" t then
    let diag := skipn 4 s in
    if all_digits diag then Some (DecNaN sign true (N_of_digits diag)) else None
  else None.

(** The characters of a text, as code points: the text is UTF-8, one to
    four bytes a character. A byte that starts no character of UTF-8, which
    the text of a [str] never holds, is given a number past the last code
    point. *)
Definition continuation_bits (b : ascii) : option N :=
  let n := N_of_ascii b in
  if ((128 <=? n) && (n <? 192))%N then Some (n - 128)%N else None.

Fixpoint utf8_decode (s : list ascii) : list N :=
  match s with
  | [] => []
  | b0 :: r0 =>
      let n0 := N_of_ascii b0 in
      let stray := (1114112 + n0)%N :: utf8_decode r0 in
      if (n0 <? 128)%N then n0 :: utf8_decode r0
      else if (n0 <? 192)%N then stray
      else if (n0 <? 224)%N then
        match r0 with
        | b1 :: r1 =>
            match continuation_bits b1 with
            | Some c1 => ((n0 - 192) * 64 + c1)%N :: utf8_decode r1
            | None => stray
            end
        | _ => stray
        end
      else if (n0 <? 240)%N then
        match r0 with
        | b1 :: b2 :: r2 =>
            match continuation_bits b1, continuation_bits b2 with
            | Some c1, Some c2 =>
                (((n0 - 224) * 64 + c1) * 64 + c2)%N :: utf8_decode r2
            | _, _ => stray
            end
        | _ => stray
        end
      else if (n0 <? 248)%N then
        match r0 with
        | b1 :: b2 :: b3 :: r3 =>
            match continuation_bits b1, continuation_bits b2,
                  continuation_bits b3 with
            | Some c1, Some c2, Some c3 =>
                ((((n0 - 240) * 64 + c1) * 64 + c2) * 64 + c3)%N :: utf8_decode r3
            | _, _, _ => stray
            end
        | _ => stray
        end
      else stray
  end.

(** [Py_UNICODE_ISSPACE]: the white space of Unicode. *)
Definition unicode_isspace (cp : N) : bool :=
  (((9 <=? cp) && (cp <=? 13)) || ((28 <=? cp) && (cp <=? 32))
   || (cp =? 133) || (cp =? 160) || (cp =? 5760)
   || ((8192 <=? cp) && (cp <=? 8202)) || (cp =? 8232) || (cp =? 8233)
   || (cp =? 8239) || (cp =? 8287) || (cp =? 12288))%N.

(** The digit zero of every script with decimal digits (Unicode 14, the
    tables of CPython 3.11); the digits one to nine follow it. *)
Definition decimal_zeros : list N :=
  [48; 1632; 1776; 1984; 2406; 2534; 2662; 2790; 2918; 3046; 3174; 3302;
   3430; 3558; 3664; 3792; 3872; 4160; 4240; 6112; 6160; 6470; 6608; 6784;
   6800; 6992; 7088; 7232; 7248; 42528; 43216; 43264; 43472; 43504; 43600;
   44016; 65296; 66720; 68912; 69734; 69872; 69942; 70096; 70384; 70736;
   70864; 71248; 71360; 71472; 71904; 72016; 72784; 73040; 73120; 92768;
   92864; 93008; 120782; 120792; 120802; 120812; 120822; 123200; 123632;
   125264; 130032]%N.

(** [Py_UNICODE_TODECIMAL]: the value of a decimal digit of any script. *)
Definition unicode_decimal (cp : N) : option N :=
  match find (fun zero => (zero <=? cp) && (cp <? zero + 10))%N decimal_zeros with
  | Some zero => Some (cp - zero)%N
  | None => None
  end.

Fixpoint lstrip (s : list N) : list N :=
  match s with
  | c :: r => if unicode_isspace c then lstrip r else s
  | [] => []
  end.

Definition strip (s : list N) : list N := rev (lstrip (rev (lstrip s))).

(** The ASCII character the constructor reads for a character of the text:
    an ASCII character other than NUL is itself, white space beyond ASCII
    is a space, a decimal digit of any script is its ASCII digit, and
    nothing else is read. *)
Definition ascii_of_char (cp : N) : option ascii :=
  if ((0 <? cp) && (cp <=? 127))%N then Some (ascii_of_N cp)
  else if unicode_isspace cp then Some " "%char
  else
    match unicode_decimal cp with
    | Some d => Some (ascii_of_N (48 + d))
    | None => None
    end.

Fixpoint ascii_of_chars (chars : list N) : option (list ascii) :=
  match chars with
  | [] => Some []
  | cp :: rest =>
      match ascii_of_char cp, ascii_of_chars rest with
      | Some a, Some t => Some (a :: t)
      | _, _ => None
      end
  end.

Definition underscore : N := 95.

(** The text the constructor parses: white space around the text and every
    underscore are dropped and the characters left are read as ASCII; one
    character that cannot be read leaves nothing to parse. *)
Definition numeric_as_ascii (value : string) : list ascii :=
  let chars :=
    List.filter (fun cp => negb (cp =? underscore)%N)
      (strip (utf8_decode (list_ascii_of_string value))) in
  match ascii_of_chars chars with
  | Some text => text
  | None => []
  end.

(** [Decimal(value)] for a [str]: the text read as above is a signed numeral
    or a special value. *)
Definition Decimal_of_str (value : string) : result Decimal :=
  let s := numeric_as_ascii value in
  let (sign, body) := take_sign s in
  match parse_number body with
  | Some (c, x) => finite_within_limits sign c x
  | None =>
      match parse_special sign body with
      | Some d => Ok d
      | None => Raise InvalidOperation
      end
  end.

(** [Decimal(n)] for an [int]. *)
Definition Decimal_of_int (n : Z) : Decimal := DecFinite (n <? 0)%Z (Z.abs_N n) 0.

(** [strip_twos m k]: halve [m] while it is even, at most [k] times; the
    result is the odd-or-exhausted numerator and the halvings left over. *)
Fixpoint strip_twos (m : positive) (k : nat) : positive * nat :=
  match k, m with
  | S k', xO m' => strip_twos m' k'
  | _, _ => (m, k)
  end.

(** [Decimal(f)] for a [float]: the binary value [n / 2^k] in lowest terms,
    written as [n * 5^k] times ten to the [-k]; no rounding. *)
Definition Decimal_of_float (f : float) : Decimal :=
  match Prim2SF f with
  | S754_zero s => DecFinite s 0 0
  | S754_infinity s => DecInfinity s
  | S754_nan => DecNaN false false 0
  | S754_finite s m e =>
      match e with
      | Zneg p =>
          let (n, k) := strip_twos m (Pos.to_nat p) in
          DecFinite s (N.pos n * 5 ^ N.of_nat k) (- Z.of_nat k)
      | _ => DecFinite s (N.pos m * 2 ^ Z.to_N e) 0
      end
  end.

(** A sign given as [0], [1], [False] or [True]. *)
Definition sequence_sign (v : json) : option bool :=
  match v with
  | JInt 0 => Some false
  | JInt 1 => Some true
  | JBool b => Some b
  | _ => None
  end.

(** One digit of a coefficient given as a sequence. *)
Definition sequence_digit (v : json) : option N :=
  match v with
  | JInt n => if (0 <=? n)%Z && (n <=? 9)%Z then Some (Z.to_N n) else None
  | JBool b => Some (if b then 1 else 0)%N
  | _ => None
  end.

Fixpoint sequence_digits (l : list json) (acc : N) : option N :=
  match l with
  | [] => Some acc
  | v :: rest =>
      match sequence_digit v with
      | Some d => sequence_digits rest (10 * acc + d)%N
      | None => None
      end
  end.

(** The third item of the sequence: an exponent that fits a machine word,
    or one of the letters [F] (infinity), [n] (NaN) and [N] (signaling NaN). *)
Inductive sequence_exponent : Type :=
  | ExpFinite (x : Z)
  | ExpInfinity
  | ExpNaN (signaling : bool).

Definition sequence_exponent_of (v : json) : result sequence_exponent :=
  let word (x : Z) :=
    if (- 2 ^ 63 <=? x)%Z && (x <? 2 ^ 63)%Z
    then Ok (ExpFinite x) else Raise OverflowError in
  match v with
  | JInt x => word x
  | JBool b => word (if b then 1 else 0)
  | JStr "F" => Ok ExpInfinity
  | JStr "n" => Ok (ExpNaN false)
  | JStr "N" => Ok (ExpNaN true)
  | _ => Raise ValueError
  end.

(** [Decimal([sign, digits, exponent])]: the sign is checked first, then the
    exponent, then the digits. *)
Definition Decimal_of_sequence (l : list json) : result Decimal :=
  match l with
  | [sign_v; digits_v; exponent_v] =>
      match sequence_sign sign_v with
      | None => Raise ValueError
      | Some sign =>
          let* exponent := sequence_exponent_of exponent_v in
          match digits_v with
          | JList ds =>
              match sequence_digits ds 0%N with
              | None => Raise ValueError
              | Some c =>
                  match exponent with
                  | ExpFinite x => finite_within_limits sign c x
                  | ExpInfinity => Ok (DecInfinity sign)
                  | ExpNaN signaling => Ok (DecNaN sign signaling c)
                  end
              end
          | _ => Raise ValueError
          end
      end
  | _ => Raise ValueError
  end.

(** [Decimal(value)] on a decoded value. *)
Definition Decimal_of (value : json) : result Decimal :=
  match value with
  | JStr s => Decimal_of_str s
  | JInt n => Ok (Decimal_of_int n)
  | JBool b => Ok (Decimal_of_int (if b then 1 else 0))
  | JFloat f => Ok (Decimal_of_float f)
  | JList l => Decimal_of_sequence l
  | JNull | JObj _ => Raise TypeError
  end.

(** ** The symbol registry of CoinstoreExchange *)

(** A [bidict]: a one-to-one map kept as its forward and its inverse map. *)
Record bidict : Type := {
  fwdm : gmap string string;
  invm : gmap string string
}.

Definition bidict_empty : bidict := {| fwdm := ∅; invm := ∅ |}.

(** [b[key] = val] under the default duplication policy: a key bound already
    is re-bound and its old value dropped; a value bound already to another
    key raises. *)
Definition bidict_put (key val : string) (b : bidict) : result bidict :=
  match fwdm b !! key, invm b !! val with
  | None, None =>
      Ok {| fwdm := <[key := val]> (fwdm b); invm := <[val := key]> (invm b) |}
  | Some oldval, None =>
      Ok {| fwdm := <[key := val]> (fwdm b);
            invm := <[val := key]> (delete oldval (invm b)) |}
  | Some _, Some oldkey =>
      if String.eqb oldkey key then Ok b else Raise ValueDuplicationError
  | None, Some _ => Raise ValueDuplicationError
  end.

(** The state of the connector the data source reads: the channel ids by
    venue symbol, and the symbol map once it has been set. *)
Record CoinstoreExchange : Type := {
  _symbol_to_id_map : gmap string json;
  _trading_pair_symbol_map : option bidict
}.

(** Modelled from the spec: [combine_to_hb_trading_pair(base, quote)] of the
    connector utilities, which builds the Instrument, "a human-facing
    trading-pair identifier (e.g., base/quote)": base and quote joined by a
    dash, as in the identifiers of the tests. *)
Definition combine_to_hb_trading_pair (base quote : string) : string :=
  base +:+ "-" +:+ quote.

(** Modelled from the spec: [self._set_trading_pair_symbol_map(mapping)] of
    the base class, the "explicit one-shot operation" that populates the
    registry: the map becomes [mapping]. *)
Definition _set_trading_pair_symbol_map (mapping : bidict) (c : CoinstoreExchange)
    : CoinstoreExchange :=
  {| _symbol_to_id_map := _symbol_to_id_map c;
     _trading_pair_symbol_map := Some mapping |}.

Section Population.

(** [s.upper()], the upper-casing of Unicode text. *)
Variable upper : string -> string.

(** What the loop of [_initialize_trading_pair_symbols_from_exchange_info]
    carries: the local [mapping] and the connector's [_symbol_to_id_map]. *)
Definition init_state : Type := bidict * gmap string json.

(** One turn of the loop, on one [symbol_data]. An exception leaves the
    state as it was at the start of the turn: the only write to the
    connector is the turn's last statement. *)
Definition install_symbol (symbol_data : json) (st : init_state)
    : result init_state :=
  let '(mapping, ids) := st in
  let* symbol_v := subscript symbol_data "symbol" in
  match symbol_v with
  | JStr exchange_symbol =>
      if endswith exchange_symbol "USDT" then
        match split exchange_symbol "USDT" with
        | [base_asset; _quote_asset] =>
            let* mapping' :=
              bidict_put exchange_symbol
                (combine_to_hb_trading_pair (upper base_asset) "USDT") mapping in
            let* id := subscript symbol_data "id" in
            Ok (mapping', <[exchange_symbol := id]> ids)
        | _ => Raise ValueError
        end
      else Ok st
  | _ => Raise AttributeError
  end.

(** The loop: the outcome and the state reached, which on an exception is
    the state after the last whole turn. *)
Fixpoint install_symbols (data_list : list json) (st : init_state)
    : result unit * init_state :=
  match data_list with
  | [] => (Ok tt, st)
  | symbol_data :: rest =>
      match install_symbol symbol_data st with
      | Ok st' => install_symbols rest st'
      | Raise e => (Raise e, st)
      end
  end.

Definition with_ids (ids : gmap string json) (c : CoinstoreExchange)
    : CoinstoreExchange :=
  {| _symbol_to_id_map := ids;
     _trading_pair_symbol_map := _trading_pair_symbol_map c |}.

Definition _initialize_trading_pair_symbols_from_exchange_info
    (exchange_info : dict) (self : CoinstoreExchange)
    : result unit * CoinstoreExchange :=
  let err_code := dict_get "code" exchange_info in
  if negb (py_eq_zero err_code) then (Ok tt, self)
  else
    let mapping := bidict_empty in
    match py_iter (dict_get "data" exchange_info) with
    | Raise e => (Raise e, self)
    | Ok data_list =>
        match install_symbols data_list (mapping, _symbol_to_id_map self) with
        | (Ok _, (mapping, ids)) =>
            (Ok tt, _set_trading_pair_symbol_map mapping (with_ids ids self))
        | (Raise e, (_, ids)) => (Raise e, with_ids ids self)
        end
    end.

End Population.

(** Modelled from the spec: the resolution of the registry, which the
    connector inherits from its base class: "[resolve(instrument) ->
    VenueSymbol] fails with [UnknownInstrument] if no mapping exists". It
    reads the inverse of the one-to-one symbol map; a map never set holds no
    mapping. *)
Definition exchange_symbol_associated_to_pair
    (self : CoinstoreExchange) (trading_pair : string) : result string :=
  match _trading_pair_symbol_map self with
  | Some symbol_map =>
      match invm symbol_map !! trading_pair with
      | Some symbol => Ok symbol
      | None => Raise KeyError
      end
  | None => Raise KeyError
  end.

(** Modelled from the spec: the lookup from the venue symbol carried in a
    frame to the instrument, which "fails with [UnknownSymbol] if resolution
    fails". The keys of the map are strings, so no other value is found,
    and a list or a dict cannot be a key at all. *)
Definition trading_pair_associated_to_exchange_symbol
    (self : CoinstoreExchange) (symbol : json) : result string :=
  match symbol with
  | JStr s =>
      match _trading_pair_symbol_map self with
      | Some symbol_map =>
          match fwdm symbol_map !! s with
          | Some trading_pair => Ok trading_pair
          | None => Raise KeyError
          end
      | None => Raise KeyError
      end
  | JList _ | JObj _ => Raise TypeError
  | _ => Raise KeyError
  end.

(** ** Order-book messages *)

(** Modelled from the spec: the message type of the core data types, the
    tag of the "tagged variant with cases" Snapshot, Diff and Trade. *)
Inductive OrderBookMessageType : Type := SNAPSHOT | DIFF | TRADE.

(** Modelled from the spec: the "canonical buy/sell enumeration" [TradeType]
    of the core data types, with the values of its members. *)
Inductive TradeType : Type := BUY | SELL | RANGE.

Definition TradeType_value (t : TradeType) : Z :=
  match t with
  | BUY => 1
  | SELL => 2
  | RANGE => 3
  end.

(** Modelled from the spec: an [OrderBookMessage] of the core data types is
    a message type, a [content] dict and a timestamp. The [content], by the
    keys the data source fills in:
    [trading_pair], [update_id], [bids], [asks] for a book message;
    [trade_id], [trading_pair], [trade_type], [amount], [price] for a trade. *)
Inductive message_content : Type :=
  | BookContent (trading_pair : string) (update_id : float) (bids asks : json)
  | TradeContent (trade_id : json) (trading_pair : string) (trade_type : float)
      (amount price : Decimal).

Record OrderBookMessage : Type := {
  type : OrderBookMessageType;
  content : message_content;
  timestamp : float
}.

(** An output queue ([asyncio.Queue], "unbounded, ordered"): its items,
    oldest first; [put_nowait] on it never fails. *)
Definition Queue : Type := list OrderBookMessage.

Definition put_nowait (item : OrderBookMessage) (q : Queue) : Queue := q ++ [item].

(** ** CoinstoreAPIOrderBookDataSource: the normalizers *)

(** What a call gives when [IndexError] is among the exceptions it can
    raise: those of [exn], and [IndexError]. *)
Inductive outcome (A : Type) : Type :=
  | Returns (a : A)
  | Raises (e : exn)
  | RaisesIndexError.

Arguments Returns {A} a.
Arguments Raises {A} e.
Arguments RaisesIndexError {A}.

Definition outcome_of_result {A : Type} (r : result A) : outcome A :=
  match r with
  | Ok a => Returns a
  | Raise e => Raises e
  end.

(** Modelled from the spec: the method of an outbound request; the signer
    only asks whether it is [POST]. *)
Inductive RESTMethod : Type := GET | POST | PUT | DELETE.

(** Modelled from the spec: the REST side of the transport, "a factory that
    yields REST clients". An object of the core is the record of what its
    methods give: [execute_request(url, params, method, throttler_limit_id)]
    returns the decoded response or raises, and [get_rest_assistant()]
    returns an assistant or raises. *)
Record RESTAssistant : Type := {
  execute_request : string -> string -> RESTMethod -> string -> outcome json
}.

Record WebAssistantsFactory : Type := {
  get_rest_assistant : outcome RESTAssistant
}.

(** The data source as [__init__] leaves it; [api_factory] is [None] by
    default. *)
Record CoinstoreAPIOrderBookDataSource : Type := {
  _trading_pairs : list string;
  _connector : CoinstoreExchange;
  _api_factory : option WebAssistantsFactory
}.

(** The statements of [_order_book_snapshot] that follow the request, on
    the [snapshot_response] the request returned; [now] is what
    [self._time()] returns. *)
Definition snapshot_message
    (now : float) (trading_pair : string) (snapshot_response : json)
    : result OrderBookMessage :=
  let snapshot_timestamp := now in
  let* data_b := subscript snapshot_response "data" in
  let* bids := subscript data_b "b" in
  let* data_a := subscript snapshot_response "data" in
  let* asks := subscript data_a "a" in
  let order_book_message_content :=
    BookContent trading_pair snapshot_timestamp bids asks in
  Ok {| type := SNAPSHOT;
        content := order_book_message_content;
        timestamp := snapshot_timestamp |}.

(** The body of the inner coroutine [parse_message], called with the
    frame's fields as keyword arguments, up to the message it builds; the
    fields are read in the order of the source. *)
Definition trade_message (self : CoinstoreAPIOrderBookDataSource) (msg : dict)
    : result OrderBookMessage :=
  let* trade_id := dict_item "tradeId" msg in
  let* symbol := dict_item "symbol" msg in
  let* trading_pair :=
    trading_pair_associated_to_exchange_symbol (_connector self) symbol in
  let* takerSide := dict_item "takerSide" msg in
  let trade_type :=
    if py_eq_str takerSide "BUY"
    then py_float_of_int (TradeType_value BUY)
    else py_float_of_int (TradeType_value SELL) in
  let* volume := dict_item "volume" msg in
  let* amount := Decimal_of volume in
  let* price_v := dict_item "price" msg in
  let* price := Decimal_of price_v in
  let* time := dict_item "time" msg in
  let* ts := truediv_1000 time in
  Ok {| type := TRADE;
        content := TradeContent trade_id trading_pair trade_type amount price;
        timestamp := ts |}.

(** One call of [parse_message] on [msg] unpacked: only a mapping can be
    unpacked, and the message is put on the queue as the last step. *)
Definition parse_message (self : CoinstoreAPIOrderBookDataSource) (msg : json)
    (message_queue : Queue) : result unit * Queue :=
  match msg with
  | JObj fields =>
      match trade_message self fields with
      | Ok trade_msg => (Ok tt, put_nowait trade_msg message_queue)
      | Raise e => (Raise e, message_queue)
      end
  | _ => (Raise TypeError, message_queue)
  end.

(** The loop [for trade_data in ...], one [parse_message] per entry. *)
Fixpoint parse_each (self : CoinstoreAPIOrderBookDataSource)
    (entries : list json) (message_queue : Queue) : result unit * Queue :=
  match entries with
  | [] => (Ok tt, message_queue)
  | trade_data :: rest =>
      match parse_message self trade_data message_queue with
      | (Ok _, q) => parse_each self rest q
      | (Raise e, q) => (Raise e, q)
      end
  end.

Definition _parse_trade_message (self : CoinstoreAPIOrderBookDataSource)
    (raw_message : dict) (message_queue : Queue) : result unit * Queue :=
  match dict_item "data" raw_message with
  | Raise e => (Raise e, message_queue)
  | Ok data =>
      match py_iter data with
      | Raise e => (Raise e, message_queue)
      | Ok entries =>
          match parse_each self entries message_queue with
          | (Raise e, q) => (Raise e, q)
          | (Ok _, q) =>
              (* parse incremental update *)
              if is_not_None (dict_get "tradeId" raw_message)
              then parse_message self (JObj raw_message) q
              else (Ok tt, q)
          end
      end
  end.

(** [_parse_order_book_diff_message]; [now] is what [self._time()] returns. *)
Definition _parse_order_book_diff_message (self : CoinstoreAPIOrderBookDataSource)
    (now : float) (raw_message : dict) (message_queue : Queue)
    : result unit * Queue :=
  let diff_data := raw_message in
  let timestamp := now in
  let built :=
    let* symbol := dict_item "symbol" raw_message in
    let* trading_pair :=
      trading_pair_associated_to_exchange_symbol (_connector self) symbol in
    let* bids := dict_item "b" diff_data in
    let* asks := dict_item "a" diff_data in
    Ok {| type := DIFF;
          content := BookContent trading_pair timestamp bids asks;
          timestamp := timestamp |} in
  match built with
  | Ok diff_message => (Ok tt, put_nowait diff_message message_queue)
  | Raise e => (Raise e, message_queue)
  end.

(** ** hashlib.sha256 and hmac *)

(** A byte string is the list of its bytes, each an integer below 256. *)
Definition bytes_of_string (s : string) : list Z :=
  map (fun c => Z.of_N (N_of_ascii c)) (list_ascii_of_string s).

Module SHA256.
(** A word is an integer below [2^32]. *)
Definition w32 (x : Z) : Z := x mod 2 ^ 32.
Definition add32 (x y : Z) : Z := w32 (x + y).
Definition rotr (n x : Z) : Z :=
  Z.lor (Z.shiftr x n) (w32 (Z.shiftl x (32 - n))).
Definition not32 (x : Z) : Z := 2 ^ 32 - 1 - x.

Definition Ch (x y z : Z) : Z := Z.lxor (Z.land x y) (Z.land (not32 x) z).
Definition Maj (x y z : Z) : Z :=
  Z.lxor (Z.lxor (Z.land x y) (Z.land x z)) (Z.land y z).
Definition Sigma0 (x : Z) : Z :=
  Z.lxor (Z.lxor (rotr 2 x) (rotr 13 x)) (rotr 22 x).
Definition Sigma1 (x : Z) : Z :=
  Z.lxor (Z.lxor (rotr 6 x) (rotr 11 x)) (rotr 25 x).
Definition sigma0 (x : Z) : Z :=
  Z.lxor (Z.lxor (rotr 7 x) (rotr 18 x)) (Z.shiftr x 3).
Definition sigma1 (x : Z) : Z :=
  Z.lxor (Z.lxor (rotr 17 x) (rotr 19 x)) (Z.shiftr x 10).

(** The constants are the first 32 bits of the fractional parts of the
    square roots (initial hash value) and the cube roots (round
    constants) of the first primes. [root_bits k n b r] settles the low
    [b] bits of the integer [k]-th root of [n], above the bits of [r]. *)
Fixpoint root_bits (k n : Z) (b : nat) (r : Z) : Z :=
  match b with
  | O => r
  | S b' =>
      let c := r + 2 ^ Z.of_nat b' in
      root_bits k n b' (if c ^ k <=? n then c else r)
  end.

Definition frac_root (k p : Z) : Z := w32 (root_bits k (p * 2 ^ (32 * k)) 36 0).

Definition is_prime (n : nat) : bool :=
  forallb (fun d => negb (Nat.eqb (n mod d) 0)) (seq 2 (n - 2)).

Definition primes : list Z := map Z.of_nat (filter is_prime (seq 2 310)).

Definition K : list Z := Eval vm_compute in map (frac_root 3) primes.
Definition H0 : list Z := Eval vm_compute in map (frac_root 2) (firstn 8 primes).

Definition be_bytes (width : nat) (x : Z) : list Z :=
  map (fun i => (Z.shiftr x (8 * Z.of_nat i)) mod 256) (rev (seq 0 width)).

(** The message, the bit 1, zeros up to 56 modulo 64 bytes, and the length
    in bits on eight bytes, most significant first. *)
Definition pad (msg : list Z) : list Z :=
  let n := Z.of_nat (length msg) in
  msg ++ [128] ++ repeat 0 (Z.to_nat ((55 - n) mod 64)) ++ be_bytes 8 (8 * n).

Fixpoint words_of (count : nat) (bytes : list Z) : list Z :=
  match count, bytes with
  | S count', b0 :: b1 :: b2 :: b3 :: rest =>
      (Z.shiftl b0 24 + Z.shiftl b1 16 + Z.shiftl b2 8 + b3)
        :: words_of count' rest
  | _, _ => []
  end.

(** The message schedule; [w] holds the words so far, newest first. *)
Fixpoint schedule (n : nat) (w : list Z) : list Z :=
  match n with
  | O => w
  | S n' =>
      let wt := add32 (add32 (sigma1 (nth 1 w 0)) (nth 6 w 0))
                  (add32 (sigma0 (nth 14 w 0)) (nth 15 w 0)) in
      schedule n' (wt :: w)
  end.

Definition round (h : list Z) (kw : Z * Z) : list Z :=
  match h with
  | [a; b; c; d; e; f; g; hh] =>
      let t1 := add32 (add32 (add32 hh (Sigma1 e)) (add32 (Ch e f g) (fst kw)))
                  (snd kw) in
      let t2 := add32 (Sigma0 a) (Maj a b c) in
      [add32 t1 t2; a; b; c; add32 d t1; e; f; g]
  | _ => h
  end.

Fixpoint add_words (x y : list Z) : list Z :=
  match x, y with
  | a :: x', b :: y' => add32 a b :: add_words x' y'
  | _, _ => []
  end.

Definition compress (h block : list Z) : list Z :=
  let w := rev (schedule 48 (rev (words_of 16 block))) in
  add_words h (fold_left round (combine K w) h).

Fixpoint blocks (count : nat) (h bytes : list Z) : list Z :=
  match count, bytes with
  | S count', _ :: _ =>
      blocks count' (compress h (firstn 64 bytes)) (skipn 64 bytes)
  | _, _ => h
  end.

(** [hashlib.sha256(msg).digest()]: 32 bytes. *)
Definition digest (msg : list Z) : list Z :=
  let p := pad msg in
  flat_map (be_bytes 4) (blocks (length p) H0 p).
End SHA256.

Module HMAC.
Definition block_size : nat := 64.

(** [hmac.new(key, msg, hashlib.sha256).digest()]. *)
Definition hmac_sha256 (key msg : list Z) : list Z :=
  let key := if (block_size <? length key)%nat then SHA256.digest key else key in
  let key := key ++ repeat 0 (block_size - length key) in
  SHA256.digest (map (Z.lxor 92) key
                 ++ SHA256.digest (map (Z.lxor 54) key ++ msg)).
End HMAC.

Definition lower_hex_digit (n : Z) : ascii :=
  ascii_of_N (Z.to_N (if n <? 10 then 48 + n else 87 + n)).

Definition upper_hex_digit (n : Z) : ascii :=
  ascii_of_N (Z.to_N (if n <? 10 then 48 + n else 55 + n)).

(** [.hexdigest()]: two lowercase hexadecimal digits per byte. *)
Definition hexlify (bytes : list Z) : string :=
  string_of_list_ascii
    (flat_map (fun b => [lower_hex_digit (b / 16); lower_hex_digit (b mod 16)])
       bytes).

(** ** urllib.parse *)

(** The bytes [quote] never escapes: letters, digits and [_.-~]. *)
Definition always_safe (c : ascii) : bool :=
  let n := nat_of_ascii c in
  (((65 <=? n) && (n <=? 90)) || ((97 <=? n) && (n <=? 122))
   || ((48 <=? n) && (n <=? 57))
   || (n =? 95) || (n =? 46) || (n =? 45) || (n =? 126))%nat.

(** [quote_plus(s)]: a space becomes [+], a safe byte stays, any other byte
    of the UTF-8 text becomes a percent sign and two uppercase hex digits. *)
Definition quote_plus_byte (c : ascii) : list ascii :=
  if Ascii.eqb c " " then ["+"%char]
  else if always_safe c then [c]
  else
    let n := Z.of_N (N_of_ascii c) in
    ["%"%char; upper_hex_digit (n / 16); upper_hex_digit (n mod 16)].

Definition quote_plus (s : string) : string :=
  string_of_list_ascii (flat_map quote_plus_byte (list_ascii_of_string s)).

Fixpoint join (sep : string) (parts : list string) : string :=
  match parts with
  | [] => ""
  | [p] => p
  | p :: rest => p +:+ sep +:+ join sep rest
  end.

(** ** Text of a value, subscription and signing *)

(** The signer [CoinstoreAuth]; [time_provider] is what
    [self.time_provider.time()] returns when it is called. *)
Record CoinstoreAuth : Type := {
  api_key : string;
  secret_key : string;
  time_provider : float
}.

Section Formatting.

(** [str(v)] for a float, a list or a dict, whose text is not modelled. *)
Variable repr_other : json -> string.

(** [str(v)], which is also what an f-string field [{v}] inserts. *)
Definition py_str (v : json) : string :=
  match v with
  | JNull => "None"
  | JBool true => "True"
  | JBool false => "False"
  | JInt n => pretty n
  | JStr s => s
  | _ => repr_other v
  end.

(** The two channel names of a channel id: depth at 50 levels, and trade. *)
Definition channel_names (id : json) : list string :=
  [py_str id +:+ "@depth@50"; py_str id +:+ "@trade"].

(** The loop of [_subscribe_channels]: two channel names per trading pair,
    appended to [channels]. *)
Fixpoint subscribe_loop (connector : CoinstoreExchange)
    (trading_pairs : list string) (channels : list string)
    : result (list string) :=
  match trading_pairs with
  | [] => Ok channels
  | trading_pair :: rest =>
      let* trading_symbol :=
        exchange_symbol_associated_to_pair connector trading_pair in
      match _symbol_to_id_map connector !! trading_symbol with
      | None => Raise KeyError
      | Some id =>
          let channels :=
            channels ++ [py_str id +:+ "@" +:+ CONSTANTS.DIFF_EVENT_TYPE +:+ "@50"] in
          let channels :=
            channels ++ [py_str id +:+ "@" +:+ CONSTANTS.TRADE_EVENT_TYPE] in
          subscribe_loop connector rest channels
      end
  end.

(** [_subscribe_channels]: an exception of the loop is logged and raised
    again, before anything is sent. *)
Definition _subscribe_channels (self : CoinstoreAPIOrderBookDataSource)
    (ws : WSAssistant) : result unit * WSAssistant :=
  match subscribe_loop (_connector self) (_trading_pairs self) [] with
  | Ok channels =>
      let payload :=
        JObj [("op", JStr "SUB");
              ("channel", JList (map JStr channels));
              ("id", JInt 1)] in
      ws_send payload ws
  | Raise e => (Raise e, ws)
  end.

(** [urlencode(params)]: the items in order, keys and values as text,
    each quoted. *)
Definition urlencode (params : dict) : string :=
  join "&" (map (fun kv => quote_plus (fst kv) +:+ "=" +:+ quote_plus (py_str (snd kv)))
              params).

Definition _generate_signature (self : CoinstoreAuth) (params : dict) : string :=
  let encoded_params_str := urlencode params in
  let digest :=
    hexlify (HMAC.hmac_sha256 (bytes_of_string (secret_key self))
               (bytes_of_string encoded_params_str)) in
  digest.

(** [int(self.time_provider.time() * 1e3)]. *)
Definition auth_timestamp (self : CoinstoreAuth) : result Z :=
  py_int_of_float (time_provider self * 1e3)%float.

(** [add_auth_to_params]; [params] is [None] or a dict, and
    [OrderedDict(params or {})] is a copy of its items in order. *)
Definition add_auth_to_params (self : CoinstoreAuth) (params : option dict)
    : result dict :=
  let* timestamp := auth_timestamp self in
  let request_params := match params with Some d => d | None => [] end in
  let request_params := dict_set "timestamp" (JInt timestamp) request_params in
  let signature := _generate_signature self request_params in
  let request_params := dict_set "signature" (JStr signature) request_params in
  Ok request_params.

Definition header_for_authentication (self : CoinstoreAuth) : list (string * string) :=
  [("X-COINSTORE-APIKEY", api_key self)].

End Formatting.

(** ** What the statements below speak of *)

(** The trade side as stored: [TradeType.BUY] for a taker side equal to
    ["BUY"], [TradeType.SELL] for anything else. *)
Definition side_of (takerSide : json) : TradeType :=
  if py_eq_str takerSide CONSTANTS.SIDE_BUY then BUY else SELL.

(** The number a decoded JSON number stands for. *)
Definition number_value (v : json) : option Q :=
  match v with
  | JInt n => Some (inject_Z n)
  | JBool b => Some (if b then 1 else 0)%Q
  | JFloat f => float_value f
  | _ => None
  end.

(** The exact decimal value of a text, in the words of the claims: the
    number its characters write, read off the text with no parser in
    between. *)

(** The number a sequence of digit values writes, the most significant
    digit first. *)
Fixpoint digits_number (ds : list N) : N :=
  match ds with
  | [] => 0
  | d :: rest => d * 10 ^ N.of_nat (length rest) + digits_number rest
  end.

(** [chars] are decimal digits, of any script, of the values [ds]. *)
Definition digits_of_chars (chars ds : list N) : Prop :=
  Forall2 (fun cp d => unicode_decimal cp = Some d) chars ds.

(** A sign: nothing or [+], or [-]. *)
Definition sign_of_chars (chars : list N) (negative : bool) : Prop :=
  (chars = [] /\ negative = false) \/
  (chars = [43%N] /\ negative = false) \/
  (chars = [45%N] /\ negative = true).

(** An exponent part: nothing, or the letter [e] or [E], a sign and at
    least one digit. *)
Definition exponent_of_chars (chars : list N) (x : Z) : Prop :=
  (chars = [] /\ x = 0) \/
  exists letter sign_chars digit_chars negative ds,
    chars = letter :: sign_chars ++ digit_chars /\
    (letter = 101%N \/ letter = 69%N) /\
    sign_of_chars sign_chars negative /\
    digit_chars <> [] /\
    digits_of_chars digit_chars ds /\
    x = if negative then - Z.of_N (digits_number ds) else Z.of_N (digits_number ds).

(** The same of the ASCII text the constructor parses. *)
Definition sign_of_text (text : list ascii) (negative : bool) : Prop :=
  (text = [] /\ negative = false) \/
  (text = ["+"%char] /\ negative = false) \/
  (text = ["-"%char] /\ negative = true).

(** [numeral_of_text value negative coefficient exponent]: apart from white
    space around it and underscores, [value] is a sign, digits with at most
    one point among them, and an exponent part; the digits, point left out,
    write [coefficient], and [exponent] is the exponent part less the
    number of digits after the point. The text then writes the number
    [coefficient] times ten to the [exponent], negated under a minus
    sign. *)
Definition numeral_of_text (value : string)
    (negative : bool) (coefficient : N) (exponent : Z) : Prop :=
  exists before core after sign_chars int_chars point_chars frac_chars exp_chars
         int_ds frac_ds x,
    utf8_decode (list_ascii_of_string value) = before ++ core ++ after /\
    forallb unicode_isspace before = true /\
    forallb unicode_isspace after = true /\
    List.filter (fun cp => negb (cp =? underscore)%N) core
    = sign_chars ++ int_chars ++ point_chars ++ frac_chars ++ exp_chars /\
    sign_of_chars sign_chars negative /\
    digits_of_chars int_chars int_ds /\
    ((point_chars = [] /\ frac_chars = []) \/ point_chars = [46%N]) /\
    digits_of_chars frac_chars frac_ds /\
    int_chars ++ frac_chars <> [] /\
    exponent_of_chars exp_chars x /\
    coefficient = digits_number (int_ds ++ frac_ds) /\
    exponent = x - Z.of_nat (length frac_ds).

(** [d] is [Decimal(v)]; when [v] is a finite number [d] stands for exactly
    that number, which for a float is the value of the binary64 number; and
    when [v] is text and [d] is finite, [d] has the sign, the coefficient
    and the exponent the text writes. *)
Definition exact_decimal_of (v : json) (d : Decimal) : Prop :=
  Decimal_of v = Ok d /\
  (forall x, number_value v = Some x ->
     exists y, dec_value d = Some y /\ (y == x)%Q) /\
  (forall text negative coefficient exponent,
     v = JStr text -> d = DecFinite negative coefficient exponent ->
     numeral_of_text text negative coefficient exponent).

(** [r] is the Trade record of the payload [msg]: every field of [r] read
    from the field of [msg] the normalizer names. *)
Definition trade_record_of (self : CoinstoreAPIOrderBookDataSource)
    (msg : dict) (r : OrderBookMessage) : Prop :=
  exists trade_id symbol trading_pair takerSide volume amount price_v price time ts,
    dict_item "tradeId" msg = Ok trade_id /\
    dict_item "symbol" msg = Ok symbol /\
    trading_pair_associated_to_exchange_symbol (_connector self) symbol
      = Ok trading_pair /\
    dict_item "takerSide" msg = Ok takerSide /\
    dict_item "volume" msg = Ok volume /\
    exact_decimal_of volume amount /\
    dict_item "price" msg = Ok price_v /\
    exact_decimal_of price_v price /\
    dict_item "time" msg = Ok time /\
    truediv_1000 time = Ok ts /\
    r = {| type := TRADE;
           content := TradeContent trade_id trading_pair
                        (py_float_of_int (TradeType_value (side_of takerSide)))
                        amount price;
           timestamp := ts |}.

(** The registry entry of an instrument: its venue symbol, then the channel
    id of the symbol. *)
Definition registry_entry (connector : CoinstoreExchange) (trading_pair : string)
    : option json :=
  match exchange_symbol_associated_to_pair connector trading_pair with
  | Ok symbol => _symbol_to_id_map connector !! symbol
  | Raise _ => None
  end.


(** [params or {}]. *)
Definition or_empty (params : option dict) : dict :=
  match params with
  | Some d => d
  | None => []
  end.

(** Every key of a symbol map, in either direction, is a venue symbol ending
    in [USDT]. *)
Definition usdt_symbols (m : bidict) : Prop :=
  (forall s p, fwdm m !! s = Some p -> endswith s "USDT" = true) /\
  (forall p s, invm m !! p = Some s -> endswith s "USDT" = true).

(** Every channel id in [ids] was in [ids0] already or belongs to a venue
    symbol ending in [USDT]. *)
Definition installs_usdt_only (ids0 ids : gmap string json) : Prop :=
  forall s id, ids !! s = Some id ->
    ids0 !! s = Some id \/ endswith s "USDT" = true.

Definition is_lower_hex (c : ascii) : bool :=
  let n := nat_of_ascii c in
  (((48 <=? n) && (n <=? 57)) || ((97 <=? n) && (n <=? 102)))%nat.

(** Frames and states used as concrete inputs. *)

Definition frame_trade_id_and_depth_tag : dict :=
  [("T", JStr "depth"); ("tradeId", JInt 1)].

Definition frame_ping : dict := [("M", JStr "ping")].

Definition depth_response : json :=
  JObj [("data", JObj [("b", JList [JList [JInt 100; JFloat 0.1]]);
                       ("a", JList [JList [JInt 101; JFloat 0.1]])])].

(** A factory whose assistant answers every request with [response]. *)
Definition factory_answering (response : json) : WebAssistantsFactory :=
  {| get_rest_assistant :=
       Returns {| execute_request := fun _ _ _ _ => Returns response |} |}.

Definition btc_symbol_map : bidict :=
  {| fwdm := {[ "BTCUSDT" := "BTC-USDT" ]}; invm := {[ "BTC-USDT" := "BTCUSDT" ]} |}.

Definition btc_connector : CoinstoreExchange :=
  {| _symbol_to_id_map := {[ "BTCUSDT" := JInt 4 ]};
     _trading_pair_symbol_map := Some btc_symbol_map |}.

Definition btc_source : CoinstoreAPIOrderBookDataSource :=
  {| _trading_pairs := ["BTC-USDT"]; _connector := btc_connector;
     _api_factory := Some (factory_answering depth_response) |}.

Definition trade_entry (trade_id : Z) (side price volume : string) (time : Z) : dict :=
  [("tradeId", JInt trade_id); ("symbol", JStr "BTCUSDT"); ("takerSide", JStr side);
   ("volume", JStr volume); ("price", JStr price); ("time", JInt time)].

Definition diff_frame (symbol : string) : dict :=
  [("symbol", JStr symbol); ("b", JList [JList [JInt 45000; JInt 1]]);
   ("a", JList [JList [JInt 45500; JInt 1]])].

(** ** Concrete frames, registries and signers *)

(** The entries of a batch and their records, pairwise. *)
Definition entries_records (self : CoinstoreAPIOrderBookDataSource)
    (entries : list json) (records : list OrderBookMessage) : Prop :=
  Forall2 (fun e r => exists msg, e = JObj msg /\ trade_record_of self msg r)
    entries records.

Definition trade_record (trade_id : Z) (side : TradeType) (price amount : Decimal)
    (ts : float) : OrderBookMessage :=
  {| type := TRADE;
     content := TradeContent (JInt trade_id) "BTC-USDT"
                  (py_float_of_int (TradeType_value side)) amount price;
     timestamp := ts |}.

Definition entry_1 : dict := trade_entry 1 "BUY" "45000" "1.2" 1609459200000.
Definition entry_2 : dict := trade_entry 2 "SELL" "45001.5" "0.3" 1609459201000.
Definition entry_3 : dict := trade_entry 3 "BUY" "45002" "0.7" 1609459202000.

Definition record_1 : OrderBookMessage :=
  trade_record 1 BUY (DecFinite false 45000 0) (DecFinite false 12 (-1)) 1609459200.
Definition record_2 : OrderBookMessage :=
  trade_record 2 SELL (DecFinite false 450015 (-1)) (DecFinite false 3 (-1)) 1609459201.
Definition record_3 : OrderBookMessage :=
  trade_record 3 BUY (DecFinite false 45002 0) (DecFinite false 7 (-1)) 1609459202.

(** A batch of two entries, and the same batch on a frame that is itself an
    incremental trade. *)
Definition frame_batch_of_two : dict :=
  [("T", JStr "trade"); ("data", JList [JObj entry_1; JObj entry_2])].

Definition frame_batch_and_incremental : dict :=
  entry_3 ++ frame_batch_of_two.

(** A frame that is an incremental trade only: the trade's fields on the
    frame itself, and no [data] field. *)
Definition frame_incremental_only : dict :=
  entry_3 ++ [("T", JStr "trade")].


Definition eth_btc_connector : CoinstoreExchange :=
  {| _symbol_to_id_map := {[ "BTCUSDT" := JInt 4; "ETHUSDT" := JStr "7" ]};
     _trading_pair_symbol_map :=
       Some {| fwdm := {[ "BTCUSDT" := "BTC-USDT"; "ETHUSDT" := "ETH-USDT" ]};
               invm := {[ "BTC-USDT" := "BTCUSDT"; "ETH-USDT" := "ETHUSDT" ]} |} |}.

Definition eth_btc_source : CoinstoreAPIOrderBookDataSource :=
  {| _trading_pairs := ["BTC-USDT"; "ETH-USDT"]; _connector := eth_btc_connector;
     _api_factory := None |}.

Definition signer_1 : CoinstoreAuth :=
  {| api_key := "key-one"; secret_key := "s3cr3t"; time_provider := 1609459200.1231 |}.

Definition signer_2 : CoinstoreAuth :=
  {| api_key := "key-two"; secret_key := "s3cr3t"; time_provider := 1609459200.1234 |}.

Definition order_params : dict :=
  [("symbol", JStr "BTCUSDT"); ("side", JStr "BUY now"); ("depth", JInt 50)].

Definition exchange_info_ok : dict :=
  [("code", JInt 0);
   ("data", JList [JObj [("symbol", JStr "BTCUSDT"); ("id", JInt 4)];
                   JObj [("symbol", JStr "ETHBTC"); ("id", JInt 5)];
                   JObj [("symbol", JStr "ethUSDT"); ("id", JInt 7)]])].

Definition exchange_info_error : dict :=
  [("code", JInt 401); ("message", JStr "Unauthorized");
   ("data", JList [JObj [("symbol", JStr "BTCUSDT"); ("id", JInt 4)]])].

Definition empty_connector : CoinstoreExchange :=
  {| _symbol_to_id_map := ∅; _trading_pair_symbol_map := None |}.

(** ** More of the connector: requests, headers, exchange information *)

(** HTTP headers, a [dict] from text to text: its items in insertion order. *)
Definition Headers : Type := list (string * string).

Fixpoint headers_get (key : string) (h : Headers) : option string :=
  match h with
  | [] => None
  | (k, v) :: rest => if String.eqb k key then Some v else headers_get key rest
  end.

(** [h[key] = val]: a present key keeps its place, a new key goes last. *)
Fixpoint headers_set (key val : string) (h : Headers) : Headers :=
  match h with
  | [] => [(key, val)]
  | (k, w) :: rest =>
      if String.eqb k key then (k, val) :: rest else (k, w) :: headers_set key val rest
  end.

(** [h.update(new)], which is also [dict(list(h.items()) + list(new.items()))]:
    the items of [new] are set one after the other. *)
Definition headers_update (h new : Headers) : Headers :=
  fold_left (fun acc kv => headers_set (fst kv) (snd kv) acc) new h.

(** Modelled from the spec: the outbound request the signer and the
    pre-processor are given, by the fields they read and write. [data] is
    any Python value: the JSON text of a body is a [JStr]. *)
Record RESTRequest : Type := {
  method : RESTMethod;
  params : option dict;
  data : json;
  headers : option Headers
}.

(** [CoinstoreRESTPreProcessor.pre_process]. *)
Definition pre_process (request : RESTRequest) : RESTRequest :=
  let request_headers := match headers request with Some h => h | None => [] end in
  let headers_generic :=
    headers_set "Content-Type" "application/json"
      (headers_set "Accept" "application/json" []) in
  {| method := method request;
     params := params request;
     data := data request;
     headers := Some (headers_update request_headers headers_generic) |}.

(** [public_rest_url(path_url)]; the domain is not used. *)
Definition public_rest_url (path_url : string) : string :=
  CONSTANTS.REST_URL +:+ path_url.

Definition private_rest_url (path_url : string) : string :=
  public_rest_url path_url.

(** The truth value of a decoded value. *)
Definition py_truthy (v : json) : bool :=
  match v with
  | JNull => false
  | JBool b => b
  | JInt n => negb (Z.eqb n 0)
  | JFloat f => negb (PrimFloat.eqb f 0%float)
  | JStr s => negb (String.eqb s "")
  | JList l => match l with [] => false | _ => true end
  | JObj items => match items with [] => false | _ => true end
  end.

(** ** str.format with positional arguments *)

(** Where the scan of a template stands: in text, after an opening brace,
    inside a replacement field, or after a closing brace. *)
Inductive scan_state : Type :=
  | InText
  | AfterOpen
  | InField (name : string)
  | AfterClose.

(** How the fields seen so far were numbered. *)
Inductive numbering : Type := Unset | Automatic (next : nat) | Manual.

(** What one scan gives: the text, an exception, or [Beyond] for a field
    that is more than an argument name (attribute, index, conversion, format
    specification, nested field), which is not modelled. *)
Inductive format_scan_result : Type :=
  | Formatted (text : string)
  | FormatRaises (o : outcome string)
  | Beyond.

Definition beyond_plain (c : ascii) : bool :=
  Ascii.eqb c "." || Ascii.eqb c "[" || Ascii.eqb c "!" || Ascii.eqb c ":"
  || Ascii.eqb c "{".

(** The argument a completed field stands for, and the numbering after it.
    A field without a name takes the next argument, a field of digits the
    argument of that index, and any other name is looked up among the
    keyword arguments, of which the call has none. *)
Definition field_value (args : list string) (name : string) (mode : numbering)
    : outcome (string * numbering) :=
  if String.eqb name "" then
    match mode with
    | Manual => Raises ValueError
    | Unset | Automatic _ =>
        let i := match mode with Automatic n => n | _ => O end in
        match nth_error args i with
        | Some a => Returns (a, Automatic (S i))
        | None => RaisesIndexError
        end
    end
  else if forallb is_digit (list_ascii_of_string name) then
    let index := N_of_digits (list_ascii_of_string name) in
    if (2 ^ 63 <=? index)%N then Raises ValueError
    else
      match mode with
      | Automatic _ => Raises ValueError
      | Unset | Manual =>
          match nth_error args (N.to_nat index) with
          | Some a => Returns (a, Manual)
          | None => RaisesIndexError
          end
      end
  else Raises KeyError.

(** One scan of the template from the left, as [format] does it: text is
    copied, doubled braces stand for one, a field is replaced by its
    argument; an error is raised where the scan meets it. *)
Fixpoint format_scan (args : list string) (s : string) (st : scan_state)
    (mode : numbering) (out : string) : format_scan_result :=
  let complete (name rest : string) :=
    match field_value args name mode with
    | Returns (a, mode') => format_scan args rest InText mode' (out +:+ a)
    | Raises e => FormatRaises (Raises e)
    | RaisesIndexError => FormatRaises RaisesIndexError
    end in
  match s with
  | EmptyString =>
      match st with
      | InText => Formatted out
      | _ => FormatRaises (Raises ValueError)
      end
  | String c s' =>
      match st with
      | InText =>
          if Ascii.eqb c "{" then format_scan args s' AfterOpen mode out
          else if Ascii.eqb c "}" then format_scan args s' AfterClose mode out
          else format_scan args s' InText mode (out +:+ String c "")
      | AfterOpen =>
          if Ascii.eqb c "{" then format_scan args s' InText mode (out +:+ "{")
          else if Ascii.eqb c "}" then complete "" s'
          else if beyond_plain c then Beyond
          else format_scan args s' (InField (String c "")) mode out
      | InField name =>
          if Ascii.eqb c "}" then complete name s'
          else if beyond_plain c then Beyond
          else format_scan args s' (InField (name +:+ String c "")) mode out
      | AfterClose =>
          if Ascii.eqb c "}" then format_scan args s' InText mode (out +:+ "}")
          else FormatRaises (Raises ValueError)
      end
  end.

Section Transport.

(** [template.format] on positional arguments, for a template with a field
    beyond the plain ones. *)
Variable format_beyond : string -> list string -> outcome string.

(** [template.format] on positional arguments that are text, for a template
    in ASCII. *)
Definition str_format (template : string) (args : list string) : outcome string :=
  match format_scan args template InText Unset "" with
  | Formatted text => Returns text
  | FormatRaises o => o
  | Beyond => format_beyond template args
  end.

(** [_request_order_book_snapshot]: the venue symbol is resolved, the REST
    assistant is asked of the factory, the arguments of [execute_request]
    are evaluated, the URL first, by formatting the depth path with the
    symbol as its one positional argument, and only then is the request
    executed. [None] has no [get_rest_assistant]. *)
Definition _request_order_book_snapshot (self : CoinstoreAPIOrderBookDataSource)
    (trading_pair : string) : outcome json :=
  match exchange_symbol_associated_to_pair (_connector self) trading_pair with
  | Raise e => Raises e
  | Ok symbol =>
      let params := symbol in
      match _api_factory self with
      | None => Raises AttributeError
      | Some api_factory =>
          match get_rest_assistant api_factory with
          | Returns rest_assistant =>
              match str_format (public_rest_url CONSTANTS.ORDERBOOK_DEPTH_PATH)
                      [symbol] with
              | Returns url =>
                  execute_request rest_assistant url params GET
                    CONSTANTS.ORDERBOOK_DEPTH_PATH
              | Raises e => Raises e
              | RaisesIndexError => RaisesIndexError
              end
          | Raises e => Raises e
          | RaisesIndexError => RaisesIndexError
          end
      end
  end.

(** [_order_book_snapshot]: the request, then the message built from its
    response; [now] is what [self._time()] returns once the response is
    there. *)
Definition _order_book_snapshot (self : CoinstoreAPIOrderBookDataSource)
    (now : float) (trading_pair : string) : outcome OrderBookMessage :=
  match _request_order_book_snapshot self trading_pair with
  | Returns snapshot_response =>
      outcome_of_result (snapshot_message now trading_pair snapshot_response)
  | Raises e => Raises e
  | RaisesIndexError => RaisesIndexError
  end.

End Transport.

(** ** CoinstoreAuth.rest_authenticate *)

Section RequestSigning.

Variable repr_other : json -> string.

(** [json.loads] on text: the decoded value, or [ValueError] for text that
    is not JSON. *)
Variable json_loads : string -> result json.

(** [OrderedDict(l)] for a list [l] that is not empty, whose keys need not
    be text. *)
Variable ordered_dict_of_pairs : list json -> result dict.

(** [OrderedDict(params or {})] for any decoded value: a false value gives
    the empty dict, a dict its items; text that is not empty has characters
    of length one where pairs are wanted, and a number is not iterable. *)
Definition ordered_dict_or_empty (v : json) : result dict :=
  if negb (py_truthy v) then Ok []
  else
    match v with
    | JObj items => Ok items
    | JList l => ordered_dict_of_pairs l
    | JStr _ => Raise ValueError
    | _ => Raise TypeError
    end.

(** [add_auth_to_params] on a decoded body: the timestamp is taken first. *)
Definition add_auth_to_body (self : CoinstoreAuth) (body : json) : result dict :=
  let* timestamp := auth_timestamp self in
  let* request_params := ordered_dict_or_empty body in
  add_auth_to_params repr_other self (Some request_params).

Definition with_headers (request : RESTRequest) (h : Headers) : RESTRequest :=
  {| method := method request;
     params := params request;
     data := data request;
     headers := Some h |}.

(** [rest_authenticate]: the body of a POST, the parameters of any other
    request are signed; then the headers are copied and the API key header
    set. The request is written only by statements that cannot fail after
    it, so an exception leaves it as it was. *)
Definition rest_authenticate (self : CoinstoreAuth) (request : RESTRequest)
    : result RESTRequest :=
  let* request :=
    match method request with
    | POST =>
        match data request with
        | JStr text =>
            let* decoded := json_loads text in
            let* signed := add_auth_to_body self decoded in
            Ok {| method := method request;
                  params := params request;
                  data := JObj signed;
                  headers := headers request |}
        | _ => Raise TypeError
        end
    | _ =>
        let* signed := add_auth_to_params repr_other self (params request) in
        Ok {| method := method request;
              params := Some signed;
              data := data request;
              headers := headers request |}
    end in
  let h := [] in
  let h := match headers request with
           | Some request_headers => headers_update h request_headers
           | None => h
           end in
  let h := headers_update h (header_for_authentication self) in
  Ok (with_headers request h).

End RequestSigning.

(** ** coinstore_utils.is_exchange_information_valid *)

(** [needle in s] on text. *)
Fixpoint is_substring (needle s : string) : bool :=
  String.prefix needle s ||
  match s with
  | EmptyString => false
  | String _ s' => is_substring needle s'
  end.

(** ["SPOT" in permission_set]: an element of a list, a part of a text, a
    key of a dict; nothing else can be searched. *)
Definition contains_spot (permission_set : json) : result bool :=
  match permission_set with
  | JList l => Ok (existsb (fun x => py_eq_str x "SPOT") l)
  | JStr s => Ok (is_substring "SPOT" s)
  | JObj items => Ok (dict_has "SPOT" items)
  | _ => Raise TypeError
  end.

(** The loop over the permission sets, which stops at the first one that
    holds ["SPOT"]. *)
Fixpoint any_spot (permissions_sets : list json) : result bool :=
  match permissions_sets with
  | [] => Ok false
  | permission_set :: rest =>
      let* found := contains_spot permission_set in
      if found then Ok true else any_spot rest
  end.

Definition is_exchange_information_valid (exchange_info : dict) : result bool :=
  let is_trading := py_eq_str (dict_get "status" exchange_info) "TRADING" in
  let permissions_sets :=
    match dict_item "permissionSets" exchange_info with
    | Ok v => v
    | Raise _ => JList []
    end in
  let* sets := py_iter permissions_sets in
  let* is_spot := any_spot sets in
  Ok (is_trading && is_spot).

(** ** What the further statements speak of *)

(** The entry [entry] of a batch cannot be normalised: it is no mapping, or
    a field of it is missing or malformed, and [e] is what is raised. *)
Definition entry_raises (self : CoinstoreAPIOrderBookDataSource) (entry : json)
    (e : exn) : Prop :=
  match entry with
  | JObj fields => trade_message self fields = Raise e
  | _ => e = TypeError
  end.

Definition entry_without_price : dict :=
  [("tradeId", JInt 9); ("symbol", JStr "BTCUSDT"); ("takerSide", JStr "BUY");
   ("volume", JStr "1")].

Definition frame_batch_with_bad_entry : dict :=
  [("T", JStr "trade"); ("tradeId", JInt 3);
   ("data", JList [JObj entry_1; JObj entry_without_price; JObj entry_2])].

Definition doge_source : CoinstoreAPIOrderBookDataSource :=
  {| _trading_pairs := ["BTC-USDT"; "DOGE-USDT"; "ETH-USDT"];
     _connector := eth_btc_connector;
     _api_factory := None |}.

(** The parameters of the caller among signed parameters: all but the two
    the signer writes. *)
Definition caller_params (d : dict) : dict :=
  List.filter
    (fun kv => negb (String.eqb (fst kv) "timestamp" || String.eqb (fst kv) "signature"))
    d.

Definition API_KEY_HEADER : string := "X-COINSTORE-APIKEY".

Definition request_headers (request : RESTRequest) : Headers :=
  match headers request with
  | Some h => h
  | None => []
  end.

Definition get_request : RESTRequest :=
  {| method := GET;
     params := Some order_params;
     data := JNull;
     headers := Some [("Accept", "text/plain"); ("X-COINSTORE-APIKEY", "stale")] |}.

Definition post_request : RESTRequest :=
  {| method := POST;
     params := None;
     data := JStr "{}";
     headers := None |}.

(** Whether a permission set is a list that names ["SPOT"]. *)
Definition lists_spot (permission_set : json) : bool :=
  match permission_set with
  | JList l => existsb (fun x => py_eq_str x "SPOT") l
  | _ => false
  end.

Definition symbol_info_trading : dict :=
  [("symbol", JStr "BTCUSDT"); ("status", JStr "TRADING");
   ("permissionSets", JList [JList [JStr "MARGIN"]; JList [JStr "SPOT"; JStr "MARGIN"]])].

(** A symbol map is one-to-one: its two directions are inverse to each
    other. *)
Definition bidict_consistent (b : bidict) : Prop :=
  forall k v, fwdm b !! k = Some v <-> invm b !! v = Some k.

(** The trading pair the registry gives a venue symbol. *)
Definition pair_of_symbol (upper : string -> string) (symbol : string)
    : option string :=
  match split symbol "USDT" with
  | [base_asset; _] => Some (combine_to_hb_trading_pair (upper base_asset) "USDT")
  | _ => None
  end.

(** An entry of the exchange information for another quote currency: a
    dict whose symbol is text that does not end in [USDT]. *)
Definition other_quote (symbol_data : json) : bool :=
  match subscript symbol_data "symbol" with
  | Ok (JStr s) => negb (endswith s "USDT")
  | _ => false
  end.

Definition usdt_entries (data_list : list json) : list json :=
  List.filter (fun symbol_data => negb (other_quote symbol_data)) data_list.

(** What population keeps true of the symbol map it builds: it is
    one-to-one, and a venue symbol is bound to its trading pair. *)
Definition registry_inv (upper : string -> string) (m : bidict) : Prop :=
  bidict_consistent m /\
  forall s p, fwdm m !! s = Some p ->
    pair_of_symbol upper s = Some p /\ endswith s "USDT" = true.

(** ** Trading rules *)

Section TradingRules.

(** [s.upper()], the upper-casing of Unicode text. *)
Variable upper : string -> string.

(** The rule type of the core and its constructor, called with the keywords
    [trading_pair], [min_price_increment], [min_base_amount_increment],
    [price_decimals] and [amount_decimals]; what the constructor does with
    them is left open. *)
Variable TradingRule : Type.
Variable TradingRule_new :
  string -> Decimal -> Decimal -> Z -> string -> result TradingRule.

(** One turn of the loop of [_format_trading_rules]: the symbol is split
    and unpacked into two names before anything else is read. *)
Definition format_trading_rule (symbol_data : json) : result TradingRule :=
  let* symbol_v := subscript symbol_data "symbol" in
  match symbol_v with
  | JStr symbol =>
      match split symbol "USDT" with
      | [base_asset; _quote_asset] =>
          let trading_pair := combine_to_hb_trading_pair (upper base_asset) "USDT" in
          let* tick_size := subscript symbol_data "tickSize" in
          let* min_price_increment := Decimal_of tick_size in
          let* lot_size := subscript symbol_data "lotSize" in
          let* min_base_amount_increment := Decimal_of lot_size in
          TradingRule_new trading_pair min_price_increment
            min_base_amount_increment 4 (upper base_asset)
      | _ => Raise ValueError
      end
  | _ => Raise AttributeError
  end.

Fixpoint format_trading_rules_loop (data_list : list json)
    (trading_rules : list TradingRule) : result (list TradingRule) :=
  match data_list with
  | [] => Ok trading_rules
  | symbol_data :: rest =>
      let* trading_rule := format_trading_rule symbol_data in
      format_trading_rules_loop rest (trading_rules ++ [trading_rule])
  end.

Definition _format_trading_rules (exchange_info_dict : dict)
    : result (list TradingRule) :=
  let* data := dict_item "data" exchange_info_dict in
  let* data_list := py_iter data in
  format_trading_rules_loop data_list [].

End TradingRules.

(** Exchange information with two venue symbols that differ in letter case
    only. *)
Definition exchange_info_colliding : dict :=
  [("code", JInt 0);
   ("data", JList [JObj [("symbol", JStr "ETHUSDT"); ("id", JInt 7)];
                   JObj [("symbol", JStr "ethUSDT"); ("id", JInt 8)]])].

(** ** Reading a quoted text back *)

(** The value of an uppercase hexadecimal digit. *)
Definition hex_value (c : ascii) : option N :=
  let n := N_of_ascii c in
  if ((48 <=? n) && (n <=? 57))%N then Some (n - 48)%N
  else if ((65 <=? n) && (n <=? 70))%N then Some (n - 55)%N
  else None.

(** Reading back the first byte of a quoted text. *)
Definition unquote_head (l : list ascii) : option (ascii * list ascii) :=
  match l with
  | [] => None
  | c :: r =>
      if Ascii.eqb c "+" then Some (" "%char, r)
      else if Ascii.eqb c "%" then
        match r with
        | x :: y :: r' =>
            match hex_value x, hex_value y with
            | Some a, Some b => Some (ascii_of_N (16 * a + b), r')
            | _, _ => None
            end
        | _ => None
        end
      else Some (c, r)
  end.

Definition is_separator (c : ascii) : bool :=
  Ascii.eqb c "&" || Ascii.eqb c "=".

(** The items of a parameter dict as [urlencode] reads them: the keys, and
    the text of the values. *)
Definition text_items (repr_other : json -> string) (params : dict)
    : list (string * string) :=
  map (fun kv => (fst kv, py_str repr_other (snd kv))) params.





(** * Properties *)

(** ** The message router *)

Lemma class_of_trade_key : class_of_channel _trade_messages_queue_key = Trade.
Proof. reflexivity. Qed.

Lemma class_of_diff_key : class_of_channel _diff_messages_queue_key = Diff.
Proof. reflexivity. Qed.

(** C1, as stated, fails: the frame [{"T": "depth", "tradeId": 1}] carries a
    trade id and the diff-type tag; the priority order of the claim makes it
    a Trade, the router makes it a Diff. *)
Lemma channel_priority_counterexample :
  carries_trade_id frame_trade_id_and_depth_tag = true /\
  carries_diff_tag frame_trade_id_and_depth_tag = true /\
  classify_by_priority frame_trade_id_and_depth_tag = Trade /\
  _channel_originating_message frame_trade_id_and_depth_tag
    = CONSTANTS.DIFF_EVENT_TYPE /\
  class_of_channel (_channel_originating_message frame_trade_id_and_depth_tag)
    <> classify_by_priority frame_trade_id_and_depth_tag.
Proof. repeat split; try reflexivity. vm_compute. discriminate. Qed.

(** The channel key the router returns, by the tags of the frame. *)
Lemma channel_of_frame (frame : dict) :
  _channel_originating_message frame =
    if carries_diff_tag frame then _diff_messages_queue_key
    else if carries_trade_tag frame || carries_trade_id frame
         then _trade_messages_queue_key
         else "".
Proof.
  unfold _channel_originating_message, carries_diff_tag, carries_trade_tag,
    carries_trade_id.
  destruct (py_eq_str (dict_get "T" frame) CONSTANTS.DIFF_EVENT_TYPE);
    reflexivity.
Qed.

(** C1 (amended): the diff tag has the last word. A frame with the
    diff-type tag is a Diff; otherwise a frame with the trade-type tag or a
    trade id that is not null is a Trade; otherwise the frame is Unknown. *)
Theorem channel_originating_message_diff_first (frame : dict) :
  class_of_channel (_channel_originating_message frame) =
    if carries_diff_tag frame then Diff
    else if carries_trade_tag frame || carries_trade_id frame then Trade
    else Unknown.
Proof.
  rewrite channel_of_frame.
  destruct (carries_diff_tag frame); [reflexivity|].
  destruct (carries_trade_tag frame || carries_trade_id frame); reflexivity.
Qed.

(** The two rules agree on every frame but those with both a trade id and
    the diff tag. *)
Lemma priority_rule_agrees (frame : dict) :
  carries_diff_tag frame && carries_trade_id frame = false ->
  class_of_channel (_channel_originating_message frame)
    = classify_by_priority frame.
Proof.
  rewrite channel_of_frame.
  unfold classify_by_priority, carries_diff_tag, carries_trade_tag, carries_trade_id.
  destruct (dict_get "T" frame) as [| | | |t| |]; simpl;
    try (destruct (is_not_None _); reflexivity).
  unfold CONSTANTS.DIFF_EVENT_TYPE, CONSTANTS.TRADE_EVENT_TYPE.
  destruct (String.eqb_spec t "depth") as [->|Hd]; simpl.
  - intros ->. reflexivity.
  - intros _. destruct (String.eqb t "trade" || is_not_None _); reflexivity.
Qed.

(** ** The keepalive responder *)

(** C3: on a frame the router classifies neither as Trade nor as Diff, the
    handler sends exactly one frame: the frames sent are those sent before
    and one more, whose payload is [op = "pong"] with [epochMillis] the
    float [now * 1e3], the local time in milliseconds. *)
Theorem unknown_channel_sends_one_pong
    (now : float) (frame : dict) (ws : WSAssistant) :
  class_of_channel (_channel_originating_message frame) = Unknown ->
  _process_message_for_unknown_channel now frame ws
    = (Ok tt, ws ++ [JObj [("op", JStr "pong");
                           ("epochMillis", JFloat (now * 1000)%float)]]).
Proof. intros _. reflexivity. Qed.

Lemma unknown_channel_sends_one_pong_witness :
  class_of_channel (_channel_originating_message frame_ping) = Unknown /\
  _process_message_for_unknown_channel 1609459200.5%float frame_ping []
    = (Ok tt, [JObj [("op", JStr "pong");
                     ("epochMillis", JFloat 1609459200500%float)]]).
Proof.
  split; [reflexivity|].
  exact (unknown_channel_sends_one_pong 1609459200.5%float frame_ping []
           eq_refl).
Defined.

(** ** The snapshot normalizer *)

(** What the statements after the request make of a response that has
    [data] with [b] and [a]. *)
Lemma snapshot_message_of_depth
    (now : float) (trading_pair : string) (response data bids asks : json) :
  subscript response "data" = Ok data ->
  subscript data "b" = Ok bids ->
  subscript data "a" = Ok asks ->
  snapshot_message now trading_pair response
    = Ok {| type := SNAPSHOT;
            content := BookContent trading_pair now bids asks;
            timestamp := now |}.
Proof.
  intros Hd Hb Ha. unfold snapshot_message.
  rewrite Hd. simpl. rewrite Hb. simpl. rewrite Ha. reflexivity.
Qed.

(** The depth path names its field, so formatting it with the symbol as a
    positional argument raises [KeyError], whatever the symbol. *)
Lemma depth_url_raises
    (format_beyond : string -> list string -> outcome string) (symbol : string) :
  str_format format_beyond (public_rest_url CONSTANTS.ORDERBOOK_DEPTH_PATH) [symbol]
  = Raises KeyError.
Proof. reflexivity. Qed.

(** The request returns nothing: every path through it ends in an
    exception before [execute_request] is reached. *)
Lemma request_order_book_snapshot_no_return
    (format_beyond : string -> list string -> outcome string)
    (self : CoinstoreAPIOrderBookDataSource) (trading_pair : string)
    (response : json) :
  _request_order_book_snapshot format_beyond self trading_pair <> Returns response.
Proof.
  unfold _request_order_book_snapshot.
  destruct (exchange_symbol_associated_to_pair _ trading_pair) as [symbol|e];
    [|discriminate].
  destruct (_api_factory self) as [api_factory|]; [|discriminate].
  destruct (get_rest_assistant api_factory) as [rest_assistant|e|];
    discriminate.
Qed.

(** C6: the claim's Snapshot is never produced. [_order_book_snapshot]
    first awaits [_request_order_book_snapshot], which formats the depth
    path, a template with the named field [{symbol}], with the symbol as a
    positional argument: for the registered instrument [BTC-USDT] and a
    transport that would answer [{"data": {"b": [[100, 0.1]], "a": [[101,
    0.1]]}}] the call raises [KeyError] before any request is sent, and for
    no data source, receipt time and instrument does it return a message.
    The statements after the request, were they given that response, would
    build the message of the claim. *)
Theorem order_book_snapshot_never_returns
    (format_beyond : string -> list string -> outcome string) (now : float) :
  _order_book_snapshot format_beyond btc_source now "BTC-USDT" = Raises KeyError /\
  (forall self trading_pair m,
     _order_book_snapshot format_beyond self now trading_pair <> Returns m) /\
  snapshot_message now "BTC-USDT" depth_response
    = Ok {| type := SNAPSHOT;
            content := BookContent "BTC-USDT" now
                         (JList [JList [JInt 100; JFloat 0.1]])
                         (JList [JList [JInt 101; JFloat 0.1]]);
            timestamp := now |}.
Proof.
  split; [reflexivity|]. split.
  - intros self trading_pair m. unfold _order_book_snapshot.
    pose proof (request_order_book_snapshot_no_return format_beyond self trading_pair)
      as Hno.
    destruct (_request_order_book_snapshot format_beyond self trading_pair)
      as [response|e|]; try discriminate.
    exfalso. exact (Hno response eq_refl).
  - eapply snapshot_message_of_depth; reflexivity.
Qed.

(** ** The diff normalizer *)

(** X3: the diff normalizer is all or nothing on every frame: it puts one
    DIFF message, or it raises and leaves the queue as it was. *)
Lemma parse_diff_all_or_nothing
    (self : CoinstoreAPIOrderBookDataSource) (now : float) (frame : dict) (q : Queue) :
  (exists m, _parse_order_book_diff_message self now frame q = (Ok tt, q ++ [m])
             /\ type m = DIFF) \/
  (exists e, _parse_order_book_diff_message self now frame q = (Raise e, q)).
Proof.
  unfold _parse_order_book_diff_message.
  destruct (dict_item "symbol" frame) as [symbol|e]; simpl; [|right; eauto].
  destruct (trading_pair_associated_to_exchange_symbol _ symbol) as [tp|e];
    simpl; [|right; eauto].
  destruct (dict_item "b" frame) as [bids|e]; simpl; [|right; eauto].
  destruct (dict_item "a" frame) as [asks|e]; simpl; [|right; eauto].
  left. eexists. split; reflexivity.
Qed.

(** C7: for a diff frame carrying the venue symbol [symbol]: when the
    registry resolves [symbol], exactly one Diff record is put on the queue,
    with the frame's [b] as bids and [a] as asks; when it does not, the
    normalizer raises and the queue is as it was. *)
Theorem parse_diff_resolvable_or_dropped
    (self : CoinstoreAPIOrderBookDataSource) (now : float) (frame : dict)
    (q : Queue) (symbol : json) :
  dict_item "symbol" frame = Ok symbol ->
  match trading_pair_associated_to_exchange_symbol (_connector self) symbol with
  | Ok trading_pair =>
      forall bids asks,
        dict_item "b" frame = Ok bids ->
        dict_item "a" frame = Ok asks ->
        _parse_order_book_diff_message self now frame q
          = (Ok tt, q ++ [{| type := DIFF;
                             content := BookContent trading_pair now bids asks;
                             timestamp := now |}])
  | Raise e => _parse_order_book_diff_message self now frame q = (Raise e, q)
  end.
Proof.
  intros Hs. unfold _parse_order_book_diff_message.
  rewrite Hs. simpl.
  destruct (trading_pair_associated_to_exchange_symbol _ symbol); simpl;
    [|reflexivity].
  intros bids asks Hb Ha. rewrite Hb. simpl. rewrite Ha. reflexivity.
Qed.

Lemma parse_diff_resolvable_or_dropped_witness :
  _parse_order_book_diff_message btc_source 1700000000.25 (diff_frame "BTCUSDT") []
    = (Ok tt, [{| type := DIFF;
                  content := BookContent "BTC-USDT" 1700000000.25
                               (JList [JList [JInt 45000; JInt 1]])
                               (JList [JList [JInt 45500; JInt 1]]);
                  timestamp := 1700000000.25 |}]) /\
  _parse_order_book_diff_message btc_source 1700000000.25 (diff_frame "X") []
    = (Raise KeyError, []).
Proof.
  split.
  - exact (parse_diff_resolvable_or_dropped btc_source 1700000000.25
             (diff_frame "BTCUSDT") [] _ eq_refl _ _ eq_refl eq_refl).
  - exact (parse_diff_resolvable_or_dropped btc_source 1700000000.25
             (diff_frame "X") [] _ eq_refl).
Defined.

(** ** Decimal(value) is exact on numbers *)

Lemma Decimal_of_int_exact (n : Z) :
  exists y, dec_value (Decimal_of_int n) = Some y /\ (y == inject_Z n)%Q.
Proof.
  eexists. split; [reflexivity|].
  rewrite N2Z.inj_abs_N.
  destruct (Z.ltb_spec n 0) as [Hn|Hn].
  - rewrite Z.abs_neq by lia. unfold Qeq. simpl. lia.
  - rewrite Z.abs_eq by lia. unfold Qeq. simpl. lia.
Qed.

Lemma strip_twos_spec (k : nat) : forall (m n : positive) (k' : nat),
  strip_twos m k = (n, k') ->
  (k' <= k)%nat /\ Z.pos m = Z.pos n * 2 ^ Z.of_nat (k - k').
Proof.
  induction k as [|k IH]; intros m n k' H.
  - assert (E : (m, 0%nat) = (n, k')) by (destruct m; exact H).
    injection E as <- <-. split; [lia|]. simpl. lia.
  - destruct m as [m|m|]; simpl in H.
    + injection H as <- <-. split; [lia|]. rewrite Nat.sub_diag. simpl. lia.
    + apply IH in H as [Hle Hm]. split; [lia|].
      replace (S k - k')%nat with (S (k - k')) by lia.
      rewrite Nat2Z.inj_succ, Z.pow_succ_r by lia.
      rewrite Pos2Z.inj_xO, Hm. ring.
    + injection H as <- <-. split; [lia|]. rewrite Nat.sub_diag. simpl. lia.
Qed.

Lemma Qpower_inject (a n : Z) : 0 <= n -> (inject_Z a ^ n == inject_Z (a ^ n))%Q.
Proof. intros. symmetry. apply Zpower_Qpower. assumption. Qed.

(** Cross-multiplication: [a / 10^j = b / 2^i] from [a * 2^i = b * 10^j]. *)
Lemma scaled_eq (a b i j : Z) :
  0 <= i -> 0 <= j -> a * 2 ^ i = b * 10 ^ j ->
  (inject_Z a * Qpower 10 (- j) == inject_Z b * Qpower 2 (- i))%Q.
Proof.
  intros Hi Hj H.
  rewrite !Qpower_opp.
  change 10%Q with (inject_Z 10). change 2%Q with (inject_Z 2).
  rewrite !Qpower_inject by assumption.
  assert (H2 : 0 < 2 ^ i) by (apply Z.pow_pos_nonneg; lia).
  assert (H10 : 0 < 10 ^ j) by (apply Z.pow_pos_nonneg; lia).
  assert (N2 : ~ (inject_Z (2 ^ i) == 0)%Q).
  { unfold Qeq. simpl. lia. }
  assert (N10 : ~ (inject_Z (10 ^ j) == 0)%Q).
  { unfold Qeq. simpl. lia. }
  apply (Qmult_inj_r _ _ (inject_Z (2 ^ i) * inject_Z (10 ^ j))%Q).
  { intro E. apply Qmult_integral in E. tauto. }
  transitivity (inject_Z (a * 2 ^ i)); [|rewrite H].
  - rewrite inject_Z_mult. field. assumption.
  - rewrite inject_Z_mult. field. assumption.
Qed.

Lemma Decimal_of_float_exact (f : float) (x : Q) :
  float_value f = Some x ->
  exists y, dec_value (Decimal_of_float f) = Some y /\ (y == x)%Q.
Proof.
  unfold float_value, Decimal_of_float.
  destruct (Prim2SF f) as [s|s| |s m e]; simpl; try discriminate.
  - intros [= <-]. eexists. split; [reflexivity|]. simpl. ring.
  - intros [= <-]. destruct e as [|p|p].
    + eexists. split; [reflexivity|]. simpl.
      rewrite Pos.mul_1_r. reflexivity.
    + eexists. split; [reflexivity|].
      rewrite N2Z.inj_mul, N2Z.inj_pow, Z2N.id by lia. simpl Z.of_N.
      rewrite inject_Z_mult. change (Qpower 10 0) with 1%Q.
      change 2%Q with (inject_Z 2). rewrite Qpower_inject by lia. ring.
    + destruct (strip_twos m (Pos.to_nat p)) as [n k] eqn:E.
      apply strip_twos_spec in E as [Hle Hm].
      eexists. split; [reflexivity|].
      rewrite <- !Qmult_assoc. apply Qmult_comp; [reflexivity|].
      replace (Z.neg p) with (- Z.of_nat (Pos.to_nat p)) by lia.
      apply scaled_eq; try lia.
      rewrite N2Z.inj_mul, N2Z.inj_pow, nat_N_Z. simpl Z.of_N.
      rewrite Hm.
      replace (Z.of_nat (Pos.to_nat p)) with (Z.of_nat (Pos.to_nat p - k) + Z.of_nat k) at 1 by lia.
      rewrite Z.pow_add_r by lia.
      replace 10 with (5 * 2) by lia. rewrite Z.pow_mul_l. ring.
Qed.

(** ** The text of a decimal *)

Lemma lstrip_spec (s : list N) :
  exists before, s = before ++ lstrip s /\ forallb unicode_isspace before = true.
Proof.
  induction s as [|c s (before & Hs & Hb)]; simpl.
  - exists []. auto.
  - destruct (unicode_isspace c) eqn:E.
    + exists (c :: before). simpl. rewrite E, Hb. split; [congruence|reflexivity].
    + exists []. auto.
Qed.

Lemma strip_spec (s : list N) :
  exists before after,
    s = before ++ strip s ++ after /\
    forallb unicode_isspace before = true /\ forallb unicode_isspace after = true.
Proof.
  unfold strip.
  destruct (lstrip_spec s) as (before & Hs & Hb).
  destruct (lstrip_spec (rev (lstrip s))) as (after & Hr & Ha).
  exists before, (rev after). split; [|split; [exact Hb|]].
  - rewrite Hs at 1. f_equal.
    rewrite <- (rev_involutive (lstrip s)), Hr at 1.
    rewrite rev_app_distr. reflexivity.
  - rewrite forallb_forall in *. intros x Hx. apply Ha, in_rev. exact Hx.
Qed.

Lemma ascii_of_chars_spec (chars : list N) :
  forall text, ascii_of_chars chars = Some text ->
    Forall2 (fun cp a => ascii_of_char cp = Some a) chars text.
Proof.
  induction chars as [|cp rest IH]; simpl; intros text H.
  - injection H as <-. constructor.
  - destruct (ascii_of_char cp) as [a|] eqn:Ea; [|discriminate].
    destruct (ascii_of_chars rest) as [t|]; [|discriminate].
    injection H as <-. constructor; auto.
Qed.

Lemma unicode_decimal_below_ten (cp d : N) :
  unicode_decimal cp = Some d -> (d < 10)%N.
Proof.
  unfold unicode_decimal.
  destruct (find _ decimal_zeros) as [zero|] eqn:E; [|discriminate].
  apply find_some in E as [_ E]. apply andb_prop in E as [E1 E2].
  apply N.leb_le in E1. apply N.ltb_lt in E2. intros [= <-]. lia.
Qed.

Lemma ascii_digit_decimal (a : ascii) :
  is_digit a = true -> unicode_decimal (N_of_ascii a) = Some (digit_value a).
Proof.
  destruct a as [[] [] [] [] [] [] [] []]; vm_compute; congruence.
Qed.

(** What is read as an ASCII character is that character, a space, or a
    digit. *)
Lemma ascii_of_char_cases (cp : N) (a : ascii) :
  ascii_of_char cp = Some a ->
  cp = N_of_ascii a \/ a = " "%char \/
  exists d, unicode_decimal cp = Some d /\ (d < 10)%N /\ a = ascii_of_N (48 + d).
Proof.
  unfold ascii_of_char.
  destruct ((0 <? cp) && (cp <=? 127))%N eqn:E1.
  - apply andb_prop in E1 as [_ E1]. apply N.leb_le in E1.
    intros [= <-]. left. rewrite N_ascii_embedding; [reflexivity|lia].
  - destruct (unicode_isspace cp); [intros [= <-]; auto|].
    destruct (unicode_decimal cp) as [d|] eqn:Ed; [|discriminate].
    intros [= <-]. right. right. exists d.
    split; [reflexivity|]. split; [|reflexivity].
    eapply unicode_decimal_below_ten. eassumption.
Qed.

Lemma ascii_of_char_digit (cp : N) (a : ascii) :
  ascii_of_char cp = Some a -> is_digit a = true ->
  unicode_decimal cp = Some (digit_value a).
Proof.
  intros H Hd. destruct (ascii_of_char_cases _ _ H) as [->|[->|(d & Hu & Hlt & ->)]].
  - apply ascii_digit_decimal. exact Hd.
  - discriminate.
  - rewrite Hu. f_equal. unfold digit_value.
    rewrite N_ascii_embedding by lia. lia.
Qed.

(** A character read as an ASCII character that is neither a space nor a
    digit is that character. *)
Lemma ascii_of_char_plain (cp : N) (a : ascii) :
  ascii_of_char cp = Some a -> is_digit a = false -> a <> " "%char ->
  cp = N_of_ascii a.
Proof.
  intros H Hd Hs. destruct (ascii_of_char_cases _ _ H) as [->|[->|(d & Hu & Hlt & ->)]].
  - reflexivity.
  - contradiction.
  - exfalso. revert Hd. unfold is_digit.
    replace (nat_of_ascii (ascii_of_N (48 + d))) with (N.to_nat (48 + d)).
    + destruct (48 <=? N.to_nat (48 + d))%nat eqn:E1;
        destruct (N.to_nat (48 + d) <=? 57)%nat eqn:E2; try discriminate;
        [apply Nat.leb_gt in E2|apply Nat.leb_gt in E1|apply Nat.leb_gt in E1]; lia.
    + unfold nat_of_ascii. rewrite N_ascii_embedding by lia. reflexivity.
Qed.

Lemma span_digits_spec (s : list ascii) :
  forall ds rest, span_digits s = (ds, rest) ->
    s = ds ++ rest /\ forallb is_digit ds = true.
Proof.
  induction s as [|c s IH]; simpl; intros ds rest H.
  - injection H as <- <-. auto.
  - destruct (is_digit c) eqn:E.
    + destruct (span_digits s) as [ds' rest'] eqn:Es. injection H as <- <-.
      destruct (IH _ _ eq_refl) as [-> Hd]. simpl. rewrite E, Hd. auto.
    + injection H as <- <-. auto.
Qed.

Lemma N_of_digits_acc (ds : list ascii) :
  forall acc,
    fold_left (fun acc c => (10 * acc + digit_value c)%N) ds acc
    = (acc * 10 ^ N.of_nat (length ds) + digits_number (map digit_value ds))%N.
Proof.
  induction ds as [|c ds IH]; intros acc; simpl fold_left; simpl length; simpl map.
  - simpl. lia.
  - rewrite IH. cbn [digits_number]. rewrite length_map.
    rewrite Nat2N.inj_succ, N.pow_succ_r'. lia.
Qed.

Lemma N_of_digits_number (ds : list ascii) :
  N_of_digits ds = digits_number (map digit_value ds).
Proof. unfold N_of_digits. rewrite N_of_digits_acc. lia. Qed.

(** Digits read as ASCII digits are digits of the values read. *)
Lemma digits_of_chars_read (chars : list N) (text : list ascii) :
  Forall2 (fun cp a => ascii_of_char cp = Some a) chars text ->
  forallb is_digit text = true ->
  digits_of_chars chars (map digit_value text).
Proof.
  induction 1 as [|cp a chars text H _ IH]; simpl; intros Hd; [constructor|].
  apply andb_prop in Hd as [Ha Hd]. constructor; [|apply IH; exact Hd].
  apply ascii_of_char_digit; assumption.
Qed.

Lemma take_sign_spec (text body : list ascii) (negative : bool) :
  take_sign text = (negative, body) ->
  exists sign_text, text = sign_text ++ body /\ sign_of_text sign_text negative.
Proof.
  unfold take_sign, sign_of_text.
  destruct text as [|[[] [] [] [] [] [] [] []] r]; intros [= <- <-];
    first [ exists []; split; [reflexivity|auto; fail]
          | exists ["+"%char]; split; [reflexivity|auto; fail]
          | exists ["-"%char]; split; [reflexivity|auto] ].
Qed.

Lemma lower_ascii_e (a : ascii) :
  lower_ascii a = "e"%char -> a = "e"%char \/ a = "E"%char.
Proof.
  destruct a as [[] [] [] [] [] [] [] []]; vm_compute; intros H;
    first [discriminate H | auto].
Qed.

Lemma parse_exponent_spec (text : list ascii) (x : Z) :
  parse_exponent text = Some x ->
  (text = [] /\ x = 0) \/
  exists letter sign_text digits negative,
    text = letter :: sign_text ++ digits /\
    (letter = "e"%char \/ letter = "E"%char) /\
    sign_of_text sign_text negative /\
    digits <> [] /\ forallb is_digit digits = true /\
    x = if negative then - Z.of_N (N_of_digits digits) else Z.of_N (N_of_digits digits).
Proof.
  unfold parse_exponent. destruct text as [|letter r]; [intros [= <-]; auto|].
  destruct (Ascii.eqb (lower_ascii letter) "e") eqn:E; [|discriminate].
  apply Ascii.eqb_eq, lower_ascii_e in E.
  destruct (take_sign r) as [negative digits] eqn:Hs.
  destruct (take_sign_spec _ _ _ Hs) as (sign_text & -> & Hsign).
  destruct digits as [|d ds]; [discriminate|].
  unfold all_digits. destruct (forallb is_digit (d :: ds)) eqn:Hd; [|discriminate].
  intros [= <-]. right. exists letter, sign_text, (d :: ds), negative.
  repeat split; auto; discriminate.
Qed.

Lemma parse_number_spec (body : list ascii) (c : N) (x : Z) :
  parse_number body = Some (c, x) ->
  exists int_text point_text frac_text exp_text e,
    body = int_text ++ point_text ++ frac_text ++ exp_text /\
    forallb is_digit int_text = true /\
    ((point_text = [] /\ frac_text = []) \/ point_text = ["."%char]) /\
    forallb is_digit frac_text = true /\
    int_text ++ frac_text <> [] /\
    parse_exponent exp_text = Some e /\
    c = N_of_digits (int_text ++ frac_text) /\
    x = e - Z.of_nat (length frac_text).
Proof.
  unfold parse_number.
  destruct (span_digits body) as [int_text r1] eqn:Hi.
  apply span_digits_spec in Hi as [-> Hint].
  assert (Hpoint : exists point_text frac_text r2,
            r1 = point_text ++ frac_text ++ r2 /\
            ((point_text = [] /\ frac_text = []) \/ point_text = ["."%char]) /\
            forallb is_digit frac_text = true /\
            match r1 with
            | "."%char :: r => span_digits r
            | _ => ([], r1)
            end = (frac_text, r2)).
  { destruct r1 as [|[[] [] [] [] [] [] [] []] r];
      try (exists [], [], []; repeat split; auto; fail);
      try (eexists [], [], (_ :: _); repeat split; auto; fail).
    destruct (span_digits r) as [frac_text r2] eqn:Hf.
    apply span_digits_spec in Hf as [-> Hfrac].
    exists ["."%char], frac_text, r2. repeat split; auto. }
  destruct Hpoint as (point_text & frac_text & r2 & -> & Hpt & Hfrac & ->).
  destruct (int_text ++ frac_text) as [|d ds] eqn:Hne; [discriminate|].
  destruct (parse_exponent r2) as [e|] eqn:He; [|discriminate].
  intros [= <- <-]. exists int_text, point_text, frac_text, r2, e.
  rewrite Hne. repeat split; auto.
Qed.

Lemma parse_special_not_finite (negative : bool) (body : list ascii) (d : Decimal) :
  parse_special negative body = Some d ->
  forall s c x, d <> DecFinite s c x.
Proof.
  unfold parse_special.
  repeat match goal with
         | |- context [if ?b then _ else _] => destruct b
         end; intros [= <-]; discriminate.
Qed.

Lemma Forall2_read_one (cp_list : list N) (a : ascii) :
  Forall2 (fun cp a => ascii_of_char cp = Some a) cp_list [a] ->
  is_digit a = false -> a <> " "%char ->
  cp_list = [N_of_ascii a].
Proof.
  intros H Hd Hs. inversion H as [|cp a' l l' Hcp Hrest]; subst.
  inversion Hrest; subst. f_equal. eapply ascii_of_char_plain; eassumption.
Qed.

Lemma sign_of_chars_read (chars : list N) (text : list ascii) (negative : bool) :
  Forall2 (fun cp a => ascii_of_char cp = Some a) chars text ->
  sign_of_text text negative -> sign_of_chars chars negative.
Proof.
  intros H [[-> ->]|[[-> ->]|[-> ->]]]; unfold sign_of_chars.
  - inversion H. auto.
  - apply Forall2_read_one in H; [subst; auto|reflexivity|discriminate].
  - apply Forall2_read_one in H; [subst; auto|reflexivity|discriminate].
Qed.

Lemma Forall2_read_app (chars : list N) (t1 t2 : list ascii) :
  Forall2 (fun cp a => ascii_of_char cp = Some a) chars (t1 ++ t2) ->
  exists c1 c2,
    chars = c1 ++ c2 /\
    Forall2 (fun cp a => ascii_of_char cp = Some a) c1 t1 /\
    Forall2 (fun cp a => ascii_of_char cp = Some a) c2 t2.
Proof.
  revert chars. induction t1 as [|a t1 IH]; intros chars H; simpl in H.
  - exists [], chars. repeat split; [constructor|exact H].
  - inversion H as [|cp a' l l' Hcp Hrest]; subst.
    destruct (IH _ Hrest) as (c1 & c2 & -> & H1 & H2).
    exists (cp :: c1), c2. repeat split; [constructor; assumption|assumption].
Qed.

Lemma exponent_of_chars_read (chars : list N) (text : list ascii) (x : Z) :
  Forall2 (fun cp a => ascii_of_char cp = Some a) chars text ->
  parse_exponent text = Some x -> exponent_of_chars chars x.
Proof.
  intros H Hx.
  destruct (parse_exponent_spec _ _ Hx)
    as [[-> ->]|(letter & sign_text & digits & negative & -> & Hl & Hs & Hne & Hd & ->)].
  - inversion H. left. auto.
  - right. inversion H as [|cp a l l' Hcp Hrest]; subst.
    destruct (Forall2_read_app _ _ _ Hrest) as (sc & dc & -> & Hsc & Hdc).
    exists cp, sc, dc, negative, (map digit_value digits).
    split; [reflexivity|]. split.
    { destruct Hl as [->| ->];
        apply ascii_of_char_plain in Hcp; try reflexivity; try discriminate;
        subst; auto. }
    split; [eapply sign_of_chars_read; eassumption|].
    split.
    { intros ->. inversion Hdc; subst. contradiction. }
    split; [apply digits_of_chars_read; assumption|].
    rewrite N_of_digits_number. reflexivity.
Qed.

(** A finite [Decimal] made from a text has the sign, the coefficient and
    the exponent the text writes. *)
Lemma Decimal_of_str_numeral (value : string) (negative : bool) (c : N) (x : Z) :
  Decimal_of_str value = Ok (DecFinite negative c x) ->
  numeral_of_text value negative c x.
Proof.
  unfold Decimal_of_str, numeric_as_ascii.
  destruct (strip_spec (utf8_decode (list_ascii_of_string value)))
    as (before & after & Hcore & Hb & Ha).
  set (core := strip (utf8_decode (list_ascii_of_string value))) in *.
  set (chars := List.filter (fun cp => negb (cp =? underscore)%N) core).
  destruct (ascii_of_chars chars) as [text|] eqn:Ht; [|discriminate].
  apply ascii_of_chars_spec in Ht.
  destruct (take_sign text) as [sign body] eqn:Hs.
  destruct (take_sign_spec _ _ _ Hs) as (sign_text & -> & Hsign).
  destruct (parse_number body) as [[c' x']|] eqn:Hn.
  - unfold finite_within_limits.
    destruct ((MIN_ETINY <=? x') && (x' + digits_of c' - 1 <=? MAX_EMAX));
      [|discriminate].
    intros [= -> -> ->].
    destruct (parse_number_spec _ _ _ Hn)
      as (int_text & point_text & frac_text & exp_text & e
          & -> & Hint & Hpt & Hfrac & Hne & He & -> & ->).
    destruct (Forall2_read_app _ _ _ Ht) as (sc & r & Hchars & Hsc & Hr).
    destruct (Forall2_read_app _ _ _ Hr) as (ic & r' & -> & Hic & Hr').
    destruct (Forall2_read_app _ _ _ Hr') as (pc & r'' & -> & Hpc & Hr'').
    destruct (Forall2_read_app _ _ _ Hr'') as (fc & ec & -> & Hfc & Hec).
    exists before, core, after, sc, ic, pc, fc, ec,
      (map digit_value int_text), (map digit_value frac_text), e.
    split; [exact Hcore|]. split; [exact Hb|]. split; [exact Ha|].
    split; [exact Hchars|].
    split; [eapply sign_of_chars_read; eassumption|].
    split; [apply digits_of_chars_read; assumption|].
    split.
    { destruct Hpt as [[-> ->]| ->].
      - inversion Hpc; subst. inversion Hfc; subst. auto.
      - right. apply Forall2_read_one in Hpc; [exact Hpc|reflexivity|discriminate]. }
    split; [apply digits_of_chars_read; assumption|].
    split.
    { intros Hnil. apply app_eq_nil in Hnil as [-> ->].
      inversion Hic; subst. inversion Hfc; subst. contradiction. }
    split; [eapply exponent_of_chars_read; eassumption|].
    rewrite N_of_digits_number, map_app, length_map. auto.
  - destruct (parse_special sign body) as [d|] eqn:Hsp; [|discriminate].
    intros [= ->]. exfalso. eapply parse_special_not_finite; [exact Hsp|reflexivity].
Qed.

Lemma Decimal_of_exact (v : json) (d : Decimal) :
  Decimal_of v = Ok d -> exact_decimal_of v d.
Proof.
  intros H. split; [assumption|]. split.
  - intros x Hx.
    destruct v as [|b|n|f|s|l|items]; simpl in *; try discriminate.
    + injection H as <-. injection Hx as <-.
      destruct (Decimal_of_int_exact (if b then 1 else 0)) as (y & Hy & E).
      exists y. split; [assumption|]. rewrite E. destruct b; reflexivity.
    + injection H as <-. injection Hx as <-. apply Decimal_of_int_exact.
    + injection H as <-. apply Decimal_of_float_exact. assumption.
  - intros text negative c x -> ->. apply Decimal_of_str_numeral. exact H.
Qed.

(** ** The trade normalizer *)

Lemma side_of_float (takerSide : json) :
  (if py_eq_str takerSide "BUY"
   then py_float_of_int (TradeType_value BUY)
   else py_float_of_int (TradeType_value SELL))
  = py_float_of_int (TradeType_value (side_of takerSide)).
Proof. unfold side_of, CONSTANTS.SIDE_BUY. destruct (py_eq_str _ _); reflexivity. Qed.

#[local] Ltac bind_step H :=
  match type of H with
  | rbind ?c _ = Ok _ =>
      let E := fresh "E" in
      destruct c eqn:E; simpl in H; [|discriminate H]
  end.

(** What the normalizer builds from a payload is the payload's Trade record. *)
Lemma trade_message_record
    (self : CoinstoreAPIOrderBookDataSource) (msg : dict) (r : OrderBookMessage) :
  trade_message self msg = Ok r -> trade_record_of self msg r.
Proof.
  unfold trade_message. intros H.
  repeat bind_step H.
  injection H as <-. rewrite side_of_float.
  unfold trade_record_of.
  do 10 eexists.
  repeat (split; [eassumption || (apply Decimal_of_exact; eassumption)|]).
  reflexivity.
Qed.

Lemma trade_record_message
    (self : CoinstoreAPIOrderBookDataSource) (msg : dict) (r : OrderBookMessage) :
  trade_record_of self msg r -> trade_message self msg = Ok r.
Proof.
  intros (trade_id & symbol & trading_pair & takerSide & volume & amount
          & price_v & price & time & ts
          & H1 & H2 & H3 & H4 & H5 & [H6 _] & H7 & [H8 _] & H9 & H10 & ->).
  unfold trade_message.
  rewrite H1; simpl. rewrite H2; simpl. rewrite H3; simpl. rewrite H4; simpl.
  rewrite H5; simpl. rewrite H6; simpl. rewrite H7; simpl. rewrite H8; simpl.
  rewrite H9; simpl. rewrite H10; simpl. rewrite side_of_float. reflexivity.
Qed.

Lemma parse_each_records
    (self : CoinstoreAPIOrderBookDataSource) (entries : list json)
    (records : list OrderBookMessage) :
  entries_records self entries records ->
  forall q, parse_each self entries q = (Ok tt, q ++ records).
Proof.
  induction 1 as [|e r entries records (msg & -> & Hr) _ IH]; intros q; simpl.
  - rewrite app_nil_r. reflexivity.
  - rewrite (trade_record_message _ _ _ Hr). unfold put_nowait.
    rewrite IH, <- app_assoc. reflexivity.
Qed.


(** A frame without a [data] field raises at the first statement: nothing is
    put on the queue, whatever else the frame carries. *)
Lemma parse_trade_message_without_data
    (self : CoinstoreAPIOrderBookDataSource) (frame : dict) (q : Queue) (e : exn) :
  dict_item "data" frame = Raise e ->
  _parse_trade_message self frame q = (Raise e, q).
Proof. intros H. unfold _parse_trade_message. rewrite H. reflexivity. Qed.

(** A frame with a [data] array whose entries all have a record: the records
    of the array in order, then the record of the frame itself when it
    carries a trade id. *)
Lemma parse_trade_message_records
    (self : CoinstoreAPIOrderBookDataSource) (frame : dict) (q : Queue)
    (entries : list json) (records : list OrderBookMessage) :
  dict_item "data" frame = Ok (JList entries) ->
  entries_records self entries records ->
  _parse_trade_message self frame q =
    if carries_trade_id frame
    then parse_message self (JObj frame) (q ++ records)
    else (Ok tt, q ++ records).
Proof.
  intros Hd He. unfold _parse_trade_message, carries_trade_id.
  rewrite Hd. simpl. rewrite (parse_each_records _ _ _ He). reflexivity.
Qed.

Lemma entry_1_record : trade_record_of btc_source entry_1 record_1.
Proof. apply trade_message_record. vm_compute. reflexivity. Qed.

Lemma entry_2_record : trade_record_of btc_source entry_2 record_2.
Proof. apply trade_message_record. vm_compute. reflexivity. Qed.

Lemma frame_incremental_record :
  trade_record_of btc_source frame_batch_and_incremental record_3.
Proof. apply trade_message_record. vm_compute. reflexivity. Qed.




(** A frame with a trade id that is not null is never Unknown. *)
Lemma trade_id_never_unknown (frame : dict) :
  carries_trade_id frame = true ->
  class_of_channel (_channel_originating_message frame) <> Unknown.
Proof.
  intros H. rewrite channel_of_frame, H, orb_true_r.
  destruct (carries_diff_tag frame); discriminate.
Qed.

(** A trade frame (one without the diff tag) that carries a trade id of its
    own is classified as Trade, and when it has a [data] array, yielding
    [records], the normalizer puts these and then one more record, the one
    of the frame's own payload. *)
Lemma incremental_after_batch
    (self : CoinstoreAPIOrderBookDataSource) (frame : dict)
    (entries : list json) (records : list OrderBookMessage)
    (r : OrderBookMessage) (q : Queue) :
  carries_trade_id frame = true ->
  carries_diff_tag frame = false ->
  dict_item "data" frame = Ok (JList entries) ->
  entries_records self entries records ->
  trade_record_of self frame r ->
  class_of_channel (_channel_originating_message frame) = Trade /\
  _parse_trade_message self frame q = (Ok tt, q ++ records ++ [r]).
Proof.
  intros Hid Hdiff Hd He Hr. split.
  - rewrite channel_of_frame, Hdiff, Hid, orb_true_r. reflexivity.
  - rewrite (parse_trade_message_records self frame q _ records Hd He), Hid.
    unfold parse_message. rewrite (trade_record_message _ _ _ Hr).
    unfold put_nowait. rewrite app_assoc. reflexivity.
Qed.

Example incremental_after_batch_of_two :
  class_of_channel (_channel_originating_message frame_batch_and_incremental)
    = Trade /\
  _parse_trade_message btc_source frame_batch_and_incremental []
    = (Ok tt, [record_1; record_2; record_3]).
Proof.
  refine (incremental_after_batch btc_source
            frame_batch_and_incremental [JObj entry_1; JObj entry_2]
            [record_1; record_2] record_3 [] eq_refl eq_refl eq_refl _
            frame_incremental_record).
  repeat constructor; eexists; split; try reflexivity.
  - exact entry_1_record.
  - exact entry_2_record.
Qed.

(** C5, at a frame that is an incremental trade only: the frame carries a
    trade id of its own and every field of a trade, the router classifies it
    as Trade, and its payload has a Trade record; but it has no [data]
    field, so the normalizer raises [KeyError] at its first statement and
    the record is never put on the queue. *)
Theorem incremental_only_frame_is_dropped :
  carries_trade_id frame_incremental_only = true /\
  class_of_channel (_channel_originating_message frame_incremental_only) = Trade /\
  trade_record_of btc_source frame_incremental_only record_3 /\
  _parse_trade_message btc_source frame_incremental_only []
    = (Raise KeyError, []).
Proof.
  split; [reflexivity|]. split; [reflexivity|]. split; [|reflexivity].
  apply trade_message_record. vm_compute. reflexivity.
Qed.





(** ** The subscription manager *)

Section SubscriptionProperties.

Variable repr_other : json -> string.

Lemma channel_names_length (ids : list json) :
  length (flat_map (channel_names repr_other) ids) = (2 * length ids)%nat.
Proof. induction ids as [|id ids IH]; simpl; [reflexivity|]. rewrite IH. lia. Qed.

Lemma subscribe_loop_registered (connector : CoinstoreExchange)
    (trading_pairs : list string) (ids : list json) :
  Forall2 (fun tp id => registry_entry connector tp = Some id) trading_pairs ids ->
  forall channels,
    subscribe_loop repr_other connector trading_pairs channels
      = Ok (channels ++ flat_map (channel_names repr_other) ids).
Proof.
  induction 1 as [|tp id tps ids Hentry _ IH]; intros channels; simpl.
  - rewrite app_nil_r. reflexivity.
  - unfold registry_entry in Hentry.
    destruct (exchange_symbol_associated_to_pair connector tp) as [symbol|e];
      [|discriminate]. simpl. rewrite Hentry, IH.
    rewrite <- !app_assoc. reflexivity.
Qed.

(** An instrument without a registry entry aborts the whole call: nothing
    is sent. *)
Lemma subscribe_loop_unregistered (connector : CoinstoreExchange)
    (trading_pairs : list string) :
  Exists (fun tp => registry_entry connector tp = None) trading_pairs ->
  forall channels,
    exists e, subscribe_loop repr_other connector trading_pairs channels = Raise e.
Proof.
  induction trading_pairs as [|tp tps IH]; intros Hex channels.
  - inversion Hex.
  - simpl.
    destruct (exchange_symbol_associated_to_pair connector tp) as [symbol|e]
      eqn:Hs; simpl; [|eauto].
    destruct (_symbol_to_id_map connector !! symbol) as [id|] eqn:Hid; [|eauto].
    apply IH. inversion Hex as [? ? H|? ? H]; subst; [|assumption].
    unfold registry_entry in H. rewrite Hs, Hid in H. discriminate.
Qed.

(** C2: when every instrument has a registry entry (a venue symbol and its
    channel id), [_subscribe_channels] sends exactly one frame: the frames
    sent are those sent before and one more, with [op = "SUB"], the
    request id 1, and a channel array holding, per instrument and in
    order, the names [{id}@depth@50] and [{id}@trade]; its length is twice
    the number of instruments. *)
Theorem subscribe_sends_one_frame
    (self : CoinstoreAPIOrderBookDataSource) (ws : WSAssistant) (ids : list json) :
  Forall2 (fun tp id => registry_entry (_connector self) tp = Some id)
    (_trading_pairs self) ids ->
  let channels := flat_map (channel_names repr_other) ids in
  _subscribe_channels repr_other self ws
    = (Ok tt, ws ++ [JObj [("op", JStr "SUB");
                           ("channel", JList (map JStr channels));
                           ("id", JInt 1)]]) /\
  length channels = (2 * length (_trading_pairs self))%nat.
Proof.
  intros H channels. split.
  - unfold _subscribe_channels.
    rewrite (subscribe_loop_registered _ _ _ H). reflexivity.
  - unfold channels. rewrite channel_names_length.
    rewrite (Forall2_length _ _ _ H). reflexivity.
Qed.

End SubscriptionProperties.

Lemma subscribe_sends_one_frame_witness :
  _subscribe_channels (fun _ => "") eth_btc_source []
    = (Ok tt, [JObj [("op", JStr "SUB");
                     ("channel", JList [JStr "4@depth@50"; JStr "4@trade";
                                        JStr "7@depth@50"; JStr "7@trade"]);
                     ("id", JInt 1)]]) /\
  length (flat_map (channel_names (fun _ => "")) [JInt 4; JStr "7"])
    = (2 * length (_trading_pairs eth_btc_source))%nat.
Proof.
  refine (subscribe_sends_one_frame (fun _ => "") eth_btc_source []
            [JInt 4; JStr "7"] _).
  repeat constructor.
Defined.

(** ** Registry population *)

Lemma usdt_symbols_empty : usdt_symbols bidict_empty.
Proof. split; intros ? ? H; simpl in H; rewrite lookup_empty in H; discriminate. Qed.

Lemma installs_usdt_only_refl (ids : gmap string json) : installs_usdt_only ids ids.
Proof. intros s id H. left. assumption. Qed.

(** Binding a symbol ending in [USDT] keeps a symbol map within such symbols. *)
Lemma bidict_put_usdt (key val : string) (b b' : bidict) :
  endswith key "USDT" = true ->
  usdt_symbols b ->
  bidict_put key val b = Ok b' ->
  usdt_symbols b'.
Proof.
  intros Hkey [Hf Hi]. unfold bidict_put.
  destruct (fwdm b !! key) as [oldval|] eqn:Ek;
    destruct (invm b !! val) as [oldkey|] eqn:Ev; try discriminate.
  - destruct (String.eqb oldkey key); [|discriminate].
    intros [= <-]. split; assumption.
  - intros [= <-]. split; simpl.
    + intros s p. rewrite lookup_insert. case_decide; [subst; auto|eauto].
    + intros p s. rewrite lookup_insert. case_decide.
      * intros [= <-]. assumption.
      * rewrite lookup_delete. case_decide; [discriminate|eauto].
  - intros [= <-]. split; simpl.
    + intros s p. rewrite lookup_insert. case_decide; [subst; auto|eauto].
    + intros p s. rewrite lookup_insert. case_decide.
      * intros [= <-]. assumption.
      * eauto.
Qed.

Lemma install_symbol_usdt {upper : string -> string}
    (symbol_data : json) (ids0 : gmap string json)
    (mapping mapping' : bidict) (ids ids' : gmap string json) :
  install_symbol upper symbol_data (mapping, ids) = Ok (mapping', ids') ->
  usdt_symbols mapping -> installs_usdt_only ids0 ids ->
  usdt_symbols mapping' /\ installs_usdt_only ids0 ids'.
Proof.
  unfold install_symbol. intros H Hm Hids.
  destruct (subscript symbol_data "symbol") as [[| | | |exchange_symbol| |]|e];
    simpl in H; try discriminate.
  destruct (endswith exchange_symbol "USDT") eqn:Hends.
  - destruct (split exchange_symbol "USDT") as [|base_asset [|quote [|? ?]]];
      try discriminate.
    destruct (bidict_put _ _ mapping) as [m1|e] eqn:Hput; simpl in H;
      [|discriminate].
    destruct (subscript symbol_data "id") as [id|e]; simpl in H; [|discriminate].
    injection H as <- <-. split.
    + eapply bidict_put_usdt; eassumption.
    + intros s v. rewrite lookup_insert. case_decide.
      * subst. right. assumption.
      * apply Hids.
  - injection H as <- <-. split; assumption.
Qed.

Lemma install_symbols_usdt {upper : string -> string}
    (ids0 : gmap string json) (data_list : list json) :
  forall mapping ids,
    usdt_symbols mapping -> installs_usdt_only ids0 ids ->
    usdt_symbols (fst (snd (install_symbols upper data_list (mapping, ids)))) /\
    installs_usdt_only ids0 (snd (snd (install_symbols upper data_list (mapping, ids)))).
Proof.
  induction data_list as [|symbol_data rest IH]; intros mapping ids Hm Hids;
    cbn [install_symbols].
  - split; assumption.
  - destruct (install_symbol upper symbol_data (mapping, ids)) as [[m1 ids1]|e] eqn:E.
    + destruct (install_symbol_usdt _ ids0 _ _ _ _ E Hm Hids). apply IH; assumption.
    + simpl. split; assumption.
Qed.

Lemma dict_get_set_eq (key : string) (v : json) (d : dict) :
  dict_get key (dict_set key v d) = v.
Proof.
  induction d as [|[k w] d IH]; simpl.
  - rewrite String.eqb_refl. reflexivity.
  - destruct (String.eqb k key) eqn:E; simpl; rewrite E; [reflexivity|exact IH].
Qed.

Lemma dict_get_set_ne (key key' : string) (v : json) (d : dict) :
  key <> key' -> dict_get key' (dict_set key v d) = dict_get key' d.
Proof.
  intros Hne. induction d as [|[k w] d IH]; simpl.
  - destruct (String.eqb_spec key key'); [contradiction|reflexivity].
  - destruct (String.eqb_spec k key) as [->|Hk]; simpl.
    + destruct (String.eqb_spec key key'); [contradiction|reflexivity].
    + rewrite IH. reflexivity.
Qed.

Lemma install_other_quote {upper : string -> string}
    (symbol_data : json) (st : init_state) :
  other_quote symbol_data = true -> install_symbol upper symbol_data st = Ok st.
Proof.
  unfold other_quote, install_symbol. destruct st as [m ids].
  destruct (subscript symbol_data "symbol") as [[| | | |x| |]|e]; try discriminate.
  simpl. destruct (endswith x "USDT"); [discriminate|reflexivity].
Qed.

Lemma install_symbols_usdt_entries {upper : string -> string} (data_list : list json) :
  forall st, install_symbols upper (usdt_entries data_list) st = install_symbols upper data_list st.
Proof.
  unfold usdt_entries.
  induction data_list as [|symbol_data rest IH]; intros st; [reflexivity|].
  cbn [List.filter install_symbols].
  destruct (other_quote symbol_data) eqn:E; cbn [negb].
  - rewrite (install_other_quote _ _ E). apply IH.
  - cbn [install_symbols]. destruct (install_symbol upper symbol_data st); [apply IH|reflexivity].
Qed.

(** C10: registry population filters silently by quote currency. After
    [_initialize_trading_pair_symbols_from_exchange_info], whatever the
    response and the outcome: every channel id the call installed belongs to
    a venue symbol ending in [USDT]; the symbol map is the one from before
    or a new one all of whose venue symbols end in [USDT]; on an error code
    that is not zero the call returns with the registry as it was; and the
    entries for other symbols are omitted silently: the turn of the loop on
    an entry whose symbol is text that does not end in [USDT] returns and
    leaves the map and the channel ids as they were, so that the call does
    on a list of entries what it does on the list without these entries,
    outcome and registry alike. *)
Theorem registry_population_filters_usdt {upper : string -> string}
    (exchange_info : dict) (self : CoinstoreExchange) :
  let outcome :=
    _initialize_trading_pair_symbols_from_exchange_info upper exchange_info self in
  installs_usdt_only (_symbol_to_id_map self) (_symbol_to_id_map (snd outcome)) /\
  (_trading_pair_symbol_map (snd outcome) = _trading_pair_symbol_map self \/
   exists mapping,
     _trading_pair_symbol_map (snd outcome) = Some mapping /\ usdt_symbols mapping) /\
  (py_eq_zero (dict_get "code" exchange_info) = false -> outcome = (Ok tt, self)) /\
  (forall symbol_data st,
     other_quote symbol_data = true -> install_symbol upper symbol_data st = Ok st) /\
  (forall data_list,
     dict_get "data" exchange_info = JList data_list ->
     outcome
     = _initialize_trading_pair_symbols_from_exchange_info upper
         (dict_set "data" (JList (usdt_entries data_list)) exchange_info) self).
Proof.
  cbv zeta.
  assert (H : forall outcome,
            outcome
            = _initialize_trading_pair_symbols_from_exchange_info upper
                exchange_info self ->
            installs_usdt_only (_symbol_to_id_map self)
              (_symbol_to_id_map (snd outcome)) /\
            (_trading_pair_symbol_map (snd outcome) = _trading_pair_symbol_map self \/
             exists mapping,
               _trading_pair_symbol_map (snd outcome) = Some mapping /\
               usdt_symbols mapping) /\
            (py_eq_zero (dict_get "code" exchange_info) = false ->
             outcome = (Ok tt, self))).
  { intros outcome ->.
    unfold _initialize_trading_pair_symbols_from_exchange_info.
    destruct (py_eq_zero (dict_get "code" exchange_info)); simpl.
    2: { split; [apply installs_usdt_only_refl|]. split; [left|]; reflexivity. }
    destruct (py_iter (dict_get "data" exchange_info)) as [data_list|e]; simpl.
    2: { split; [apply installs_usdt_only_refl|]. split; [left; reflexivity|].
         discriminate. }
    destruct (install_symbols_usdt (upper:=upper) (_symbol_to_id_map self)
                data_list bidict_empty
                (_symbol_to_id_map self) usdt_symbols_empty
                (installs_usdt_only_refl _)) as [Hm Hids].
    destruct (install_symbols upper data_list (bidict_empty, _symbol_to_id_map self))
      as [[[]|e] [mapping ids]]; simpl in *.
    - split; [assumption|]. split; [right; eauto|discriminate].
    - split; [assumption|]. split; [left; reflexivity|discriminate]. }
  destruct (H _ eq_refl) as (H1 & H2 & H3).
  split; [exact H1|]. split; [exact H2|]. split; [exact H3|].
  split; [apply install_other_quote|].
  intros data_list Hdata.
  unfold _initialize_trading_pair_symbols_from_exchange_info.
  rewrite dict_get_set_ne by discriminate. rewrite dict_get_set_eq, Hdata.
  cbn [py_iter]. rewrite install_symbols_usdt_entries. reflexivity.
Qed.

(** A symbol that does not end in [USDT] is passed over: no error, no entry. *)
Lemma install_symbol_other_quote {upper : string -> string}
    (symbol : string) (rest : dict) (st : init_state) :
  endswith symbol "USDT" = false ->
  install_symbol upper (JObj (("symbol", JStr symbol) :: rest)) st = Ok st.
Proof.
  intros H. unfold install_symbol. destruct st as [mapping ids].
  simpl. rewrite H. reflexivity.
Qed.

(** ** The request signer *)

Lemma round_length (h : list Z) (kw : Z * Z) :
  length (SHA256.round h kw) = length h.
Proof.
  unfold SHA256.round.
  destruct h as [|a [|b [|c [|d [|e [|f [|g [|hh [|x h]]]]]]]]]; reflexivity.
Qed.

Lemma rounds_length (kws : list (Z * Z)) :
  forall h, length (fold_left SHA256.round kws h) = length h.
Proof.
  induction kws as [|kw kws IH]; intros h; simpl; [reflexivity|].
  rewrite IH. apply round_length.
Qed.

Lemma add_words_length (x : list Z) :
  forall y, length x = length y -> length (SHA256.add_words x y) = length x.
Proof.
  induction x as [|a x IH]; intros [|b y] H; simpl in *; try reflexivity;
    try discriminate.
  rewrite IH; [reflexivity|lia].
Qed.

Lemma compress_length (h block : list Z) :
  length (SHA256.compress h block) = length h.
Proof.
  unfold SHA256.compress. apply add_words_length.
  symmetry. apply rounds_length.
Qed.

Lemma blocks_length (count : nat) :
  forall h bytes, length (SHA256.blocks count h bytes) = length h.
Proof.
  induction count as [|count IH]; intros h bytes; simpl; [reflexivity|].
  destruct bytes as [|b bytes]; [reflexivity|].
  rewrite IH. apply compress_length.
Qed.

Lemma be_bytes_words (ws : list Z) :
  length (flat_map (SHA256.be_bytes 4) ws) = (4 * length ws)%nat /\
  Forall (fun b => 0 <= b < 256) (flat_map (SHA256.be_bytes 4) ws).
Proof.
  induction ws as [|w ws [IHl IHr]]; simpl; [split; [reflexivity|constructor]|].
  split; [rewrite IHl; lia|].
  repeat (constructor; [apply Z.mod_pos_bound; lia|]). assumption.
Qed.

(** A digest is 32 bytes. *)
Lemma digest_bytes (msg : list Z) :
  length (SHA256.digest msg) = 32%nat /\
  Forall (fun b => 0 <= b < 256) (SHA256.digest msg).
Proof.
  unfold SHA256.digest.
  destruct (be_bytes_words (SHA256.blocks (length (SHA256.pad msg)) SHA256.H0
                              (SHA256.pad msg))) as [Hl Hr].
  split; [|assumption]. rewrite Hl, blocks_length. reflexivity.
Qed.

Lemma lower_hex_digit_is_lower_hex (n : Z) :
  0 <= n < 16 -> is_lower_hex (lower_hex_digit n) = true.
Proof.
  intros H.
  assert (All : forallb (fun k => is_lower_hex (lower_hex_digit (Z.of_nat k)))
                  (seq 0 16) = true) by reflexivity.
  rewrite forallb_forall in All.
  rewrite <- (Z2Nat.id n) by lia. apply All. apply in_seq. lia.
Qed.

Lemma length_string_of_list_ascii (l : list ascii) :
  String.length (string_of_list_ascii l) = length l.
Proof. induction l as [|c l IH]; simpl; [reflexivity|]. rewrite IH. reflexivity. Qed.

(** The hexadecimal text of bytes: two characters per byte, all of them
    digits or lowercase [a] to [f]. *)
Lemma hexlify_lower_hex (bytes : list Z) :
  Forall (fun b => 0 <= b < 256) bytes ->
  String.length (hexlify bytes) = (2 * length bytes)%nat /\
  forallb is_lower_hex (list_ascii_of_string (hexlify bytes)) = true.
Proof.
  unfold hexlify. rewrite length_string_of_list_ascii, list_ascii_of_string_of_list_ascii.
  induction 1 as [|b bytes Hb _ [IHl IHr]]; simpl; [split; reflexivity|].
  split; [rewrite IHl; lia|].
  rewrite !lower_hex_digit_is_lower_hex, IHr; [reflexivity| |].
  - apply Z.mod_pos_bound. lia.
  - split; [apply Z.div_pos; lia|apply Z.div_lt_upper_bound; lia].
Qed.

Lemma dict_set_absent (key : string) (v : json) (d : dict) :
  dict_has key d = false -> dict_set key v d = d ++ [(key, v)].
Proof.
  induction d as [|[k w] d IH]; simpl; [reflexivity|].
  destruct (String.eqb k key); simpl; [discriminate|].
  intros H. rewrite IH by assumption. reflexivity.
Qed.

(** A key that is present keeps its place: only its value changes. *)
Lemma dict_set_present (key : string) (v : json) (d : dict) :
  dict_has key d = true ->
  exists before old after,
    d = before ++ (key, old) :: after /\
    dict_has key before = false /\
    dict_set key v d = before ++ (key, v) :: after.
Proof.
  unfold dict_has. induction d as [|[k w] d IH]; simpl; [discriminate|].
  destruct (String.eqb_spec k key) as [->|Hne]; simpl.
  - intros _. exists [], w, d. auto.
  - intros H. destruct (IH H) as (before & old & after & -> & Hb & ->).
    exists ((k, w) :: before), old, after. simpl.
    destruct (String.eqb_spec k key); [contradiction|]. auto.
Qed.

Section SignerProperties.

Variable repr_other : json -> string.

(** The signature is 64 lowercase hexadecimal characters. *)
Lemma generate_signature_hex (self : CoinstoreAuth) (params : dict) :
  String.length (_generate_signature repr_other self params) = 64%nat /\
  forallb is_lower_hex
    (list_ascii_of_string (_generate_signature repr_other self params)) = true.
Proof.
  unfold _generate_signature, HMAC.hmac_sha256.
  match goal with
  | |- context [hexlify (SHA256.digest ?m)] =>
      destruct (digest_bytes m) as [Hl Hr];
      destruct (hexlify_lower_hex _ Hr) as [Hlen Hhex]
  end.
  rewrite Hlen, Hl. split; [reflexivity|assumption].
Qed.

(** C8 (amended): the signature is a function of the secret key, the
    parameters and the timestamp alone. Two signers with the same secret key
    whose clocks give the same timestamp [ts] return the same signed
    parameters for the same [params], whatever their API keys and clock
    readings; the signature is the lowercase hexadecimal HMAC-SHA256 digest,
    under the secret key, of the URL-encoded parameters with [timestamp] set
    to [ts]: appended as the last parameter when [params] has no such key,
    and written over the caller's value, where that stands, when it has
    one. *)
Theorem signature_is_deterministic
    (a1 a2 : CoinstoreAuth) (params : option dict) (ts : Z) :
  secret_key a1 = secret_key a2 ->
  auth_timestamp a1 = Ok ts ->
  auth_timestamp a2 = Ok ts ->
  let request_params := dict_set "timestamp" (JInt ts) (or_empty params) in
  let signature :=
    hexlify (HMAC.hmac_sha256 (bytes_of_string (secret_key a1))
               (bytes_of_string (urlencode repr_other request_params))) in
  add_auth_to_params repr_other a1 params
    = Ok (dict_set "signature" (JStr signature) request_params) /\
  add_auth_to_params repr_other a2 params
    = add_auth_to_params repr_other a1 params /\
  String.length signature = 64%nat /\
  forallb is_lower_hex (list_ascii_of_string signature) = true /\
  (dict_has "timestamp" (or_empty params) = false ->
   request_params = or_empty params ++ [("timestamp", JInt ts)]) /\
  (dict_has "timestamp" (or_empty params) = true ->
   exists before old after,
     or_empty params = before ++ ("timestamp", old) :: after /\
     dict_has "timestamp" before = false /\
     request_params = before ++ ("timestamp", JInt ts) :: after).
Proof.
  intros Hkey H1 H2 request_params signature.
  assert (E1 : add_auth_to_params repr_other a1 params
               = Ok (dict_set "signature" (JStr signature) request_params)).
  { unfold add_auth_to_params. rewrite H1. reflexivity. }
  split; [exact E1|]. split.
  - rewrite E1. unfold add_auth_to_params, _generate_signature.
    rewrite H2, <- Hkey. reflexivity.
  - pose proof (generate_signature_hex a1 request_params) as [Hl Hh].
    split; [exact Hl|]. split; [exact Hh|].
    split; [apply dict_set_absent|apply dict_set_present].
Qed.

End SignerProperties.

Lemma signature_is_deterministic_witness :
  add_auth_to_params (fun _ => "") signer_1 (Some order_params)
    = Ok (order_params
          ++ [("timestamp", JInt 1609459200123);
              ("signature",
               JStr "3b2770ef1fdcbeba80429e50a2e02550324f4d8f3c0c8e047927087602687b5a")]) /\
  add_auth_to_params (fun _ => "") signer_2 (Some order_params)
    = add_auth_to_params (fun _ => "") signer_1 (Some order_params).
Proof.
  destruct (signature_is_deterministic (fun _ => "") signer_1 signer_2
              (Some order_params) 1609459200123 eq_refl eq_refl eq_refl)
    as (H1 & H2 & _).
  split; [|exact H2]. rewrite H1. vm_compute. reflexivity.
Defined.

(** C8, as stated, fails: when the caller's parameters hold a [timestamp]
    already, the timestamp is not appended as the last parameter before
    signing. The new value is written where the old one stood, here first,
    the text that is signed ends with another parameter, and the digest is
    not the one of the text with the timestamp last. *)
Lemma timestamp_appended_last_counterexample :
  let params := [("timestamp", JInt 5); ("symbol", JStr "BTCUSDT")] in
  let signed := "timestamp=1609459200123&symbol=BTCUSDT" in
  let digest_of text :=
    hexlify (HMAC.hmac_sha256 (bytes_of_string (secret_key signer_1))
               (bytes_of_string text)) in
  auth_timestamp signer_1 = Ok 1609459200123 /\
  urlencode (fun _ => "") (dict_set "timestamp" (JInt 1609459200123) params)
    = signed /\
  add_auth_to_params (fun _ => "") signer_1 (Some params)
    = Ok [("timestamp", JInt 1609459200123); ("symbol", JStr "BTCUSDT");
          ("signature", JStr (digest_of signed))] /\
  digest_of signed <> digest_of "symbol=BTCUSDT&timestamp=1609459200123" /\
  digest_of signed
    <> digest_of "timestamp=5&symbol=BTCUSDT&timestamp=1609459200123".
Proof.
  cbv zeta. split; [vm_compute; reflexivity|]. split; [vm_compute; reflexivity|].
  split; [vm_compute; reflexivity|]. split; vm_compute; discriminate.
Qed.

(** ** The models on known values *)

Example sha256_abc :
  hexlify (SHA256.digest (bytes_of_string "abc"))
  = "ba7816bf8f01cfea414140de5dae2223b00361a396177a9cb410ff61f20015ad".
Proof. vm_compute. reflexivity. Qed.

Example sha256_two_blocks :
  hexlify (SHA256.digest
             (bytes_of_string "abcdbcdecdefdefgefghfghighijhijkijkljklmklmnlmnomnopnopq"))
  = "248d6a61d20638b8e5c026930c3e6039a33ce45964ff2167f6ecedd419db06c1".
Proof. vm_compute. reflexivity. Qed.

Example hmac_sha256_fox :
  hexlify (HMAC.hmac_sha256 (bytes_of_string "key")
             (bytes_of_string "The quick brown fox jumps over the lazy dog"))
  = "f7bc83f430538424b13298e6aa6fb143ef4d59a14946175997479dbc2d1a3cd8".
Proof. vm_compute. reflexivity. Qed.

Example urlencode_quotes :
  urlencode (fun _ => "")
    [("a b", JStr "c/d~e_f-g.h"); ("k", JInt 1); ("t", JBool true);
     ("n", JNull); ("x", JStr "+&=%")]
  = "a+b=c%2Fd~e_f-g.h&k=1&t=True&n=None&x=%2B%26%3D%25".
Proof. vm_compute. reflexivity. Qed.

Example split_usdt :
  map (fun s => split s "USDT") ["BTCUSDT"; "USDTUSDT"; "AUSDTBUSDT"; "USDUSDT"]
  = [["BTC"; ""]; [""; ""; ""]; ["A"; "B"; ""]; ["USD"; ""]].
Proof. vm_compute. reflexivity. Qed.

Example decimal_of_text :
  map Decimal_of [JStr "1.2"; JStr " -0045.600e-3 "; JStr "1_000"; JStr ".5";
                  JStr "."; JStr "sNaN012"; JStr "-inf"; JStr "1e1000000000000000000";
                  JInt (-7); JBool true; JNull;
                  JList [JInt 0; JList [JInt 1; JInt 2]; JInt (-1)];
                  JList [JInt 0; JList [JInt 10]; JInt (10 ^ 30)];
                  JList [JInt 1; JList [JInt 0; JInt 0]; JStr "N"]]
  = [Ok (DecFinite false 12 (-1)); Ok (DecFinite true 45600 (-6));
     Ok (DecFinite false 1000 0); Ok (DecFinite false 5 (-1));
     Raise InvalidOperation; Ok (DecNaN false true 12); Ok (DecInfinity true);
     Raise InvalidOperation;
     Ok (DecFinite true 7 0); Ok (DecFinite false 1 0); Raise TypeError;
     Ok (DecFinite false 12 (-1)); Raise OverflowError;
     Ok (DecNaN true true 0)].
Proof. vm_compute. reflexivity. Qed.

(** Decimal digits of any script, white space of Unicode and underscores:
    Arabic-Indic and fullwidth digits, a no-break space, an ideographic
    space; a letter beyond ASCII leaves nothing to parse. *)
Example decimal_of_unicode_text :
  map Decimal_of [JStr "١٢"; JStr "１２.５e-１"; JStr " 1_2　"; JStr "١٢é";
                  JStr "1 2"; JStr "nan١٢"]
  = [Ok (DecFinite false 12 0); Ok (DecFinite false 125 (-2));
     Ok (DecFinite false 12 0); Raise InvalidOperation;
     Raise InvalidOperation; Ok (DecNaN false false 12)].
Proof. vm_compute. reflexivity. Qed.

(** The relation between a text and what it writes, on a text with white
    space, leading zeros, a point and an exponent. *)
Example numeral_of_padded_text :
  numeral_of_text " -0045.600e-3 " true 45600 (-6).
Proof. apply Decimal_of_str_numeral. vm_compute. reflexivity. Qed.

(** The float nearest to 1.2 is not 1.2, and its [Decimal] says so. *)
Example decimal_of_float_1_2 :
  Decimal_of (JFloat 1.2)
  = Ok (DecFinite false 11999999999999999555910790149937383830547332763671875 (-52)).
Proof. vm_compute. reflexivity. Qed.

Example float_of_trade_type :
  map (fun t => py_float_of_int (TradeType_value t)) [BUY; SELL] = [1%float; 2%float].
Proof. vm_compute. reflexivity. Qed.

Example truediv_of_time :
  map truediv_1000 [JInt 1609459200000; JInt 1609459200123; JInt (-1);
                    JFloat 1500; JStr "1"]
  = [Ok 1609459200%float; Ok 1609459200.123%float; Ok (-0.001)%float;
     Ok 1.5%float; Raise TypeError].
Proof. vm_compute. reflexivity. Qed.

Example registry_population_ok :
  _initialize_trading_pair_symbols_from_exchange_info ascii_upper exchange_info_ok empty_connector
  = (Ok tt,
     {| _symbol_to_id_map := {[ "BTCUSDT" := JInt 4; "ethUSDT" := JInt 7 ]};
        _trading_pair_symbol_map :=
          Some {| fwdm := {[ "BTCUSDT" := "BTC-USDT"; "ethUSDT" := "ETH-USDT" ]};
                  invm := {[ "BTC-USDT" := "BTCUSDT"; "ETH-USDT" := "ethUSDT" ]} |} |}).
Proof. vm_compute. reflexivity. Qed.

Example registry_population_error_code :
  _initialize_trading_pair_symbols_from_exchange_info ascii_upper exchange_info_error
    empty_connector
  = (Ok tt, empty_connector).
Proof. vm_compute. reflexivity. Qed.

(** * Further properties of the connector *)

(** ** The snapshot request *)

Lemma exchange_symbol_raises_key_error
    (connector : CoinstoreExchange) (trading_pair : string) (e : exn) :
  exchange_symbol_associated_to_pair connector trading_pair = Raise e -> e = KeyError.
Proof.
  unfold exchange_symbol_associated_to_pair.
  destruct (_trading_pair_symbol_map connector) as [m|]; [|congruence].
  destruct (invm m !! trading_pair); congruence.
Qed.

(** X1: [_request_order_book_snapshot] sends no request, whatever the
    instrument and the transport. An instrument the registry does not
    resolve raises [KeyError]; for a resolved one, a data source built
    without a factory raises [AttributeError], a factory that raises on
    [get_rest_assistant] raises that, and with an assistant at hand the URL
    is formatted, which raises [KeyError] since the depth path names its
    field [{symbol}] and [format] is given the symbol as a positional
    argument: [execute_request] is never called. *)
Theorem request_order_book_snapshot_raises
    (format_beyond : string -> list string -> outcome string)
    (self : CoinstoreAPIOrderBookDataSource) (trading_pair : string) :
  let request := _request_order_book_snapshot format_beyond self trading_pair in
  match exchange_symbol_associated_to_pair (_connector self) trading_pair with
  | Raise e => e = KeyError /\ request = Raises KeyError
  | Ok symbol =>
      match _api_factory self with
      | None => request = Raises AttributeError
      | Some api_factory =>
          match get_rest_assistant api_factory with
          | Returns rest_assistant => request = Raises KeyError
          | Raises e => request = Raises e
          | RaisesIndexError => request = RaisesIndexError
          end
      end
  end.
Proof.
  unfold _request_order_book_snapshot.
  destruct (exchange_symbol_associated_to_pair _ trading_pair) as [symbol|e] eqn:E.
  - destruct (_api_factory self) as [api_factory|]; [|reflexivity].
    destruct (get_rest_assistant api_factory) as [rest_assistant|e|];
      reflexivity.
  - apply exchange_symbol_raises_key_error in E. subst. split; reflexivity.
Qed.

(** A template whose field is positional does take the symbol. *)
Example format_positional_field :
  str_format (fun _ _ => Raises ValueError) "/v1/market/depth/{}" ["BTCUSDT"]
  = Returns "/v1/market/depth/BTCUSDT".
Proof. reflexivity. Qed.

(** ** The trade normalizer on a batch with a bad entry *)

Lemma parse_message_raises
    (self : CoinstoreAPIOrderBookDataSource) (entry : json) (e : exn) (q : Queue) :
  entry_raises self entry e -> parse_message self entry q = (Raise e, q).
Proof.
  destruct entry; simpl; intros ->; reflexivity.
Qed.

(** X4: a batch is not all or nothing. When the entries [good] before a bad
    entry have the records [records], the trade normalizer puts these on the
    queue and then raises what the bad entry raises; the entries after it
    and the frame's own incremental payload are never parsed. *)
Theorem parse_trade_stops_at_bad_entry
    (self : CoinstoreAPIOrderBookDataSource) (frame : dict)
    (good rest : list json) (bad : json) (records : list OrderBookMessage)
    (e : exn) (q : Queue) :
  dict_item "data" frame = Ok (JList (good ++ bad :: rest)) ->
  entries_records self good records ->
  entry_raises self bad e ->
  _parse_trade_message self frame q = (Raise e, q ++ records).
Proof.
  intros Hd Hgood Hbad. unfold _parse_trade_message. rewrite Hd. simpl.
  assert (H : forall q0, parse_each self (good ++ bad :: rest) q0
                         = (Raise e, q0 ++ records)).
  { clear Hd. induction Hgood as [|x r good records (msg & -> & Hr) _ IH];
      intros q0; simpl.
    - rewrite (parse_message_raises _ _ _ _ Hbad), app_nil_r. reflexivity.
    - rewrite (trade_record_message _ _ _ Hr). unfold put_nowait.
      rewrite IH, <- app_assoc. reflexivity. }
  rewrite H. reflexivity.
Qed.

Lemma parse_trade_stops_at_bad_entry_witness :
  _parse_trade_message btc_source frame_batch_with_bad_entry []
    = (Raise KeyError, [record_1]).
Proof.
  refine (parse_trade_stops_at_bad_entry btc_source frame_batch_with_bad_entry
            [JObj entry_1] [JObj entry_2] (JObj entry_without_price) [record_1]
            KeyError [] eq_refl _ eq_refl).
  repeat constructor. eexists. split; [reflexivity|exact entry_1_record].
Defined.

(** ** Subscription with an instrument the registry does not know *)

Lemma subscribe_loop_key_error (repr_other : json -> string)
    (connector : CoinstoreExchange) (trading_pairs : list string) :
  Exists (fun tp => registry_entry connector tp = None) trading_pairs ->
  forall channels,
    subscribe_loop repr_other connector trading_pairs channels = Raise KeyError.
Proof.
  induction trading_pairs as [|tp tps IH]; intros Hex channels.
  - inversion Hex.
  - simpl.
    destruct (exchange_symbol_associated_to_pair connector tp) as [symbol|e]
      eqn:Hs; simpl.
    + destruct (_symbol_to_id_map connector !! symbol) as [id|] eqn:Hid;
        [|reflexivity].
      apply IH. inversion Hex as [? ? H|? ? H]; subst; [|assumption].
      unfold registry_entry in H. rewrite Hs, Hid in H. discriminate.
    + apply exchange_symbol_raises_key_error in Hs. subst. reflexivity.
Qed.

(** X5: subscription is all or nothing. When one of the instruments has no
    registry entry (no venue symbol, or no channel id for it),
    [_subscribe_channels] raises [KeyError] and sends no frame, not even for
    the instruments listed before it. *)
Theorem subscribe_unregistered_sends_nothing (repr_other : json -> string)
    (self : CoinstoreAPIOrderBookDataSource) (ws : WSAssistant) :
  Exists (fun tp => registry_entry (_connector self) tp = None) (_trading_pairs self) ->
  _subscribe_channels repr_other self ws = (Raise KeyError, ws).
Proof.
  intros H. unfold _subscribe_channels.
  rewrite (subscribe_loop_key_error repr_other _ _ H). reflexivity.
Qed.

Lemma subscribe_unregistered_sends_nothing_witness :
  _subscribe_channels (fun _ => "") doge_source [JStr "earlier"]
    = (Raise KeyError, [JStr "earlier"]).
Proof.
  apply (subscribe_unregistered_sends_nothing (fun _ => "") doge_source
           [JStr "earlier"]).
  apply Exists_cons_tl, Exists_cons_hd. reflexivity.
Defined.

(** ** The signed parameters *)

Lemma dict_has_set_ne (key key' : string) (v : json) (d : dict) :
  key <> key' -> dict_has key' (dict_set key v d) = dict_has key' d.
Proof.
  intros Hne. unfold dict_has. induction d as [|[k w] d IH]; simpl.
  - destruct (String.eqb_spec key key'); [contradiction|reflexivity].
  - destruct (String.eqb_spec k key) as [->|Hk]; simpl; [reflexivity|].
    rewrite IH. reflexivity.
Qed.

Lemma caller_params_set (key : string) (v : json) (d : dict) :
  key = "timestamp" \/ key = "signature" ->
  caller_params (dict_set key v d) = caller_params d.
Proof.
  intros Hkey. unfold caller_params.
  assert (Hx : negb (String.eqb key "timestamp" || String.eqb key "signature") = false)
    by (destruct Hkey as [-> | ->]; reflexivity).
  induction d as [|[k w] d IH]; simpl.
  - rewrite Hx. reflexivity.
  - destruct (String.eqb_spec k key) as [->|Hk]; simpl.
    + rewrite Hx. reflexivity.
    + rewrite IH. reflexivity.
Qed.

Section SignedParameters.

Variable repr_other : json -> string.

(** X6: signing adds and changes nothing but its own two keys. In the
    signed parameters every parameter of the caller other than [timestamp]
    and [signature] stands with its value and in its order; [timestamp] is
    the integer timestamp of the signer's clock, and [signature] is 64
    characters of text. *)
Theorem add_auth_keeps_caller_params
    (self : CoinstoreAuth) (params : option dict) (out : dict) :
  add_auth_to_params repr_other self params = Ok out ->
  caller_params out = caller_params (or_empty params) /\
  (exists ts, auth_timestamp self = Ok ts /\ dict_get "timestamp" out = JInt ts) /\
  (exists sig, dict_get "signature" out = JStr sig /\ String.length sig = 64%nat).
Proof.
  unfold add_auth_to_params.
  destruct (auth_timestamp self) as [ts|e]; simpl; [|discriminate].
  intros [= <-]. fold (or_empty params). split; [|split].
  - rewrite !caller_params_set by auto. reflexivity.
  - exists ts. split; [reflexivity|].
    rewrite dict_get_set_ne by discriminate. apply dict_get_set_eq.
  - eexists. split; [apply dict_get_set_eq|apply generate_signature_hex].
Qed.

(** X7: when the caller passes no [signature] of its own, the signature is
    the last of the signed parameters and signs exactly the parameters
    before it: a verifier that takes the last item off and signs the rest
    with the same secret finds the same text. *)
Theorem signature_signs_what_precedes_it
    (self : CoinstoreAuth) (params : option dict) (out : dict) :
  dict_has "signature" (or_empty params) = false ->
  add_auth_to_params repr_other self params = Ok out ->
  exists signed,
    out = signed ++ [("signature", JStr (_generate_signature repr_other self signed))] /\
    dict_has "signature" signed = false /\
    caller_params signed = caller_params (or_empty params).
Proof.
  intros Hno. unfold add_auth_to_params.
  destruct (auth_timestamp self) as [ts|e]; simpl; [|discriminate].
  intros [= <-]. fold (or_empty params).
  exists (dict_set "timestamp" (JInt ts) (or_empty params)).
  assert (H : dict_has "signature" (dict_set "timestamp" (JInt ts) (or_empty params))
              = false)
    by (rewrite dict_has_set_ne by discriminate; exact Hno).
  split; [apply dict_set_absent; exact H|]. split; [exact H|].
  apply caller_params_set. auto.
Qed.

End SignedParameters.

Lemma add_auth_keeps_caller_params_witness :
  caller_params
    (order_params
     ++ [("timestamp", JInt 1609459200123);
         ("signature",
          JStr "3b2770ef1fdcbeba80429e50a2e02550324f4d8f3c0c8e047927087602687b5a")])
  = caller_params order_params.
Proof.
  refine (proj1 (add_auth_keeps_caller_params (fun _ => "") signer_1
                   (Some order_params) _ _)).
  vm_compute. reflexivity.
Defined.

Lemma signature_signs_what_precedes_it_witness :
  exists signed,
    order_params
    ++ [("timestamp", JInt 1609459200123);
        ("signature",
         JStr "3b2770ef1fdcbeba80429e50a2e02550324f4d8f3c0c8e047927087602687b5a")]
    = signed ++ [("signature", JStr (_generate_signature (fun _ => "") signer_1 signed))] /\
    dict_has "signature" signed = false /\
    caller_params signed = caller_params (or_empty (Some order_params)).
Proof.
  refine (signature_signs_what_precedes_it (fun _ => "") signer_1
            (Some order_params) _ eq_refl _).
  vm_compute. reflexivity.
Defined.

(** ** Headers *)

Lemma headers_get_set_eq (key val : string) (h : Headers) :
  headers_get key (headers_set key val h) = Some val.
Proof.
  induction h as [|[k w] h IH]; simpl.
  - rewrite String.eqb_refl. reflexivity.
  - destruct (String.eqb k key) eqn:E; simpl; rewrite E; [reflexivity|exact IH].
Qed.

Lemma headers_get_set_ne (key key' val : string) (h : Headers) :
  key <> key' -> headers_get key' (headers_set key val h) = headers_get key' h.
Proof.
  intros Hne. induction h as [|[k w] h IH]; simpl.
  - destruct (String.eqb_spec key key'); [contradiction|reflexivity].
  - destruct (String.eqb_spec k key) as [->|Hk]; simpl.
    + destruct (String.eqb_spec key key'); [contradiction|reflexivity].
    + rewrite IH. reflexivity.
Qed.

Lemma headers_set_same (key val : string) (h : Headers) :
  headers_get key h = Some val -> headers_set key val h = h.
Proof.
  induction h as [|[k w] h IH]; simpl; [discriminate|].
  destruct (String.eqb_spec k key) as [->|Hk].
  - intros [= ->]. reflexivity.
  - intros H. rewrite IH by assumption. reflexivity.
Qed.

(** X8: after [pre_process] the request asks for and sends JSON, whatever
    its headers said before: [Accept] and [Content-Type] are
    [application/json], every other header is as it was, nothing else of
    the request changes, and processing a request twice is processing it
    once. *)
Theorem pre_process_sets_json_headers (request : RESTRequest) :
  headers_get "Accept" (request_headers (pre_process request))
    = Some "application/json" /\
  headers_get "Content-Type" (request_headers (pre_process request))
    = Some "application/json" /\
  (forall key, key <> "Accept" -> key <> "Content-Type" ->
     headers_get key (request_headers (pre_process request))
       = headers_get key (request_headers request)) /\
  (method (pre_process request), params (pre_process request), data (pre_process request))
    = (method request, params request, data request) /\
  pre_process (pre_process request) = pre_process request.
Proof.
  unfold pre_process, request_headers, headers_update. simpl.
  set (h := match headers request with Some h => h | None => [] end).
  split; [|split; [|split; [|split]]].
  - rewrite headers_get_set_ne by discriminate. apply headers_get_set_eq.
  - apply headers_get_set_eq.
  - intros key H1 H2. rewrite !headers_get_set_ne by congruence. reflexivity.
  - reflexivity.
  - f_equal. f_equal.
    rewrite (headers_set_same "Accept" "application/json").
    + apply headers_set_same, headers_get_set_eq.
    + rewrite headers_get_set_ne by discriminate. apply headers_get_set_eq.
Qed.

(** Setting the items of a dict with distinct keys into the empty dict gives
    the dict back. *)
Lemma headers_set_fresh (key val : string) (h : Headers) :
  ~ In key (map fst h) -> headers_set key val h = h ++ [(key, val)].
Proof.
  induction h as [|[k w] h IH]; simpl; [reflexivity|].
  intros Hnot. destruct (String.eqb_spec k key) as [->|Hk]; [tauto|].
  rewrite IH by tauto. reflexivity.
Qed.

Lemma headers_update_distinct (new : Headers) :
  forall h, NoDup (map fst new) ->
            (forall k, In k (map fst new) -> ~ In k (map fst h)) ->
            headers_update h new = h ++ new.
Proof.
  unfold headers_update.
  induction new as [|[k v] new IH]; intros h Hnd Hdis; simpl.
  - rewrite app_nil_r. reflexivity.
  - inversion Hnd as [|? ? Hk Hnd']; subst.
    rewrite headers_set_fresh by (apply Hdis; left; reflexivity).
    rewrite IH; [rewrite <- app_assoc; reflexivity|assumption|].
    intros k' Hin. rewrite map_app, in_app_iff. simpl.
    intros [H|[H|[]]]; [exact (Hdis k' (or_intror Hin) H)|].
    subst. apply Hk, list_elem_of_In. exact Hin.
Qed.

Lemma copied_headers (request_headers : option Headers) :
  NoDup (map fst (match request_headers with Some h => h | None => [] end)) ->
  match request_headers with
  | Some h => headers_update [] h
  | None => []
  end
  = match request_headers with Some h => h | None => [] end.
Proof.
  intros Hnd. destruct request_headers as [h|]; [|reflexivity].
  apply (headers_update_distinct h []); [assumption|intros k _ []].
Qed.

Section RequestSigningProperties.

Variable repr_other : json -> string.
Variable json_loads : string -> result json.
Variable ordered_dict_of_pairs : list json -> result dict.

(** X9: what [rest_authenticate] writes. On a request whose headers are a
    dict, a successful call leaves the method as it was and sets the
    [X-COINSTORE-APIKEY] header to the API key, replacing in place a header
    of that name and keeping every other header. For a POST the body must
    be text that decodes: the decoded body is signed and becomes the body,
    and the query parameters are left unsigned; for any other method the
    query parameters are signed and the body is left as it was. *)
Theorem rest_authenticate_writes
    (self : CoinstoreAuth) (request request' : RESTRequest) :
  NoDup (map fst (request_headers request)) ->
  rest_authenticate repr_other json_loads ordered_dict_of_pairs self request
    = Ok request' ->
  method request' = method request /\
  headers request'
    = Some (headers_set API_KEY_HEADER (api_key self) (request_headers request)) /\
  match method request with
  | POST =>
      params request' = params request /\
      exists text decoded signed,
        data request = JStr text /\
        json_loads text = Ok decoded /\
        add_auth_to_body repr_other ordered_dict_of_pairs self decoded = Ok signed /\
        data request' = JObj signed
  | _ =>
      data request' = data request /\
      exists signed,
        add_auth_to_params repr_other self (params request) = Ok signed /\
        params request' = Some signed
  end.
Proof.
  intros Hnd. unfold rest_authenticate.
  destruct (method request) eqn:Hm.
  2: { destruct (data request) as [| | | |text| |] eqn:Hd;
         cbn [rbind]; try discriminate.
       destruct (json_loads text) as [decoded|e] eqn:Hl; cbn [rbind]; [|discriminate].
       destruct (add_auth_to_body _ _ self decoded) as [signed|e] eqn:Hs;
         cbn [rbind]; [|discriminate].
       intros [= <-]. cbn [with_headers method params data headers].
       rewrite (copied_headers (headers request) Hnd).
       repeat split; try assumption. exists text, decoded, signed. auto. }
  all: destruct (add_auth_to_params repr_other self (params request))
         as [signed|e] eqn:Hs; cbn [rbind]; [|discriminate];
       intros [= <-]; cbn [with_headers method params data headers];
       rewrite (copied_headers (headers request) Hnd);
       repeat split; try assumption; exists signed; auto.
Qed.

End RequestSigningProperties.

Lemma rest_authenticate_writes_witness :
  exists request',
    rest_authenticate (fun _ => "") (fun _ => Ok (JObj [])) (fun _ => Raise TypeError)
      signer_1 get_request = Ok request' /\
    headers request'
      = Some [("Accept", "text/plain"); ("X-COINSTORE-APIKEY", "key-one")] /\
    data request' = JNull.
Proof.
  eexists. split; [vm_compute; reflexivity|].
  destruct (rest_authenticate_writes (fun _ => "") (fun _ => Ok (JObj []))
              (fun _ => Raise TypeError) signer_1 get_request _
              ltac:(apply (bool_decide_unpack _); vm_compute; exact I)
              ltac:(vm_compute; reflexivity))
    as (_ & Hh & Hd & _).
  split; [exact Hh|exact Hd].
Defined.

(** A POST whose body is not text cannot be signed. *)
Example post_without_body :
  rest_authenticate (fun _ => "") (fun _ => Ok (JObj [])) (fun _ => Raise TypeError)
    signer_1 {| method := POST; params := Some order_params; data := JNull;
                headers := None |}
  = Raise TypeError.
Proof. reflexivity. Qed.

(** ** Exchange information *)

Lemma any_spot_lists (sets : list json) :
  Forall (fun ps => exists l, ps = JList l) sets ->
  any_spot sets = Ok (existsb lists_spot sets).
Proof.
  induction 1 as [|ps sets [l ->] _ IH]; simpl; [reflexivity|].
  destruct (existsb (fun x => py_eq_str x "SPOT") l); [reflexivity|exact IH].
Qed.

(** X10: for exchange information whose permission sets are a list of
    lists, [is_exchange_information_valid] returns, without raising,
    whether the status is ["TRADING"] and some permission set names
    ["SPOT"]; without a [permissionSets] field it returns [False]. *)
Theorem exchange_information_valid_iff (exchange_info : dict) (sets : list json) :
  Forall (fun ps => exists l, ps = JList l) sets ->
  (dict_item "permissionSets" exchange_info = Ok (JList sets) ->
   is_exchange_information_valid exchange_info
     = Ok (py_eq_str (dict_get "status" exchange_info) "TRADING"
           && existsb lists_spot sets)) /\
  (dict_item "permissionSets" exchange_info = Raise KeyError ->
   is_exchange_information_valid exchange_info = Ok false).
Proof.
  intros Hsets. unfold is_exchange_information_valid. split; intros ->; simpl.
  - rewrite (any_spot_lists _ Hsets). reflexivity.
  - rewrite andb_false_r. reflexivity.
Qed.

Lemma exchange_information_valid_iff_witness :
  is_exchange_information_valid symbol_info_trading = Ok true.
Proof.
  refine (proj1 (exchange_information_valid_iff symbol_info_trading
                   [JList [JStr "MARGIN"]; JList [JStr "SPOT"; JStr "MARGIN"]] _)
            eq_refl).
  repeat constructor; eexists; reflexivity.
Defined.

(** ** The registry after population *)

Lemma bidict_empty_consistent : bidict_consistent bidict_empty.
Proof. intros k v. simpl. rewrite !lookup_empty. split; discriminate. Qed.

(** Binding a key keeps a symbol map one-to-one. *)
Lemma bidict_put_consistent (key val : string) (b b' : bidict) :
  bidict_consistent b -> bidict_put key val b = Ok b' -> bidict_consistent b'.
Proof.
  intros Hc. unfold bidict_put.
  destruct (fwdm b !! key) as [oldval|] eqn:Ek;
    destruct (invm b !! val) as [oldkey|] eqn:Ev; try discriminate.
  - destruct (String.eqb oldkey key); [|discriminate]. intros [= <-]. exact Hc.
  - intros [= <-] k v. simpl. rewrite !lookup_insert.
    destruct (decide (key = k)) as [<-|Hk]; destruct (decide (val = v)) as [<-|Hv].
    + tauto.
    + split; [congruence|]. rewrite lookup_delete. case_decide as Ho; [discriminate|].
      intros Hx. apply Hc in Hx. congruence.
    + split; [|congruence]. intros H. apply Hc in H. congruence.
    + rewrite lookup_delete. case_decide as Ho.
      * split; [|discriminate]. intros H. subst. apply Hc in H.
        apply Hc in Ek. congruence.
      * apply Hc.
  - intros [= <-] k v. simpl. rewrite !lookup_insert.
    destruct (decide (key = k)) as [<-|Hk]; destruct (decide (val = v)) as [<-|Hv].
    + tauto.
    + split; [congruence|]. intros H. apply Hc in H. congruence.
    + split; [|congruence]. intros H. apply Hc in H. congruence.
    + apply Hc.
Qed.

(** A binding made stays: a later binding of another key cannot take it,
    and binding the key again to the same value changes nothing. *)
Lemma bidict_put_keeps (key val : string) (b b' : bidict) :
  bidict_consistent b ->
  (forall v, fwdm b !! key = Some v -> v = val) ->
  bidict_put key val b = Ok b' ->
  fwdm b' !! key = Some val /\
  forall k v, fwdm b !! k = Some v -> fwdm b' !! k = Some v.
Proof.
  intros Hc Hsame. unfold bidict_put.
  destruct (fwdm b !! key) as [oldval|] eqn:Ek;
    destruct (invm b !! val) as [oldkey|] eqn:Ev; try discriminate.
  - destruct (String.eqb oldkey key); [|discriminate]. intros [= <-].
    rewrite Ek, (Hsame oldval eq_refl). auto.
  - rewrite <- (Hsame oldval eq_refl) in Ev. apply Hc in Ek. congruence.
  - intros [= <-]. simpl. rewrite lookup_insert_eq. split; [reflexivity|].
    intros k v Hkv. rewrite lookup_insert_ne by congruence. exact Hkv.
Qed.

Lemma bidict_put_lookup (key val : string) (b b' : bidict) :
  bidict_put key val b = Ok b' ->
  forall k v, fwdm b' !! k = Some v -> (k = key /\ v = val) \/ fwdm b !! k = Some v.
Proof.
  unfold bidict_put.
  destruct (fwdm b !! key) as [oldval|] eqn:Ek;
    destruct (invm b !! val) as [oldkey|] eqn:Ev; try discriminate.
  - destruct (String.eqb oldkey key); [|discriminate]. intros [= <-]. auto.
  - intros [= <-] k v. simpl. rewrite lookup_insert.
    case_decide; [intros [= <-]; auto|auto].
  - intros [= <-] k v. simpl. rewrite lookup_insert.
    case_decide; [intros [= <-]; auto|auto].
Qed.

Lemma registry_inv_empty {upper : string -> string} :
  registry_inv upper bidict_empty.
Proof.
  split; [exact bidict_empty_consistent|].
  intros s p H. simpl in H. rewrite lookup_empty in H. discriminate.
Qed.

(** One turn of the loop that succeeds: bindings and channel ids made before
    stay, and the entry of the turn, when its symbol ends in [USDT], is
    bound and has its channel id. *)
Lemma install_symbol_ok {upper : string -> string} (symbol_data : json) (m m' : bidict)
    (ids ids' : gmap string json) :
  install_symbol upper symbol_data (m, ids) = Ok (m', ids') ->
  registry_inv upper m ->
  registry_inv upper m' /\
  (forall k v, fwdm m !! k = Some v -> fwdm m' !! k = Some v) /\
  (forall s, is_Some (ids !! s) -> is_Some (ids' !! s)) /\
  (forall s, subscript symbol_data "symbol" = Ok (JStr s) ->
             endswith s "USDT" = true ->
             is_Some (fwdm m' !! s) /\ is_Some (ids' !! s)).
Proof.
  unfold install_symbol. intros H [Hc Hp].
  destruct (subscript symbol_data "symbol") as [[| | | |exchange_symbol| |]|e];
    simpl in H; try discriminate.
  destruct (endswith exchange_symbol "USDT") eqn:Hends.
  - destruct (split exchange_symbol "USDT") as [|base_asset [|quote [|? ?]]] eqn:Hsplit;
      try discriminate.
    destruct (bidict_put _ _ m) as [m1|e] eqn:Hput; simpl in H; [|discriminate].
    destruct (subscript symbol_data "id") as [id|e]; simpl in H; [|discriminate].
    injection H as <- <-.
    assert (Hpair : pair_of_symbol upper exchange_symbol
                    = Some (combine_to_hb_trading_pair (upper base_asset) "USDT"))
      by (unfold pair_of_symbol; rewrite Hsplit; reflexivity).
    assert (Hsame : forall v, fwdm m !! exchange_symbol = Some v ->
                    v = combine_to_hb_trading_pair (upper base_asset) "USDT")
      by (intros v Hv; apply Hp in Hv; destruct Hv; congruence).
    destruct (bidict_put_keeps _ _ _ _ Hc Hsame Hput) as [Hnew Hkeep].
    split; [split|split; [|split]].
    + eapply bidict_put_consistent; eassumption.
    + intros s p Hs. destruct (bidict_put_lookup _ _ _ _ Hput _ _ Hs) as [[-> ->]|Hold];
        [split; [exact Hpair|exact Hends]|apply Hp; exact Hold].
    + exact Hkeep.
    + intros s Hs. rewrite lookup_insert. case_decide; [eauto|exact Hs].
    + intros s [= <-] _. split; [eauto|]. rewrite lookup_insert_eq. eauto.
  - injection H as <- <-. split; [split; assumption|]. split; [auto|]. split; [auto|].
    intros s [= <-]. congruence.
Qed.

Lemma install_symbols_ok {upper : string -> string} (data_list : list json) :
  forall (m m' : bidict) (ids ids' : gmap string json),
    install_symbols upper data_list (m, ids) = (Ok tt, (m', ids')) ->
    registry_inv upper m ->
    registry_inv upper m' /\
    (forall k v, fwdm m !! k = Some v -> fwdm m' !! k = Some v) /\
    (forall s, is_Some (ids !! s) -> is_Some (ids' !! s)) /\
    (forall symbol_data s,
       In symbol_data data_list ->
       subscript symbol_data "symbol" = Ok (JStr s) ->
       endswith s "USDT" = true ->
       is_Some (fwdm m' !! s) /\ is_Some (ids' !! s)).
Proof.
  induction data_list as [|symbol_data rest IH]; intros m m' ids ids' H Hinv;
    cbn [install_symbols] in H.
  - injection H as <- <-. split; [exact Hinv|]. split; [auto|]. split; [auto|].
    intros ? ? [].
  - destruct (install_symbol upper symbol_data (m, ids)) as [[m1 ids1]|e] eqn:E;
      [|discriminate].
    destruct (install_symbol_ok _ _ _ _ _ E Hinv) as (Hinv1 & Hk1 & Hi1 & Hthis).
    destruct (IH _ _ _ _ H Hinv1) as (Hinv' & Hk & Hi & Hrest).
    split; [exact Hinv'|]. split; [auto|]. split; [auto|].
    intros sd s [<-|Hin] Hs Hends.
    + destruct (Hthis s Hs Hends) as [[p Hp] Hid]. split; [eauto|auto].
    + eapply Hrest; eassumption.
Qed.

(** Channel ids are only added or rewritten, never removed, whatever the
    outcome of the loop. *)
Lemma install_symbols_keeps_ids {upper : string -> string} (data_list : list json) :
  forall (st : init_state) (s : string),
    is_Some (snd st !! s) ->
    is_Some (snd (snd (install_symbols upper data_list st)) !! s).
Proof.
  induction data_list as [|symbol_data rest IH]; intros [m ids] s Hs;
    cbn [install_symbols]; [exact Hs|].
  destruct (install_symbol upper symbol_data (m, ids)) as [[m1 ids1]|e] eqn:E;
    [|exact Hs].
  apply IH. simpl. revert E. unfold install_symbol.
  destruct (subscript symbol_data "symbol") as [[| | | |x| |]|e]; simpl;
    try discriminate.
  destruct (endswith x "USDT"); [|intros [= <- <-]; exact Hs].
  destruct (split x "USDT") as [|b [|q [|? ?]]]; try discriminate.
  destruct (bidict_put _ _ m) as [m2|e]; simpl; [|discriminate].
  destruct (subscript symbol_data "id") as [id|e]; simpl; [|discriminate].
  intros [= <- <-]. rewrite lookup_insert. case_decide; [eauto|exact Hs].
Qed.

(** What a successful population leaves in the connector. *)
Lemma initialize_ok {upper : string -> string}
    (exchange_info : dict) (self self' : CoinstoreExchange) :
  _initialize_trading_pair_symbols_from_exchange_info upper exchange_info self
    = (Ok tt, self') ->
  py_eq_zero (dict_get "code" exchange_info) = true ->
  exists data_list m,
    py_iter (dict_get "data" exchange_info) = Ok data_list /\
    install_symbols upper data_list (bidict_empty, _symbol_to_id_map self)
      = (Ok tt, (m, _symbol_to_id_map self')) /\
    _trading_pair_symbol_map self' = Some m.
Proof.
  unfold _initialize_trading_pair_symbols_from_exchange_info. intros H Hcode.
  rewrite Hcode in H. simpl in H.
  destruct (py_iter (dict_get "data" exchange_info)) as [data_list|e];
    [|discriminate].
  destruct (install_symbols upper data_list (bidict_empty, _symbol_to_id_map self))
    as [[[]|e] [m ids]] eqn:E; [|discriminate].
  injection H as <-. exists data_list, m. auto.
Qed.

(** X11: the registry a successful population installs is one-to-one: the
    venue symbol [s] resolves to the instrument [p] exactly when the
    instrument [p] resolves to the venue symbol [s]. *)
Theorem populated_registry_round_trip {upper : string -> string}
    (exchange_info : dict) (self self' : CoinstoreExchange) :
  _initialize_trading_pair_symbols_from_exchange_info upper exchange_info self
    = (Ok tt, self') ->
  py_eq_zero (dict_get "code" exchange_info) = true ->
  forall s p,
    trading_pair_associated_to_exchange_symbol self' (JStr s) = Ok p <->
    exchange_symbol_associated_to_pair self' p = Ok s.
Proof.
  intros H Hcode s p.
  destruct (initialize_ok _ _ _ H Hcode) as (data_list & m & _ & Hinst & Hmap).
  destruct (install_symbols_ok _ _ _ _ _ Hinst registry_inv_empty) as ([Hc _] & _).
  unfold trading_pair_associated_to_exchange_symbol,
    exchange_symbol_associated_to_pair. rewrite Hmap.
  split; intros H0.
  - destruct (fwdm m !! s) as [p'|] eqn:Ef; [|discriminate].
    injection H0 as ->. apply Hc in Ef. rewrite Ef. reflexivity.
  - destruct (invm m !! p) as [s'|] eqn:Ei; [|discriminate].
    injection H0 as ->. apply Hc in Ei. rewrite Ei. reflexivity.
Qed.

(** ** Splitting a venue symbol *)

Lemma append_nil_l (s : string) : "" +:+ s = s.
Proof. reflexivity. Qed.

Lemma append_cons (c : ascii) (s t : string) :
  String c s +:+ t = String c (s +:+ t).
Proof. reflexivity. Qed.

Lemma append_nil_r (s : string) : s +:+ "" = s.
Proof. induction s as [|c s IH]; [reflexivity|]. rewrite append_cons, IH. reflexivity. Qed.

Lemma append_assoc (s t u : string) : (s +:+ t) +:+ u = s +:+ t +:+ u.
Proof.
  induction s as [|c s IH]; [reflexivity|]. rewrite !append_cons, IH. reflexivity.
Qed.

Lemma prefix_app (sep s : string) :
  String.prefix sep s = true -> exists rest, s = sep +:+ rest.
Proof.
  revert s. induction sep as [|c sep IH]; intros s H.
  - exists s. reflexivity.
  - destruct s as [|c' s]; simpl in H; [discriminate|].
    destruct (Ascii.ascii_dec c c') as [->|]; [|discriminate].
    destruct (IH _ H) as [rest ->]. exists rest. reflexivity.
Qed.

Lemma split_go_not_nil (sep s : string) :
  forall skip cur, split_go sep s skip cur <> [].
Proof.
  induction s as [|c s IH]; intros skip cur; cbn [split_go]; [discriminate|].
  destruct skip; [|apply IH].
  destruct (String.prefix sep (String c s)); [discriminate|apply IH].
Qed.

(** A scan that ends with one piece met the separator nowhere past the
    bytes it had to skip. *)
Lemma split_go_single (sep s : string) :
  sep <> "" ->
  forall skip cur q,
    split_go sep s skip cur = [q] ->
    forall pre rest, s = pre +:+ rest -> (skip <= String.length pre)%nat ->
      String.prefix sep rest = false.
Proof.
  intros Hsep. induction s as [|c s IH]; intros skip cur q H pre rest Hs Hlen.
  - destruct pre; [|discriminate]. rewrite append_nil_l in Hs. subst rest.
    destruct sep; [contradiction|reflexivity].
  - cbn [split_go] in H. destruct skip as [|n].
    + destruct (String.prefix sep (String c s)) eqn:Hp.
      * injection H as _ H. exfalso. exact (split_go_not_nil _ _ _ _ H).
      * destruct pre as [|c' pre].
        -- rewrite append_nil_l in Hs. subst rest. exact Hp.
        -- rewrite append_cons in Hs. injection Hs as _ Hs. eapply (IH 0%nat); [exact H|exact Hs|simpl; lia].
    + destruct pre as [|c' pre]; simpl in Hlen; [lia|].
      rewrite append_cons in Hs. injection Hs as _ Hs.
      eapply (IH n); [exact H|exact Hs|lia].
Qed.

(** A scan that ends with two pieces: the first piece is what was read up to
    the first match, and the scan after the match gives the second. *)
Lemma split_go_two (sep s : string) :
  forall cur b q,
    split_go sep s 0 cur = [b; q] ->
    exists pre c t,
      s = pre +:+ String c t /\ b = cur +:+ pre /\
      String.prefix sep (String c t) = true /\
      split_go sep t (String.length sep - 1) "" = [q].
Proof.
  induction s as [|c s IH]; intros cur b q H; cbn [split_go] in H; [discriminate|].
  destruct (String.prefix sep (String c s)) eqn:Hp.
  - injection H as <- H. exists "", c, s. rewrite append_nil_r. auto.
  - destruct (IH _ _ _ H) as (pre & c' & t & -> & -> & Hp' & Hq).
    exists (String c pre), c', t. rewrite append_assoc. auto.
Qed.

Lemma substring_all (s : string) : substring 0 (String.length s) s = s.
Proof. induction s as [|c s IH]; [reflexivity|]. simpl. rewrite IH. reflexivity. Qed.

Lemma substring_tail (n : nat) :
  forall s, (n <= String.length s)%nat ->
    exists p, s = p +:+ substring n (String.length s - n) s.
Proof.
  induction n as [|n IH]; intros s Hn.
  - exists "". rewrite Nat.sub_0_r, substring_all. reflexivity.
  - destruct s as [|c s]; simpl in Hn; [lia|].
    destruct (IH s ltac:(lia)) as [p Hp]. exists (String c p).
    rewrite append_cons. simpl. rewrite <- Hp. reflexivity.
Qed.

Lemma endswith_app (s suffix : string) :
  endswith s suffix = true -> exists p, s = p +:+ suffix.
Proof.
  unfold endswith. intros H. apply andb_prop in H as [Hk He].
  apply Nat.leb_le in Hk. apply String.eqb_eq in He.
  destruct (substring_tail (String.length s - String.length suffix) s ltac:(lia))
    as [p Hp].
  replace (String.length s - (String.length s - String.length suffix))%nat
    with (String.length suffix) in Hp by lia.
  rewrite He in Hp. eauto.
Qed.

Lemma list_ascii_of_append (s t : string) :
  list_ascii_of_string (s +:+ t) = list_ascii_of_string s ++ list_ascii_of_string t.
Proof.
  induction s as [|c s IH]; [reflexivity|].
  rewrite append_cons. simpl. rewrite IH. reflexivity.
Qed.

Lemma string_of_list_append (l : list ascii) (t : string) :
  string_of_list_ascii (l ++ list_ascii_of_string t) = string_of_list_ascii l +:+ t.
Proof.
  induction l as [|a l IH]; simpl.
  - apply string_of_list_ascii_of_string.
  - rewrite IH. reflexivity.
Qed.

(** A venue symbol that ends in [USDT] and splits in two at [USDT] is its
    first piece followed by [USDT]: the quote occurs once, at the end. *)
Lemma split_usdt_suffix (s base_asset quote_asset : string) :
  endswith s "USDT" = true ->
  split s "USDT" = [base_asset; quote_asset] ->
  s = base_asset +:+ "USDT" /\ quote_asset = "".
Proof.
  intros Hends Hsplit.
  destruct (split_go_two _ _ _ _ _ Hsplit) as (pre & c & t & Hs & Hb & Hp & Hq).
  rewrite append_nil_l in Hb. subst base_asset.
  destruct (prefix_app _ _ Hp) as [rest Hrest].
  rewrite !append_cons, append_nil_l in Hrest. injection Hrest as -> ->.
  assert (Hnone : forall pre2 rest2, rest = pre2 +:+ rest2 ->
                    String.prefix "USDT" rest2 = false).
  { intros pre2 rest2 Hr.
    apply (split_go_single "USDT" _ ltac:(discriminate) _ _ _ Hq ("SDT" +:+ pre2)).
    - rewrite Hr, !append_cons, append_nil_l. reflexivity.
    - rewrite !append_cons. simpl. lia. }
  destruct (endswith_app _ _ Hends) as [p Hp'].
  assert (Hl : list_ascii_of_string p ++ list_ascii_of_string "USDT"
               = (list_ascii_of_string pre ++ list_ascii_of_string "USDT")
                 ++ list_ascii_of_string rest).
  { rewrite <- !list_ascii_of_append, append_assoc, <- Hp'. f_equal. exact Hs. }
  apply List.app_eq_app in Hl as [l [[Hl1 Hl2]|[Hl1 Hl2]]].
  - exfalso.
    apply (f_equal string_of_list_ascii) in Hl2.
    rewrite string_of_list_ascii_of_string in Hl2.
    specialize (Hnone (string_of_list_ascii l) "USDT").
    rewrite Hl2 in Hnone.
    specialize (Hnone (string_of_list_append l "USDT")). discriminate.
  - assert (Hrev : forall (x y : list ascii) (a b : ascii),
              x ++ [a] = y ++ [b] -> a = b)
      by (intros x y a b Hxy; apply app_inj_tail in Hxy; tauto).
    change (list_ascii_of_string "USDT")
      with ["U"; "S"; "D"; "T"]%char in Hl1, Hl2.
    destruct l as [|a1 [|a2 [|a3 [|a4 [|a5 l]]]]]; simpl in Hl2.
    + exfalso. apply (f_equal string_of_list_ascii) in Hl2.
      rewrite string_of_list_ascii_of_string in Hl2. simpl in Hl2.
      specialize (Hnone "" rest ltac:(reflexivity)). rewrite <- Hl2 in Hnone.
      discriminate.
    + exfalso. injection Hl2 as <- _.
      specialize (Hrev (list_ascii_of_string pre ++ ["U"; "S"; "D"]%char)
                       (list_ascii_of_string p) "T"%char "U"%char).
      rewrite <- app_assoc in Hrev. specialize (Hrev Hl1). discriminate.
    + exfalso. injection Hl2 as <- <- _.
      specialize (Hrev (list_ascii_of_string pre ++ ["U"; "S"; "D"]%char)
                       (list_ascii_of_string p ++ ["U"]%char) "T"%char "S"%char).
      rewrite <- !app_assoc in Hrev. specialize (Hrev Hl1). discriminate.
    + exfalso. injection Hl2 as <- <- <- _.
      specialize (Hrev (list_ascii_of_string pre ++ ["U"; "S"; "D"]%char)
                       (list_ascii_of_string p ++ ["U"; "S"]%char) "T"%char "D"%char).
      rewrite <- !app_assoc in Hrev. specialize (Hrev Hl1). discriminate.
    + injection Hl2 as _ _ _ _ Hl2.
      apply (f_equal string_of_list_ascii) in Hl2.
      rewrite string_of_list_ascii_of_string in Hl2. simpl in Hl2. subst rest.
      cbv in Hq. injection Hq as <-. rewrite Hs. split; reflexivity.
    + discriminate.
Qed.

(** ** What a population leaves in the registry *)

Lemma populated_registry_round_trip_witness :
  let self' :=
    snd (_initialize_trading_pair_symbols_from_exchange_info ascii_upper
           exchange_info_ok empty_connector) in
  trading_pair_associated_to_exchange_symbol self' (JStr "ethUSDT") = Ok "ETH-USDT" <->
  exchange_symbol_associated_to_pair self' "ETH-USDT" = Ok "ethUSDT".
Proof.
  apply (populated_registry_round_trip (upper:=ascii_upper)
           exchange_info_ok empty_connector);
    vm_compute; reflexivity.
Defined.

(** X12: in the registry a successful population installs, a venue symbol
    that resolves is a base asset followed by [USDT], with no other
    occurrence of [USDT], and its instrument is the base asset in upper case
    combined with [USDT]. *)
Theorem populated_registry_pair_form {upper : string -> string}
    (exchange_info : dict) (self self' : CoinstoreExchange) :
  _initialize_trading_pair_symbols_from_exchange_info upper exchange_info self
    = (Ok tt, self') ->
  py_eq_zero (dict_get "code" exchange_info) = true ->
  forall s p,
    trading_pair_associated_to_exchange_symbol self' (JStr s) = Ok p ->
    exists base_asset,
      s = base_asset +:+ "USDT" /\
      split s "USDT" = [base_asset; ""] /\
      p = combine_to_hb_trading_pair (upper base_asset) "USDT".
Proof.
  intros H Hcode s p Hres.
  destruct (initialize_ok _ _ _ H Hcode) as (data_list & m & _ & Hinst & Hmap).
  destruct (install_symbols_ok _ _ _ _ _ Hinst registry_inv_empty) as ([_ Hp] & _).
  unfold trading_pair_associated_to_exchange_symbol in Hres. rewrite Hmap in Hres.
  destruct (fwdm m !! s) as [p'|] eqn:Ef; [|discriminate]. injection Hres as ->.
  destruct (Hp _ _ Ef) as [Hpair Hends]. unfold pair_of_symbol in Hpair.
  destruct (split s "USDT") as [|base_asset [|quote_asset [|? ?]]] eqn:Hsplit;
    try discriminate.
  injection Hpair as <-. exists base_asset.
  destruct (split_usdt_suffix _ _ _ Hends Hsplit) as [Hs ->]. auto.
Qed.

Lemma populated_registry_pair_form_witness :
  exists base_asset,
    "ethUSDT" = base_asset +:+ "USDT" /\
    split "ethUSDT" "USDT" = [base_asset; ""] /\
    "ETH-USDT" = combine_to_hb_trading_pair (ascii_upper base_asset) "USDT".
Proof.
  apply (populated_registry_pair_form (upper:=ascii_upper)
           exchange_info_ok empty_connector
           (snd (_initialize_trading_pair_symbols_from_exchange_info ascii_upper
                   exchange_info_ok empty_connector)));
    vm_compute; reflexivity.
Defined.

(** X13: after a successful population every entry of the exchange
    information whose symbol ends in [USDT] can be subscribed to: its symbol
    resolves to an instrument, the instrument resolves back to the symbol,
    and the registry holds a channel id for the instrument. *)
Theorem populated_registry_covers_usdt_entries {upper : string -> string}
    (exchange_info : dict) (self self' : CoinstoreExchange)
    (data_list : list json) (symbol_data : json) (s : string) :
  _initialize_trading_pair_symbols_from_exchange_info upper exchange_info self
    = (Ok tt, self') ->
  py_eq_zero (dict_get "code" exchange_info) = true ->
  dict_get "data" exchange_info = JList data_list ->
  In symbol_data data_list ->
  subscript symbol_data "symbol" = Ok (JStr s) ->
  endswith s "USDT" = true ->
  exists p id,
    trading_pair_associated_to_exchange_symbol self' (JStr s) = Ok p /\
    exchange_symbol_associated_to_pair self' p = Ok s /\
    registry_entry self' p = Some id.
Proof.
  intros H Hcode Hdata Hin Hs Hends.
  destruct (initialize_ok _ _ _ H Hcode) as (l & m & Hl & Hinst & Hmap).
  rewrite Hdata in Hl. injection Hl as <-.
  destruct (install_symbols_ok _ _ _ _ _ Hinst registry_inv_empty)
    as ([Hc _] & _ & _ & Hall).
  destruct (Hall _ _ Hin Hs Hends) as [[p Hp] [id Hid]].
  assert (Hback : exchange_symbol_associated_to_pair self' p = Ok s).
  { unfold exchange_symbol_associated_to_pair. rewrite Hmap.
    apply Hc in Hp. rewrite Hp. reflexivity. }
  exists p, id. split; [|split; [exact Hback|]].
  - unfold trading_pair_associated_to_exchange_symbol. rewrite Hmap, Hp. reflexivity.
  - unfold registry_entry. rewrite Hback. exact Hid.
Qed.

Lemma populated_registry_covers_usdt_entries_witness :
  exists p id,
    let self' :=
      snd (_initialize_trading_pair_symbols_from_exchange_info ascii_upper
             exchange_info_ok empty_connector) in
    trading_pair_associated_to_exchange_symbol self' (JStr "ethUSDT") = Ok p /\
    exchange_symbol_associated_to_pair self' p = Ok "ethUSDT" /\
    registry_entry self' p = Some id.
Proof.
  apply (populated_registry_covers_usdt_entries (upper:=ascii_upper)
           exchange_info_ok empty_connector _
           [JObj [("symbol", JStr "BTCUSDT"); ("id", JInt 4)];
            JObj [("symbol", JStr "ETHBTC"); ("id", JInt 5)];
            JObj [("symbol", JStr "ethUSDT"); ("id", JInt 7)]]
           (JObj [("symbol", JStr "ethUSDT"); ("id", JInt 7)]) "ethUSDT");
    try (vm_compute; reflexivity).
  simpl. auto.
Defined.

(** X14: two entries of the exchange information whose symbols end in
    [USDT], differ, and give the same instrument (they differ in letter case
    only) make population fail: it raises, and never installs a symbol
    map. *)
Theorem population_fails_on_colliding_symbols {upper : string -> string}
    (exchange_info : dict) (self : CoinstoreExchange)
    (data_list : list json) (entry_1 entry_2 : json) (s1 s2 : string) :
  py_eq_zero (dict_get "code" exchange_info) = true ->
  dict_get "data" exchange_info = JList data_list ->
  In entry_1 data_list -> subscript entry_1 "symbol" = Ok (JStr s1) ->
  In entry_2 data_list -> subscript entry_2 "symbol" = Ok (JStr s2) ->
  endswith s1 "USDT" = true -> endswith s2 "USDT" = true ->
  s1 <> s2 -> pair_of_symbol upper s1 = pair_of_symbol upper s2 ->
  exists e self',
    _initialize_trading_pair_symbols_from_exchange_info upper exchange_info self
      = (Raise e, self') /\
    _trading_pair_symbol_map self' = _trading_pair_symbol_map self.
Proof.
  intros Hcode Hdata Hin1 Hs1 Hin2 Hs2 He1 He2 Hne Hpair.
  destruct (_initialize_trading_pair_symbols_from_exchange_info upper exchange_info self)
    as [[[]|e] self'] eqn:E.
  - exfalso. destruct (initialize_ok _ _ _ E Hcode) as (l & m & Hl & Hinst & Hmap).
    rewrite Hdata in Hl. injection Hl as <-.
    destruct (install_symbols_ok _ _ _ _ _ Hinst registry_inv_empty)
      as ([Hc Hp] & _ & _ & Hall).
    destruct (Hall _ _ Hin1 Hs1 He1) as [[p1 Hp1] _].
    destruct (Hall _ _ Hin2 Hs2 He2) as [[p2 Hp2] _].
    destruct (Hp _ _ Hp1) as [Hq1 _]. destruct (Hp _ _ Hp2) as [Hq2 _].
    assert (p1 = p2) by congruence. subst p2.
    apply Hc in Hp1. apply Hc in Hp2. congruence.
  - exists e, self'. split; [reflexivity|].
    revert E. unfold _initialize_trading_pair_symbols_from_exchange_info.
    rewrite Hcode, Hdata. simpl.
    destruct (install_symbols upper data_list (bidict_empty, _symbol_to_id_map self))
      as [[[]|e'] [m ids]]; intros [= <- <-]; reflexivity.
Qed.

Lemma population_fails_on_colliding_symbols_witness :
  exists e self',
    _initialize_trading_pair_symbols_from_exchange_info ascii_upper
      exchange_info_colliding empty_connector = (Raise e, self') /\
    _trading_pair_symbol_map self' = _trading_pair_symbol_map empty_connector.
Proof.
  apply (population_fails_on_colliding_symbols (upper:=ascii_upper)
           exchange_info_colliding empty_connector
           [JObj [("symbol", JStr "ETHUSDT"); ("id", JInt 7)];
            JObj [("symbol", JStr "ethUSDT"); ("id", JInt 8)]]
           (JObj [("symbol", JStr "ETHUSDT"); ("id", JInt 7)])
           (JObj [("symbol", JStr "ethUSDT"); ("id", JInt 8)]) "ETHUSDT" "ethUSDT");
    try (vm_compute; reflexivity); try discriminate; simpl; auto.
Defined.

(** X15: the entries for other quote currencies count for nothing in a
    population: dropping from the exchange information every entry whose
    symbol is text that does not end in [USDT] changes neither the outcome
    nor the registry the call leaves, on success and on failure alike. *)
Theorem population_ignores_other_quotes {upper : string -> string}
    (exchange_info : dict) (self : CoinstoreExchange) (data_list : list json) :
  dict_get "data" exchange_info = JList data_list ->
  _initialize_trading_pair_symbols_from_exchange_info upper
    (dict_set "data" (JList (usdt_entries data_list)) exchange_info) self
  = _initialize_trading_pair_symbols_from_exchange_info upper exchange_info self.
Proof.
  intros Hdata. unfold _initialize_trading_pair_symbols_from_exchange_info.
  rewrite dict_get_set_ne by discriminate. rewrite dict_get_set_eq, Hdata.
  cbn [py_iter]. rewrite install_symbols_usdt_entries. reflexivity.
Qed.

Lemma population_ignores_other_quotes_witness :
  _initialize_trading_pair_symbols_from_exchange_info ascii_upper
    [("code", JInt 0);
     ("data", JList [JObj [("symbol", JStr "BTCUSDT"); ("id", JInt 4)];
                     JObj [("symbol", JStr "ethUSDT"); ("id", JInt 7)]])]
    empty_connector
  = _initialize_trading_pair_symbols_from_exchange_info ascii_upper
      exchange_info_ok empty_connector.
Proof.
  exact (population_ignores_other_quotes (upper:=ascii_upper)
           exchange_info_ok empty_connector
           [JObj [("symbol", JStr "BTCUSDT"); ("id", JInt 4)];
            JObj [("symbol", JStr "ETHBTC"); ("id", JInt 5)];
            JObj [("symbol", JStr "ethUSDT"); ("id", JInt 7)]]
           eq_refl).
Defined.

(** X16: whatever the exchange information, a population removes no
    channel id; when it raises, the symbol map is the one from before, so a
    registry that was not ready stays not ready while channel ids of the
    entries already visited are in place; when it returns on error code
    zero, a symbol map is installed. *)
Theorem population_outcomes {upper : string -> string}
    (exchange_info : dict) (self : CoinstoreExchange) :
  let outcome := _initialize_trading_pair_symbols_from_exchange_info upper exchange_info self in
  (forall s, is_Some (_symbol_to_id_map self !! s) ->
             is_Some (_symbol_to_id_map (snd outcome) !! s)) /\
  (forall e, fst outcome = Raise e ->
             _trading_pair_symbol_map (snd outcome) = _trading_pair_symbol_map self) /\
  (fst outcome = Ok tt -> py_eq_zero (dict_get "code" exchange_info) = true ->
   is_Some (_trading_pair_symbol_map (snd outcome))).
Proof.
  unfold _initialize_trading_pair_symbols_from_exchange_info.
  destruct (py_eq_zero (dict_get "code" exchange_info)); cbn [negb];
    [|repeat split; auto; discriminate].
  destruct (py_iter (dict_get "data" exchange_info)) as [data_list|e0];
    [|repeat split; auto; discriminate].
  pose proof (install_symbols_keeps_ids (upper:=upper) data_list
                (bidict_empty, _symbol_to_id_map self)) as Hids.
  destruct (install_symbols upper data_list (bidict_empty, _symbol_to_id_map self))
    as [[[]|e0] [m ids]]; simpl in *; repeat split; eauto; discriminate.
Qed.

(** ** Trading rules *)

Lemma format_trading_rules_loop_raises {upper : string -> string} (TradingRule : Type)
    (TradingRule_new : string -> Decimal -> Decimal -> Z -> string -> result TradingRule)
    (data_list : list json) (symbol_data : json) :
  In symbol_data data_list ->
  (exists e, format_trading_rule upper TradingRule TradingRule_new symbol_data = Raise e) ->
  forall trading_rules, exists e,
    format_trading_rules_loop upper TradingRule TradingRule_new data_list trading_rules
      = Raise e.
Proof.
  intros Hin [e He]. induction data_list as [|x rest IH]; [destruct Hin|].
  intros trading_rules. cbn [format_trading_rules_loop].
  destruct Hin as [->|Hin].
  - rewrite He. eauto.
  - destruct (format_trading_rule upper TradingRule TradingRule_new x); simpl; eauto.
Qed.

(** X17: [_format_trading_rules] returns no rules at all for exchange
    information that lists a symbol which does not split in two at [USDT],
    such as a symbol of another quote currency, which population skips:
    whatever the rule constructor does, the call raises. *)
Theorem format_trading_rules_raises_on_other_quote {upper : string -> string}
    (TradingRule : Type)
    (TradingRule_new : string -> Decimal -> Decimal -> Z -> string -> result TradingRule)
    (exchange_info_dict : dict) (data_list : list json)
    (symbol_data : json) (s : string) :
  dict_item "data" exchange_info_dict = Ok (JList data_list) ->
  In symbol_data data_list ->
  subscript symbol_data "symbol" = Ok (JStr s) ->
  (forall base_asset quote_asset, split s "USDT" <> [base_asset; quote_asset]) ->
  format_trading_rule upper TradingRule TradingRule_new symbol_data = Raise ValueError /\
  exists e,
    _format_trading_rules upper TradingRule TradingRule_new exchange_info_dict = Raise e.
Proof.
  intros Hdata Hin Hs Hsplit.
  assert (H : format_trading_rule upper TradingRule TradingRule_new symbol_data
              = Raise ValueError).
  { unfold format_trading_rule. rewrite Hs. simpl.
    destruct (split s "USDT") as [|b [|q [|? ?]]] eqn:E; try reflexivity.
    exfalso. exact (Hsplit _ _ eq_refl). }
  split; [exact H|]. unfold _format_trading_rules. rewrite Hdata. simpl.
  apply (format_trading_rules_loop_raises _ _ _ _ Hin). eauto.
Qed.

Lemma format_trading_rules_raises_on_other_quote_witness :
  (exists self',
     _initialize_trading_pair_symbols_from_exchange_info ascii_upper
       exchange_info_ok empty_connector = (Ok tt, self')) /\
  exists e,
    _format_trading_rules ascii_upper unit (fun _ _ _ _ _ => Ok tt) exchange_info_ok = Raise e.
Proof.
  split; [eexists; vm_compute; reflexivity|].
  refine (proj2 (format_trading_rules_raises_on_other_quote (upper:=ascii_upper) unit
                   (fun _ _ _ _ _ => Ok tt) exchange_info_ok
                   [JObj [("symbol", JStr "BTCUSDT"); ("id", JInt 4)];
                    JObj [("symbol", JStr "ETHBTC"); ("id", JInt 5)];
                    JObj [("symbol", JStr "ethUSDT"); ("id", JInt 7)]]
                   (JObj [("symbol", JStr "ETHBTC"); ("id", JInt 5)])
                   "ETHBTC" _ _ _ _)).
  - reflexivity.
  - simpl. auto.
  - reflexivity.
  - intros base_asset quote_asset. vm_compute. discriminate.
Defined.

(** ** The payload that is signed *)

Lemma unquote_head_quote_plus_byte (c : ascii) (r : list ascii) :
  unquote_head (quote_plus_byte c ++ r) = Some (c, r).
Proof.
  destruct c as [[] [] [] [] [] [] [] []]; reflexivity.
Qed.

Lemma quote_plus_byte_no_separator (c : ascii) :
  forallb (fun x => negb (is_separator x)) (quote_plus_byte c) = true.
Proof.
  destruct c as [[] [] [] [] [] [] [] []]; reflexivity.
Qed.

Lemma quote_bytes_inj (l1 : list ascii) :
  forall l2, flat_map quote_plus_byte l1 = flat_map quote_plus_byte l2 -> l1 = l2.
Proof.
  induction l1 as [|c1 l1 IH]; intros [|c2 l2] H; cbn [flat_map] in H.
  - reflexivity.
  - apply (f_equal unquote_head) in H.
    rewrite unquote_head_quote_plus_byte in H. discriminate.
  - apply (f_equal unquote_head) in H.
    rewrite unquote_head_quote_plus_byte in H. discriminate.
  - apply (f_equal unquote_head) in H.
    rewrite !unquote_head_quote_plus_byte in H. injection H as -> H.
    f_equal. apply IH. exact H.
Qed.

Lemma list_ascii_of_string_inj (s t : string) :
  list_ascii_of_string s = list_ascii_of_string t -> s = t.
Proof.
  intros H. apply (f_equal string_of_list_ascii) in H.
  rewrite !string_of_list_ascii_of_string in H. exact H.
Qed.

Lemma quote_plus_inj (s t : string) : quote_plus s = quote_plus t -> s = t.
Proof.
  unfold quote_plus. intros H. apply (f_equal list_ascii_of_string) in H.
  rewrite !list_ascii_of_string_of_list_ascii in H.
  apply list_ascii_of_string_inj, quote_bytes_inj, H.
Qed.

Lemma quote_plus_no_separator (s : string) :
  forallb (fun x => negb (is_separator x)) (list_ascii_of_string (quote_plus s)) = true.
Proof.
  unfold quote_plus. rewrite list_ascii_of_string_of_list_ascii.
  induction (list_ascii_of_string s) as [|c l IH]; [reflexivity|].
  cbn [flat_map]. rewrite forallb_app, quote_plus_byte_no_separator, IH. reflexivity.
Qed.

(** Two texts free of a separator, each followed by nothing or by the
    separator: equal wholes have equal parts. *)
Lemma cut_at_separator (c : ascii) (a1 : list ascii) :
  forall a2 t1 t2,
    ~ In c a1 -> ~ In c a2 ->
    (t1 = [] \/ exists r, t1 = c :: r) -> (t2 = [] \/ exists r, t2 = c :: r) ->
    a1 ++ t1 = a2 ++ t2 -> a1 = a2 /\ t1 = t2.
Proof.
  induction a1 as [|x a1 IH]; intros [|y a2] t1 t2 H1 H2 Ht1 Ht2 H; simpl in H.
  - auto.
  - exfalso. destruct Ht1 as [->|[r ->]]; [discriminate|].
    injection H as <- _. apply H2. left. reflexivity.
  - exfalso. destruct Ht2 as [->|[r ->]]; [discriminate|].
    injection H as -> _. apply H1. left. reflexivity.
  - injection H as -> H.
    destruct (IH a2 t1 t2) as [-> ->]; auto.
    + intros Hin. apply H1. right. exact Hin.
    + intros Hin. apply H2. right. exact Hin.
Qed.

Lemma join_cons (sep x : string) (rest : list string) :
  join sep (x :: rest)
  = x +:+ match rest with [] => "" | _ :: _ => sep +:+ join sep rest end.
Proof.
  destruct rest; cbn [join]; [|reflexivity].
  induction x as [|c x IH]; [reflexivity|].
  change (String c x +:+ "") with (String c (x +:+ "")). rewrite <- IH. reflexivity.
Qed.

Lemma no_separator_not_in (c : ascii) (l : list ascii) :
  is_separator c = true ->
  forallb (fun x => negb (is_separator x)) l = true -> ~ In c l.
Proof.
  intros Hc Hl Hin. rewrite forallb_forall in Hl. apply Hl in Hin.
  rewrite Hc in Hin. discriminate.
Qed.

Lemma urlencode_items_inj (repr_other : json -> string) (p1 : dict) :
  forall p2,
    urlencode repr_other p1 = urlencode repr_other p2 ->
    text_items repr_other p1 = text_items repr_other p2.
Proof.
  unfold urlencode, text_items.
  induction p1 as [|[k1 v1] p1 IH]; intros [|[k2 v2] p2] H.
  - reflexivity.
  - exfalso. cbn [map] in H. rewrite join_cons in H. cbn [fst snd join] in H.
    apply (f_equal list_ascii_of_string) in H.
    rewrite !list_ascii_of_append in H. simpl in H.
    destruct (list_ascii_of_string (quote_plus k2)); discriminate.
  - exfalso. cbn [map] in H. rewrite join_cons in H. cbn [fst snd join] in H.
    apply (f_equal list_ascii_of_string) in H.
    rewrite !list_ascii_of_append in H. simpl in H.
    destruct (list_ascii_of_string (quote_plus k1)); discriminate.
  - cbn [map] in H |- *. rewrite !join_cons in H. cbn [fst snd] in H |- *.
    apply (f_equal list_ascii_of_string) in H.
    rewrite !list_ascii_of_append in H.
    change (list_ascii_of_string "=") with ["="%char] in H.
    cbn [app] in H. rewrite <- !app_assoc in H.
    apply (cut_at_separator "=") in H as [Hk H];
      [|apply no_separator_not_in; [reflexivity|apply quote_plus_no_separator]
       |apply no_separator_not_in; [reflexivity|apply quote_plus_no_separator]
       |right; eauto|right; eauto].
    injection H as H.
    apply (cut_at_separator "&") in H as [Hv H];
      [|apply no_separator_not_in; [reflexivity|apply quote_plus_no_separator]
       |apply no_separator_not_in; [reflexivity|apply quote_plus_no_separator]
       |destruct p1; cbn [map]; [left; reflexivity|right;
          rewrite list_ascii_of_append; simpl; eauto]
       |destruct p2; cbn [map]; [left; reflexivity|right;
          rewrite list_ascii_of_append; simpl; eauto]].
    apply list_ascii_of_string_inj, quote_plus_inj in Hk, Hv.
    rewrite Hk, Hv. f_equal. apply IH.
    destruct p1 as [|kv1 p1]; destruct p2 as [|kv2 p2]; try reflexivity;
      rewrite ?list_ascii_of_append in H; simpl in H; try discriminate.
    injection H as H. apply list_ascii_of_string_inj in H. exact H.
Qed.

Lemma urlencode_of_text_items (repr_other : json -> string) (params : dict) :
  urlencode repr_other params
  = join "&" (map (fun kt => quote_plus (fst kt) +:+ "=" +:+ quote_plus (snd kt))
                (text_items repr_other params)).
Proof. unfold urlencode, text_items. rewrite map_map. reflexivity. Qed.

(** X18: the payload that is signed determines the parameters as far as
    their text goes, and nothing more: two parameter dicts are encoded to the
    same payload exactly when they hold the same keys in the same order with
    values of the same text; they then get the same signature, so that an
    integer and the string of its digits are signed alike. *)
Theorem signed_payload_determines_params
    (repr_other : json -> string) (self : CoinstoreAuth) (p1 p2 : dict) :
  (urlencode repr_other p1 = urlencode repr_other p2 <->
   text_items repr_other p1 = text_items repr_other p2) /\
  (text_items repr_other p1 = text_items repr_other p2 ->
   _generate_signature repr_other self p1 = _generate_signature repr_other self p2).
Proof.
  assert (Hback : text_items repr_other p1 = text_items repr_other p2 ->
                  urlencode repr_other p1 = urlencode repr_other p2)
    by (intros H; rewrite !urlencode_of_text_items, H; reflexivity).
  split; [split; [apply urlencode_items_inj|exact Hback]|].
  intros H. unfold _generate_signature. rewrite (Hback H). reflexivity.
Qed.

Example signed_alike (repr_other : json -> string) (self : CoinstoreAuth) :
  _generate_signature repr_other self [("depth", JInt 50)]
  = _generate_signature repr_other self [("depth", JStr "50")].
Proof. reflexivity. Qed.

(** ** Population, then subscription and frames *)

(** An entry of a successful population whose symbol ends in [USDT]: the
    registry holds its instrument, both ways, and a channel id. *)
Lemma populated_symbol {upper : string -> string}
    (exchange_info : dict) (self self' : CoinstoreExchange)
    (data_list : list json) (symbol_data : json) (s : string) :
  _initialize_trading_pair_symbols_from_exchange_info upper exchange_info self
    = (Ok tt, self') ->
  py_eq_zero (dict_get "code" exchange_info) = true ->
  dict_get "data" exchange_info = JList data_list ->
  In symbol_data data_list ->
  subscript symbol_data "symbol" = Ok (JStr s) ->
  endswith s "USDT" = true ->
  exists p id,
    pair_of_symbol upper s = Some p /\
    trading_pair_associated_to_exchange_symbol self' (JStr s) = Ok p /\
    exchange_symbol_associated_to_pair self' p = Ok s /\
    _symbol_to_id_map self' !! s = Some id.
Proof.
  intros H Hcode Hdata Hin Hs Hends.
  destruct (initialize_ok _ _ _ H Hcode) as (l & m & Hl & Hinst & Hmap).
  rewrite Hdata in Hl. injection Hl as <-.
  destruct (install_symbols_ok _ _ _ _ _ Hinst registry_inv_empty)
    as ([Hc Hinv] & _ & _ & Hall).
  destruct (Hall _ _ Hin Hs Hends) as [[p Hp] [id Hid]].
  exists p, id. split; [apply (Hinv _ _ Hp)|]. split; [|split; [|exact Hid]].
  - unfold trading_pair_associated_to_exchange_symbol. rewrite Hmap, Hp. reflexivity.
  - unfold exchange_symbol_associated_to_pair. rewrite Hmap.
    apply Hc in Hp. rewrite Hp. reflexivity.
Qed.

(** X19: population, then subscription. After a successful population, a
    data source whose instruments are those of entries of the exchange
    information with a symbol ending in [USDT] subscribes with one frame,
    which names the two channels of the channel id the registry holds for
    each of these symbols, in the order of the instruments. *)
Theorem populate_then_subscribe {upper : string -> string}
    (repr_other : json -> string) (exchange_info : dict)
    (self self' : CoinstoreExchange) (data_list : list json)
    (trading_pairs symbols : list string)
    (api_factory : option WebAssistantsFactory) (ws : WSAssistant) :
  _initialize_trading_pair_symbols_from_exchange_info upper exchange_info self
    = (Ok tt, self') ->
  py_eq_zero (dict_get "code" exchange_info) = true ->
  dict_get "data" exchange_info = JList data_list ->
  Forall2 (fun tp s =>
             pair_of_symbol upper s = Some tp /\ endswith s "USDT" = true /\
             exists symbol_data,
               In symbol_data data_list /\
               subscript symbol_data "symbol" = Ok (JStr s))
    trading_pairs symbols ->
  exists ids,
    Forall2 (fun s id => _symbol_to_id_map self' !! s = Some id) symbols ids /\
    _subscribe_channels repr_other
      {| _trading_pairs := trading_pairs; _connector := self';
         _api_factory := api_factory |} ws
    = (Ok tt, ws ++ [JObj [("op", JStr "SUB");
                           ("channel",
                            JList (map JStr (flat_map (channel_names repr_other) ids)));
                           ("id", JInt 1)]]).
Proof.
  intros H Hcode Hdata Hall.
  assert (Hids : exists ids,
             Forall2 (fun s id => _symbol_to_id_map self' !! s = Some id) symbols ids /\
             Forall2 (fun tp id => registry_entry self' tp = Some id) trading_pairs ids).
  { induction Hall as [|tp s tps ss (Hpair & Hends & entry & Hin & Hs) _ IH].
    - exists []. split; constructor.
    - destruct IH as (ids & Hsym & Hreg).
      destruct (populated_symbol _ _ _ _ _ _ H Hcode Hdata Hin Hs Hends)
        as (p & id & Hp & _ & Hback & Hid).
      assert (p = tp) by congruence. subst p.
      exists (id :: ids). split; constructor; auto.
      unfold registry_entry. rewrite Hback. exact Hid. }
  destruct Hids as (ids & Hsym & Hreg). exists ids. split; [exact Hsym|].
  unfold _subscribe_channels. cbn [_trading_pairs _connector].
  rewrite (subscribe_loop_registered repr_other _ _ _ Hreg). reflexivity.
Qed.

Lemma populate_then_subscribe_witness :
  exists ids,
    Forall2 (fun s id =>
               _symbol_to_id_map
                 (snd (_initialize_trading_pair_symbols_from_exchange_info ascii_upper
                         exchange_info_ok empty_connector)) !! s = Some id)
      ["ethUSDT"; "BTCUSDT"] ids /\
    _subscribe_channels (fun _ => "")
      {| _trading_pairs := ["ETH-USDT"; "BTC-USDT"];
         _connector := snd (_initialize_trading_pair_symbols_from_exchange_info
                              ascii_upper exchange_info_ok empty_connector);
         _api_factory := None |} []
    = (Ok tt, [] ++ [JObj [("op", JStr "SUB");
                           ("channel",
                            JList (map JStr (flat_map (channel_names (fun _ => "")) ids)));
                           ("id", JInt 1)]]).
Proof.
  apply (populate_then_subscribe (upper:=ascii_upper)
           (fun _ => "") exchange_info_ok empty_connector _
           [JObj [("symbol", JStr "BTCUSDT"); ("id", JInt 4)];
            JObj [("symbol", JStr "ETHBTC"); ("id", JInt 5)];
            JObj [("symbol", JStr "ethUSDT"); ("id", JInt 7)]]
           ["ETH-USDT"; "BTC-USDT"] ["ethUSDT"; "BTCUSDT"] None []);
    try (vm_compute; reflexivity).
  constructor; [|constructor; [|constructor]].
  - split; [reflexivity|]. split; [reflexivity|].
    exists (JObj [("symbol", JStr "ethUSDT"); ("id", JInt 7)]).
    split; [simpl; auto|reflexivity].
  - split; [reflexivity|]. split; [reflexivity|].
    exists (JObj [("symbol", JStr "BTCUSDT"); ("id", JInt 4)]).
    split; [simpl; auto|reflexivity].
Defined.

(** X20: population, then a diff frame. After a successful population, a
    diff frame that carries the symbol of an entry of the exchange
    information ending in [USDT], with its [b] and [a], is normalized to one
    DIFF message for the instrument of that symbol. *)
Theorem populate_then_parse_diff {upper : string -> string}
    (exchange_info : dict) (self self' : CoinstoreExchange)
    (data_list : list json) (symbol_data : json) (s : string)
    (trading_pairs : list string) (api_factory : option WebAssistantsFactory)
    (now : float) (frame : dict) (bids asks : json) (q : Queue) :
  _initialize_trading_pair_symbols_from_exchange_info upper exchange_info self
    = (Ok tt, self') ->
  py_eq_zero (dict_get "code" exchange_info) = true ->
  dict_get "data" exchange_info = JList data_list ->
  In symbol_data data_list ->
  subscript symbol_data "symbol" = Ok (JStr s) ->
  endswith s "USDT" = true ->
  dict_item "symbol" frame = Ok (JStr s) ->
  dict_item "b" frame = Ok bids ->
  dict_item "a" frame = Ok asks ->
  exists trading_pair,
    pair_of_symbol upper s = Some trading_pair /\
    _parse_order_book_diff_message
      {| _trading_pairs := trading_pairs; _connector := self';
         _api_factory := api_factory |} now frame q
    = (Ok tt, q ++ [{| type := DIFF;
                       content := BookContent trading_pair now bids asks;
                       timestamp := now |}]).
Proof.
  intros H Hcode Hdata Hin Hs Hends Hsym Hb Ha.
  destruct (populated_symbol _ _ _ _ _ _ H Hcode Hdata Hin Hs Hends)
    as (p & id & Hp & Hres & _ & _).
  exists p. split; [exact Hp|].
  unfold _parse_order_book_diff_message. cbn [_connector].
  rewrite Hsym. cbn [rbind]. rewrite Hres. cbn [rbind].
  rewrite Hb. cbn [rbind]. rewrite Ha. reflexivity.
Qed.

Lemma populate_then_parse_diff_witness :
  exists trading_pair,
    pair_of_symbol ascii_upper "ethUSDT" = Some trading_pair /\
    _parse_order_book_diff_message
      {| _trading_pairs := ["ETH-USDT"];
         _connector := snd (_initialize_trading_pair_symbols_from_exchange_info
                              ascii_upper exchange_info_ok empty_connector);
         _api_factory := None |}
      1700000000.25 (diff_frame "ethUSDT") []
    = (Ok tt, [] ++ [{| type := DIFF;
                        content := BookContent trading_pair 1700000000.25
                                     (JList [JList [JInt 45000; JInt 1]])
                                     (JList [JList [JInt 45500; JInt 1]]);
                        timestamp := 1700000000.25 |}]).
Proof.
  apply (populate_then_parse_diff (upper:=ascii_upper)
           exchange_info_ok empty_connector _
           [JObj [("symbol", JStr "BTCUSDT"); ("id", JInt 4)];
            JObj [("symbol", JStr "ETHBTC"); ("id", JInt 5)];
            JObj [("symbol", JStr "ethUSDT"); ("id", JInt 7)]]
           (JObj [("symbol", JStr "ethUSDT"); ("id", JInt 7)]) "ethUSDT"
           ["ETH-USDT"] None 1700000000.25 (diff_frame "ethUSDT")
           (JList [JList [JInt 45000; JInt 1]]) (JList [JList [JInt 45500; JInt 1]]) []);
    try (vm_compute; reflexivity).
  simpl. auto.
Defined.
